(** * Trackerman: price tracker for marketplace listings

    A shallow embedding of the core of the repository (the snapshot store
    [DataManager], the alert logic of [AutoScheduler] and
    [TrackermanService], and the text normalisers and listing extractors
    of [SteamMarketScraper]) together with the properties its
    specification states about them.

    Conventions of the embedding:
    - a JavaScript string is the list of its code points ([jsstring]);
    - a JavaScript number is an exact rational ([Q]); rounding to
      binary64 is not modelled, comparisons are the rational ones;
    - an optional field is an [option];
    - [new Date().toISOString()] is an input of the operation that
      reads the clock;
    - a method that can throw returns a [result]; the methods of a cycle
      run in a state and exception monad over the [World];
    - the HTTP client, the markup parser and the notification transport
      are outside: the extractors are given what the parser finds in
      the response, a cycle is given the outcome of each request and of
      each notifier call;
    - file input and output succeed. *)

From Stdlib Require Import Strings.String Strings.Ascii.
From Stdlib Require Import List Bool Arith NArith ZArith QArith Lia.
From Stdlib Require Import Permutation.
Import ListNotations.

Set Implicit Arguments.

(** ** JavaScript values *)

Definition jsstring := list N.

(** An ASCII literal as a [jsstring]. *)
Definition js (s : string) : jsstring :=
  map N_of_ascii (list_ascii_of_string s).

(** [a === b] on strings. *)
Fixpoint str_eqb (a b : jsstring) : bool :=
  match a, b with
  | [], [] => true
  | x :: a', y :: b' => N.eqb x y && str_eqb a' b'
  | _, _ => false
  end.

(** [a !== b] and the truthiness of a number. *)
Definition num_neqb (a b : Q) : bool := negb (Qeq_bool a b).
Definition truthy (x : Q) : bool := negb (Qeq_bool x 0).

(** A thrown [Error(message)]. *)
Inductive JsError := MkError (message : jsstring).

Inductive result (A : Type) :=
| Ok (a : A)
| Throw (e : JsError).
Arguments Ok {A} a.
Arguments Throw {A} e.

(** ** types/index.ts *)

Record SkinData := mkSkinData {
  sd_timestamp : jsstring;
  sd_price : Q;
  sd_currency : jsstring;
  sd_listingId : option jsstring;
  sd_sellerId : option jsstring;
  sd_sellerName : option jsstring;
  sd_expired : option bool
}.

Record Thresholds := mkThresholds {
  th_high : option Q;
  th_low : option Q
}.

Record Skin := mkSkin {
  skin_name : jsstring;
  skin_exterior : jsstring;
  skin_url : jsstring;
  skin_skindata : list SkinData;
  skin_thresholds : option Thresholds
}.

Record TrackermanData := mkData {
  skins : list Skin;
  lastUpdated : jsstring
}.

Record AutoSchedulerSettings := mkAuto {
  as_enabled : bool;
  as_intervalMinutes : Q;
  as_lastRun : option jsstring
}.

Record DiscordNotificationSettings := mkDiscord {
  dc_enabled : bool;
  dc_webhookUrl : option jsstring;
  dc_priceUpdate : bool;
  dc_thresholdHigh : bool;
  dc_thresholdLow : bool
}.

Record ScrapingSettings := mkScraping {
  sc_timeoutMs : Q;
  sc_delayBetweenRequests : Q;
  sc_maxRetries : Q
}.

Record LoggingSettings := mkLogging {
  lg_enabled : bool;
  lg_file : option jsstring
}.

Record TrackermanSettings := mkSettings {
  autoScheduler : AutoSchedulerSettings;
  discord : DiscordNotificationSettings;
  scraping : ScrapingSettings;
  logging : option LoggingSettings
}.

(** [Partial<TrackermanSettings>]. *)
Record PartialSettings := mkPartial {
  p_autoScheduler : option AutoSchedulerSettings;
  p_discord : option DiscordNotificationSettings;
  p_scraping : option ScrapingSettings;
  p_logging : option LoggingSettings
}.

Inductive PriceType := lowest | highest.

Record ScrapingOptions := mkOptions {
  opt_priceType : PriceType;
  opt_count : Z;
  opt_exteriorFilter : option jsstring
}.

Record SteamMarketItem := mkItem {
  item_name : jsstring;
  item_exterior : jsstring;
  item_price : Q;
  item_currency : jsstring;
  item_listingId : option jsstring;
  item_sellerId : option jsstring;
  item_sellerName : option jsstring
}.

(** ** DataManager: the snapshot store *)

(** [!data.expired]: an absent flag is falsy. *)
Definition is_expired (d : SkinData) : bool :=
  match sd_expired d with
  | Some b => b
  | None => false
  end.

Definition set_expired (b : bool) (d : SkinData) : SkinData :=
  mkSkinData (sd_timestamp d) (sd_price d) (sd_currency d) (sd_listingId d)
             (sd_sellerId d) (sd_sellerName d) (Some b).

(** [skin.name === name && skin.exterior === exterior]. *)
Definition same_key (name exterior : jsstring) (s : Skin) : bool :=
  str_eqb (skin_name s) name && str_eqb (skin_exterior s) exterior.

(** The first element satisfying [p] is replaced by its image: what a
    mutation through the reference returned by [Array.prototype.find]
    does to the array. *)
Fixpoint update_first (p : Skin -> bool) (f : Skin -> Skin) (l : list Skin)
  : list Skin :=
  match l with
  | [] => []
  | s :: l' => if p s then f s :: l' else s :: update_first p f l'
  end.

Module DataManager.

(** [saveData]: stamps [lastUpdated] and writes the document. *)
Definition saveData (now : jsstring) (d : TrackermanData) : TrackermanData :=
  mkData (skins d) now.

(** [getSkins]: the full view.  (The method reads the file again when it
    is newer than the copy in memory; every mutation is saved at once, so
    the file and the copy hold the same document.) *)
Definition getSkins (d : TrackermanData) : list Skin := skins d.

Definition getSkin (name exterior : jsstring) (d : TrackermanData)
  : option Skin :=
  find (same_key name exterior) (skins d).

Definition active (s : Skin) : Skin :=
  mkSkin (skin_name s) (skin_exterior s) (skin_url s)
         (filter (fun x => negb (is_expired x)) (skin_skindata s))
         (skin_thresholds s).

(** [getActiveSkin]: the current view of one item. *)
Definition getActiveSkin (name exterior : jsstring) (d : TrackermanData)
  : option Skin :=
  match getSkin name exterior d with
  | None => None
  | Some s => Some (active s)
  end.

(** [getActiveSkins]: the current view of all items. *)
Definition getActiveSkins (d : TrackermanData) : list Skin :=
  map active (skins d).

(** The mutation [addSkinData] performs on an existing item: every
    stored observation is marked expired, then [skinData], marked not
    expired, is pushed.  The array keeps the reference it is given; every
    caller builds a new [skinData] object for each call, so the pushed
    object is none of the stored ones. *)
Definition push_data (skinData : SkinData) (url : jsstring) (s : Skin) : Skin :=
  mkSkin (skin_name s) (skin_exterior s) url
         (map (set_expired true) (skin_skindata s)
            ++ [set_expired false skinData])
         (skin_thresholds s).

Definition addSkinData (now name exterior : jsstring) (skinData : SkinData)
           (url : jsstring) (d : TrackermanData) : TrackermanData :=
  match getSkin name exterior d with
  | Some _ =>
      saveData now
        (mkData (update_first (same_key name exterior)
                              (push_data skinData url) (skins d))
                (lastUpdated d))
  | None =>
      saveData now
        (mkData (skins d ++ [mkSkin name exterior url
                                    [set_expired false skinData] None])
                (lastUpdated d))
  end.

Definition duplicate_message (s : Skin) : jsstring :=
  js "Skin " ++ skin_name s ++ js " (" ++ skin_exterior s
     ++ js ") already exists".

(** [addSkin]: the store after the call and its outcome. *)
Definition addSkin (now : jsstring) (skin : Skin) (d : TrackermanData)
  : TrackermanData * result unit :=
  match getSkin (skin_name skin) (skin_exterior skin) d with
  | Some _ => (d, Throw (MkError (duplicate_message skin)))
  | None => (saveData now (mkData (skins d ++ [skin]) (lastUpdated d)), Ok tt)
  end.

Definition removeSkin (now name exterior : jsstring) (d : TrackermanData)
  : TrackermanData :=
  saveData now
    (mkData (filter (fun s => negb (same_key name exterior s)) (skins d))
            (lastUpdated d)).

Definition not_found_message (name exterior : jsstring) : jsstring :=
  js "Skin " ++ name ++ js " (" ++ exterior ++ js ") not found".

Definition updateSkinThresholds (now name exterior : jsstring)
           (th : Thresholds) (d : TrackermanData)
  : TrackermanData * result unit :=
  match getSkin name exterior d with
  | None => (d, Throw (MkError (not_found_message name exterior)))
  | Some _ =>
      (saveData now
         (mkData (update_first (same_key name exterior)
                    (fun s => mkSkin (skin_name s) (skin_exterior s)
                                     (skin_url s) (skin_skindata s)
                                     (Some th))
                    (skins d))
                 (lastUpdated d)), Ok tt)
  end.

(** [{ ...this.settings, ...settings }]. *)
Definition merge (s : TrackermanSettings) (p : PartialSettings)
  : TrackermanSettings :=
  mkSettings
    (match p_autoScheduler p with Some a => a | None => autoScheduler s end)
    (match p_discord p with Some a => a | None => discord s end)
    (match p_scraping p with Some a => a | None => scraping s end)
    (match p_logging p with Some a => Some a | None => logging s end).

Definition updateSettings (p : PartialSettings) (s : TrackermanSettings)
  : TrackermanSettings :=
  merge s p.

End DataManager.

(** ** The external collaborators and the effects of a cycle *)

Inductive ThresholdType := th_kind_high | th_kind_low.

(** A call to the notifier: [sendPriceUpdateNotification(skin, newData)]
    or [sendThresholdNotification(skin, newData, type)]. *)
Inductive Notification :=
| PriceUpdate (skin : Skin) (newData : SkinData)
| ThresholdHit (skin : Skin) (newData : SkinData) (kind : ThresholdType).

(** What the outside world answers.  [scrape i url options] is the outcome
    of [scrapeMarketPage] for the [i]-th item of a cycle; [notify i n]
    tells whether the notifier call [n] made for that item returns
    ([true]) or throws; [clock k] is the [k]-th reading of the clock. *)
Record Env := mkEnv {
  scrape : nat -> jsstring -> ScrapingOptions -> result (list SteamMarketItem);
  notify : nat -> Notification -> bool;
  clock : nat -> jsstring
}.

Record World := mkWorld {
  w_data : TrackermanData;
  w_settings : TrackermanSettings;
  w_sent : list Notification;
  w_tick : nat;
  w_requests : list jsstring
}.

(** State and exceptions: an effectful method maps a world to a new world
    and either a value or a thrown error. *)
Definition M (A : Type) : Type := World -> World * result A.

Definition ret {A} (a : A) : M A := fun w => (w, Ok a).

Definition bind {A B} (m : M A) (k : A -> M B) : M B :=
  fun w =>
    match m w with
    | (w', Ok a) => k a w'
    | (w', Throw e) => (w', Throw e)
    end.

Notation "x <- m ;; k" := (bind m (fun x => k))
  (at level 61, m at next level, right associativity).
Notation "m ;;; k" := (bind m (fun _ => k))
  (at level 61, right associativity).

(** [try { m } catch (error) { h error }]. *)
Definition try_catch {A} (m : M A) (h : JsError -> M A) : M A :=
  fun w =>
    match m w with
    | (w', Ok a) => (w', Ok a)
    | (w', Throw e) => h e w'
    end.

Definition when (b : bool) (m : M unit) : M unit :=
  if b then m else ret tt.

(** A call to [scraper.scrapeMarketPage(url, options)] for the [i]-th
    item: the request is recorded, the outside world gives its outcome. *)
Definition request (env : Env) (i : nat) (url : jsstring)
           (options : ScrapingOptions) : M (list SteamMarketItem) :=
  fun w =>
    (mkWorld (w_data w) (w_settings w) (w_sent w) (w_tick w)
             (w_requests w ++ [url]),
     scrape env i url options).

(** [new Date().toISOString()]. *)
Definition newDate (env : Env) : M jsstring :=
  fun w =>
    (mkWorld (w_data w) (w_settings w) (w_sent w) (S (w_tick w))
             (w_requests w),
     Ok (clock env (w_tick w))).

(** The error [sendWebhook] throws (its message also carries the cause). *)
Definition notification_failed : JsError :=
  MkError (js "Discord notification failed").

(** A notifier call: the call is recorded, then it returns or throws. *)
Definition send (deliver : Notification -> bool) (n : Notification) : M unit :=
  fun w =>
    (mkWorld (w_data w) (w_settings w) (w_sent w ++ [n]) (w_tick w)
             (w_requests w),
     if deliver n then Ok tt else Throw notification_failed).

Definition modify_data (f : TrackermanData -> TrackermanData) : M unit :=
  fun w =>
    (mkWorld (f (w_data w)) (w_settings w) (w_sent w) (w_tick w)
             (w_requests w), Ok tt).

Definition modify_settings (f : TrackermanSettings -> TrackermanSettings)
  : M unit :=
  fun w =>
    (mkWorld (w_data w) (f (w_settings w)) (w_sent w) (w_tick w)
             (w_requests w), Ok tt).

Definition get_data : M TrackermanData := fun w => (w, Ok (w_data w)).

(** [dataManager.addSkinData(...)], with the clock reading of [saveData]. *)
Definition addSkinDataM (env : Env) (name exterior : jsstring)
           (skinData : SkinData) (url : jsstring) : M unit :=
  t <- newDate env ;;
  modify_data (DataManager.addSkinData t name exterior skinData url).

(** [a[a.length - 1]] and [a[a.length - 2]]. *)
Definition last_opt {A} (l : list A) : option A :=
  nth_error l (length l - 1).

Definition before_last_opt {A} (l : list A) : option A :=
  if length l <? 2 then None else nth_error l (length l - 2).

(** The threshold block shared by the scheduler and the service:
    [if (skin.thresholds) { if (high && price >= high) ...;
    if (low && price <= low) ... }]. *)
Definition high_hit (th : Thresholds) (p : Q) : bool :=
  match th_high th with
  | Some h => truthy h && Qle_bool h p
  | None => false
  end.

Definition low_hit (th : Thresholds) (p : Q) : bool :=
  match th_low th with
  | Some l => truthy l && Qle_bool p l
  | None => false
  end.

Definition check_thresholds (deliver : Notification -> bool) (skin : Skin)
           (newData : SkinData) (p : Q) : M unit :=
  match skin_thresholds skin with
  | Some th =>
      when (high_hit th p)
           (send deliver (ThresholdHit skin newData th_kind_high)) ;;;
      when (low_hit th p) (send deliver (ThresholdHit skin newData th_kind_low))
  | None => ret tt
  end.

Module TrackermanService.

(** [checkAndSendNotifications(skin, newData)]: [skin] is the item as
    stored after the append. *)
Definition checkAndSendNotifications (deliver : Notification -> bool)
           (skin : Skin) (newData : SkinData) : M unit :=
  try_catch
    (when (1 <? length (skin_skindata skin))
       (match before_last_opt (skin_skindata skin) with
        | Some previousData =>
            when (num_neqb (sd_price previousData) (sd_price newData))
                 (send deliver (PriceUpdate skin newData))
        | None => ret tt
        end) ;;;
     check_thresholds deliver skin newData (sd_price newData))
    (fun _ => ret tt).

End TrackermanService.

Module AutoScheduler.

Definition scrapingOptions : ScrapingOptions := mkOptions lowest 1 None.

Definition skinData_of (t : jsstring) (item : SteamMarketItem) : SkinData :=
  mkSkinData t (item_price item) (item_currency item) (item_listingId item)
             (item_sellerId item) None None.

(** [!previousData || previousData.price !== item.price]. *)
Definition priceChanged (previousData : option SkinData) (item : SteamMarketItem)
  : bool :=
  match previousData with
  | None => true
  | Some d => num_neqb (sd_price d) (item_price item)
  end.

(** The body of the [try] block for the [i]-th item.  [skin] is the
    element of the live array; after [addSkinData] the same element is
    read again, since the notifier receives the mutated object. *)
Definition fetchBody (env : Env) (i : nat) (skin : Skin) : M unit :=
  items <- request env i (skin_url skin) scrapingOptions ;;
  match items with
  | [] => ret tt
  | item :: _ =>
      t <- newDate env ;;
      let skinData := skinData_of t item in
      let previousData := last_opt (skin_skindata skin) in
      let changed := priceChanged previousData item in
      addSkinDataM env (skin_name skin) (skin_exterior skin) skinData
                   (skin_url skin) ;;;
      d <- get_data ;;
      let skin' := nth i (skins d) skin in
      let newData := set_expired false skinData in
      when changed (send (notify env i) (PriceUpdate skin' newData)) ;;;
      check_thresholds (notify env i) skin' newData (item_price item)
  end.

(** One iteration of [for (const skin of skins)]: a thrown error is
    logged and counted, never propagated. *)
Definition fetchOne (env : Env) (i : nat) : M unit :=
  fun w =>
    match nth_error (skins (w_data w)) i with
    | None => (w, Ok tt)
    | Some skin => try_catch (fetchBody env i skin) (fun _ => ret tt) w
    end.

(** [for (const skin of skins)] over the positions of the live array.
    The array has the same length during the whole cycle: an append for
    an element of the array never adds an item (see
    [fetchOne_keeps_length]). *)
Fixpoint fetchLoop (env : Env) (indices : list nat) : M unit :=
  match indices with
  | [] => ret tt
  | i :: rest => fetchOne env i ;;; fetchLoop env rest
  end.

(** [{ ...this.settings, lastRun: ... }]. *)
Definition with_lastRun (s : AutoSchedulerSettings) (t : jsstring)
  : AutoSchedulerSettings :=
  mkAuto (as_enabled s) (as_intervalMinutes s) (Some t).

(** [executeScheduledFetch], [this.settings] being the scheduler's own
    copy of the settings. *)
Definition executeScheduledFetch (env : Env) (this_settings : AutoSchedulerSettings)
  : M unit :=
  d <- get_data ;;
  let skins := DataManager.getSkins d in
  if length skins =? 0 then ret tt
  else
    fetchLoop env (seq 0 (length skins)) ;;;
    t <- newDate env ;;
    modify_settings
      (DataManager.updateSettings
         (mkPartial (Some (with_lastRun this_settings t)) None None None)).

Definition manualTrigger (env : Env) (this_settings : AutoSchedulerSettings)
  : M unit :=
  executeScheduledFetch env this_settings.

End AutoScheduler.

(** ** Character classes and string primitives *)

Definition in_range (lo hi c : N) : bool := (lo <=? c)%N && (c <=? hi)%N.

(** [\d] *)
Definition isDigit (c : N) : bool := in_range 48 57 c.

Definition comma : N := 44.
Definition dot : N := 46.
Definition space : N := 32.

(** [\w] without the [u] flag: [A-Za-z0-9_]. *)
Definition isWordChar (c : N) : bool :=
  in_range 65 90 c || in_range 97 122 c || isDigit c || N.eqb c 95.

(** [\s], which is also what [trim] strips: WhiteSpace and LineTerminator. *)
Definition isSpace (c : N) : bool :=
  in_range 9 13 c || N.eqb c 32 || N.eqb c 160 || N.eqb c 5760
  || in_range 8192 8202 c || N.eqb c 8232 || N.eqb c 8233 || N.eqb c 8239
  || N.eqb c 8287 || N.eqb c 12288 || N.eqb c 65279.

(** [\p{Sc}]: the code points of general category Currency_Symbol. *)
Definition isCurrencySymbol (c : N) : bool :=
  N.eqb c 36 || in_range 162 165 c || N.eqb c 1423 || N.eqb c 1547
  || in_range 2046 2047 c || in_range 2546 2547 c || N.eqb c 2555
  || N.eqb c 2801 || N.eqb c 3065 || N.eqb c 3647 || N.eqb c 6107
  || in_range 8352 8384 c || N.eqb c 43064 || N.eqb c 65020
  || N.eqb c 65129 || N.eqb c 65284 || in_range 65504 65505 c
  || in_range 65509 65510 c || in_range 73693 73696 c || N.eqb c 123647
  || N.eqb c 126128.

(** [toLowerCase] on the code points whose lower case contains an ASCII
    character: [A-Z], U+0130 and U+212A.  The other code points are left
    as they are: their lower case is not ASCII either, and the source
    compares lower-cased text with ASCII text only. *)
Definition lowerCodePoint (c : N) : jsstring :=
  if in_range 65 90 c then [(c + 32)%N]
  else if N.eqb c 304 then [105; 775]%N
  else if N.eqb c 8490 then [107%N]
  else [c].

Definition toLowerCase (s : jsstring) : jsstring := flat_map lowerCodePoint s.

(** Canonicalisation of the [i] flag (without [u]): upper case, never from
    a non-ASCII character to an ASCII one. *)
Definition canonicalize (c : N) : N :=
  if in_range 97 122 c then (c - 32)%N else c.

Definition char_eq_ci (a b : N) : bool := N.eqb (canonicalize a) (canonicalize b).

Fixpoint startsWith (p s : jsstring) : bool :=
  match p, s with
  | [], _ => true
  | x :: p', y :: s' => N.eqb x y && startsWith p' s'
  | _ :: _, [] => false
  end.

Fixpoint startsWith_ci (p s : jsstring) : bool :=
  match p, s with
  | [], _ => true
  | x :: p', y :: s' => char_eq_ci x y && startsWith_ci p' s'
  | _ :: _, [] => false
  end.

(** [s.includes(sub)] *)
Fixpoint includes (s sub : jsstring) : bool :=
  startsWith sub s
  || match s with
     | [] => false
     | _ :: s' => includes s' sub
     end.

Fixpoint dropWhile (p : N -> bool) (s : jsstring) : jsstring :=
  match s with
  | [] => []
  | c :: s' => if p c then dropWhile p s' else s
  end.

(** [s.trim()] *)
Definition trim (s : jsstring) : jsstring :=
  rev (dropWhile isSpace (rev (dropWhile isSpace s))).

(** [s.replace(/\s+/g, ' ')]; [inRun] tells that the previous character
    belongs to the run of white space being replaced. *)
Fixpoint collapse_from (inRun : bool) (s : jsstring) : jsstring :=
  match s with
  | [] => []
  | c :: s' =>
      if isSpace c
      then (if inRun then collapse_from true s' else space :: collapse_from true s')
      else c :: collapse_from false s'
  end.

Definition collapseSpaces (s : jsstring) : jsstring := collapse_from false s.

(** [a || b] on strings: the empty string and [undefined] are falsy. *)
Definition or_str (a : option jsstring) (b : jsstring) : jsstring :=
  match a with
  | Some (c :: s) => c :: s
  | _ => b
  end.

Definition or_opt (a b : option jsstring) : option jsstring :=
  match a with
  | Some (c :: s) => Some (c :: s)
  | _ => b
  end.

(** [s.split(sep)[1]] for a non-empty [sep]: the text between the first
    and the second occurrence of [sep]; [undefined] without occurrence. *)
Fixpoint before_sep (sep s : jsstring) : jsstring :=
  match s with
  | [] => []
  | c :: s' => if startsWith sep s then [] else c :: before_sep sep s'
  end.

Fixpoint after_sep (sep s : jsstring) : option jsstring :=
  match s with
  | [] => None
  | c :: s' => if startsWith sep s then Some (skipn (length sep) s)
               else after_sep sep s'
  end.

Definition split_second (sep s : jsstring) : option jsstring :=
  match after_sep sep s with
  | Some r => Some (before_sep sep r)
  | None => None
  end.

(** ** The word-boundary regular expression of the classifier *)

Definition isWordOpt (c : option N) : bool :=
  match c with
  | Some x => isWordChar x
  | None => false
  end.

(** [\b] between two neighbouring positions. *)
Definition wordBoundary (prev next : option N) : bool :=
  xorb (isWordOpt prev) (isWordOpt next).

(** Does [\bext\b] (flag [i]) match at the head of [s], the character
    before it being [prev]? *)
Definition matchesHere (ext : jsstring) (prev : option N) (s : jsstring) : bool :=
  wordBoundary prev (nth_error s 0)
  && startsWith_ci ext s
  && wordBoundary (nth_error s (length ext - 1)) (nth_error s (length ext)).

(** [s.replace(new RegExp(`\\b${ext}\\b`, 'gi'), '')] for a non-empty
    [ext]: a left-to-right scan; [skip] counts the characters of the
    current match still to be consumed. *)
Fixpoint removeFrom (ext : jsstring) (skip : nat) (prev : option N)
         (s : jsstring) : jsstring :=
  match s with
  | [] => []
  | c :: s' =>
      match skip with
      | S k => removeFrom ext k (Some c) s'
      | O =>
          if matchesHere ext prev s
          then removeFrom ext (length ext - 1) (Some c) s'
          else c :: removeFrom ext 0 (Some c) s'
      end
  end.

Definition removeWord (ext s : jsstring) : jsstring := removeFrom ext 0 None s.

(** ** parseFloat on the alphabet that reaches it *)

Fixpoint takeDigits (s : jsstring) : jsstring :=
  match s with
  | c :: s' => if isDigit c then c :: takeDigits s' else []
  | [] => []
  end.

Fixpoint dropDigits (s : jsstring) : jsstring :=
  match s with
  | c :: s' => if isDigit c then dropDigits s' else s
  | [] => []
  end.

Definition digitsValue (ds : jsstring) : N :=
  fold_left (fun acc d => (acc * 10 + (d - 48))%N) ds 0%N.

Fixpoint pow10 (k : nat) : positive :=
  match k with
  | O => 1%positive
  | S k' => (10 * pow10 k')%positive
  end.

(** The value of the decimal numeral [ip.fp]. *)
Definition decimalValue (ip fp : jsstring) : Q :=
  Qred (Z.of_N (digitsValue (ip ++ fp)) # pow10 (length fp)).

(** [parseFloat(s)] for [s] over digits, commas and dots: the longest
    prefix of the form digits, optional dot, digits; [None] is [NaN].
    (White space, signs, exponents and [Infinity] cannot reach it: see
    [normalized_alphabet] below.) *)
Definition parseFloat (s : jsstring) : option Q :=
  let ip := takeDigits s in
  let fp := match dropDigits s with
            | c :: r => if N.eqb c dot then takeDigits r else []
            | [] => []
            end in
  match ip, fp with
  | [], [] => None
  | _, _ => Some (decimalValue ip fp)
  end.

(** [x || 0] on the result of [parseFloat]. *)
Definition or_zero (x : option Q) : Q :=
  match x with
  | Some q => if truthy q then q else 0
  | None => 0
  end.

(** ** SteamMarketScraper: the helpers

    [extractNameAndExterior] and [parsePrice] have the same body in the two
    versions of the class found in the sources. *)

Definition exteriors : list jsstring :=
  [js "Factory New"; js "Minimal Wear"; js "Field-Tested"; js "Well-Worn";
   js "Battle-Scarred"].

Definition unknown : jsstring := js "Unknown".

Record NameAndExterior := mkNE {
  ne_name : jsstring;
  ne_exterior : jsstring
}.

(** The [for (const ext of exteriors)] loop with its [break]: the pair of
    [exterior] and [name] when the loop is left. *)
Fixpoint classify (exts : list jsstring) (fullName : jsstring)
  : jsstring * jsstring :=
  match exts with
  | [] => (unknown, fullName)
  | ext :: more =>
      if includes (toLowerCase fullName) (toLowerCase ext)
      then (ext, trim (removeWord ext fullName))
      else classify more fullName
  end.

Definition extractNameAndExterior (fullName : jsstring) : NameAndExterior :=
  let (exterior, name) := classify exteriors fullName in
  mkNE (trim (collapseSpaces name)) exterior.

(** [text.replace(/[^0-9,\.]/g, '')] *)
Definition keepPriceChar (c : N) : bool :=
  isDigit c || N.eqb c comma || N.eqb c dot.

(** [s.replace(/(\d)[\s](\d)/g, '$1$2')] *)
Fixpoint joinDigits (s : jsstring) : jsstring :=
  match s with
  | [] => []
  | a :: t =>
      match t with
      | b :: c :: r =>
          if isDigit a && isSpace b && isDigit c
          then a :: c :: joinDigits r
          else a :: joinDigits t
      | _ => a :: joinDigits t
      end
  end.

Definition normalize (text : jsstring) : jsstring :=
  joinDigits (filter keepPriceChar text).

(** [/,\d{2}$/.test(s)] *)
Definition endsCommaTwoDigits (s : jsstring) : bool :=
  match rev s with
  | d2 :: d1 :: c :: _ => N.eqb c comma && isDigit d1 && isDigit d2
  | _ => false
  end.

(** [/\./.test(s)] *)
Definition hasDot (s : jsstring) : bool := existsb (N.eqb dot) s.

(** [s.replace(/\./g, '')] and [s.replace(/,/g, '')] *)
Definition removeAll (x : N) (s : jsstring) : jsstring :=
  filter (fun c => negb (N.eqb c x)) s.

(** [s.replace(',', '.')]: the first comma only. *)
Fixpoint commaToDot (s : jsstring) : jsstring :=
  match s with
  | [] => []
  | c :: s' => if N.eqb c comma then dot :: s' else c :: commaToDot s'
  end.

Record Price := mkPrice {
  price : Q;
  currency : jsstring
}.

Definition parsePrice (text : jsstring) : Price :=
  let currency := match find isCurrencySymbol text with
                  | Some c => [c]
                  | None => js "$"
                  end in
  let normalized := normalize text in
  let price :=
    if endsCommaTwoDigits normalized && hasDot normalized
    then or_zero (parseFloat (commaToDot (removeAll dot normalized)))
    else if endsCommaTwoDigits normalized
    then or_zero (parseFloat (commaToDot normalized))
    else or_zero (parseFloat (removeAll comma normalized)) in
  mkPrice price currency.

(** ** SteamMarketScraper: the listing extractors *)

(** What cheerio finds in a listing page: the text of [title] and of
    [.breadcrumb], and for each [.market_listing_row] the text of its
    price element, the text and [href] of its owner link and its [id]. *)
Record ListingRow := mkRow {
  row_priceText : jsstring;
  row_sellerText : jsstring;
  row_sellerHref : option jsstring;
  row_id : option jsstring
}.

Record ListingPage := mkPage {
  page_title : jsstring;
  page_breadcrumb : jsstring;
  page_rows : list ListingRow
}.

(** An element of [response.data.results]. *)
Record SearchResult := mkResult {
  r_name : option jsstring;
  r_sell_price_text : option jsstring;
  r_sale_price_text : option jsstring;
  r_listingid : option jsstring;
  r_asset_id : option jsstring
}.

(** A [.market_listing_row_link] of [results_html]: the text of its name
    element and of its price elements. *)
Record HtmlRow := mkHtmlRow {
  h_nameText : jsstring;
  h_priceText : jsstring
}.

(** The body of the search response: an object with a [results] list, or
    anything else, read through [results_html]. *)
Inductive SearchResponse :=
| JsonResults (results : list SearchResult)
| HtmlResults (rows : list HtmlRow).

(** [items.filter((i) => i.exterior.toLowerCase() === wanted)] under
    [if (options.exteriorFilter && options.exteriorFilter.length > 0)]. *)
Definition filterExterior (f : option jsstring) (items : list SteamMarketItem)
  : list SteamMarketItem :=
  match f with
  | Some (c :: w) =>
      filter (fun i => str_eqb (toLowerCase (item_exterior i))
                               (toLowerCase (c :: w))) items
  | _ => items
  end.

(** [a] goes strictly before [b] under the comparator of the price type:
    [a.price - b.price < 0] or [b.price - a.price < 0]. *)
Definition before (pt : PriceType) (a b : SteamMarketItem) : bool :=
  match pt with
  | lowest => negb (Qle_bool (item_price b) (item_price a))
  | highest => negb (Qle_bool (item_price a) (item_price b))
  end.

(** [items.sort(cmp)]: a stable sort. *)
Fixpoint insertItem (pt : PriceType) (x : SteamMarketItem)
         (l : list SteamMarketItem) : list SteamMarketItem :=
  match l with
  | [] => [x]
  | y :: l' => if before pt y x then y :: insertItem pt x l' else x :: l
  end.

Definition sortItems (pt : PriceType) (l : list SteamMarketItem)
  : list SteamMarketItem :=
  fold_right (insertItem pt) [] l.

(** [items.slice(0, count)] *)
Definition slice0 {A} (count : Z) (l : list A) : list A :=
  if (count <? 0)%Z then firstn (length l - Z.to_nat (- count)) l
  else firstn (Z.to_nat count) l.

Definition postProcess (options : ScrapingOptions) (items : list SteamMarketItem)
  : list SteamMarketItem :=
  slice0 (opt_count options)
         (sortItems (opt_priceType options)
                    (filterExterior (opt_exteriorFilter options) items)).

(** [Math.max(1, options.count || 10)] *)
Definition searchCount (options : ScrapingOptions) : Z :=
  Z.max 1 (if (opt_count options =? 0)%Z then 10 else opt_count options).

(** [items.length >= count] *)
Definition full {A} (items : list A) (count : Z) : bool :=
  (count <=? Z.of_nat (length items))%Z.

Module SteamMarketScraper.

Section Extractors.

(** [`${Date.now()}_${Math.random()}`] for the [k]-th row or result. *)
Variable fresh : nat -> jsstring.

Definition listingItem (itemInfo : NameAndExterior) (k : nat) (row : ListingRow)
           (p : Price) : SteamMarketItem :=
  mkItem (ne_name itemInfo) (ne_exterior itemInfo) (price p) (currency p)
         (Some (or_str (row_id row) (js "listing_" ++ fresh k)))
         (Some (or_str (match row_sellerHref row with
                        | Some h => split_second (js "/profiles/") h
                        | None => None
                        end) []))
         (Some (or_str (Some (trim (row_sellerText row))) (js "Unknown Seller"))).

(** The callback of [$('.market_listing_row').each]; [k] is the index of
    the row, [items] the list built so far. *)
Fixpoint listingRows (count : Z) (itemInfo : NameAndExterior) (k : nat)
         (rows : list ListingRow) (items : list SteamMarketItem)
  : list SteamMarketItem :=
  match rows with
  | [] => items
  | row :: rest =>
      if full items count then items
      else
        let p := parsePrice (trim (row_priceText row)) in
        if negb (Qle_bool (price p) 0)
        then listingRows count itemInfo (S k) rest
                         (items ++ [listingItem itemInfo k row p])
        else listingRows count itemInfo (S k) rest items
  end.

Definition listingCandidates (page : ListingPage) (options : ScrapingOptions)
  : list SteamMarketItem :=
  let itemInfo :=
    extractNameAndExterior
      (or_str (Some (page_title page)) (page_breadcrumb page)) in
  listingRows (opt_count options) itemInfo 0 (page_rows page) [].

(** [scrapeItemListings], given the page that was fetched. *)
Definition scrapeItemListings (page : ListingPage) (options : ScrapingOptions)
  : list SteamMarketItem :=
  postProcess options (listingCandidates page options).

Definition searchItem (k : nat) (r : SearchResult) : SteamMarketItem :=
  let ne := extractNameAndExterior (or_str (r_name r) []) in
  let p := parsePrice (or_str (or_opt (r_sell_price_text r)
                                      (r_sale_price_text r)) []) in
  mkItem (ne_name ne) (ne_exterior ne) (price p) (currency p)
         (Some (or_str (r_listingid r) (js "search_" ++ fresh k)))
         (Some (or_str (r_asset_id r) []))
         (Some (js "Search Result")).

Fixpoint searchResults (count : Z) (k : nat) (results : list SearchResult)
         (items : list SteamMarketItem) : list SteamMarketItem :=
  match results with
  | [] => items
  | r :: rest =>
      if full items count then items
      else searchResults count (S k) rest (items ++ [searchItem k r])
  end.

Definition htmlItem (k : nat) (row : HtmlRow) : SteamMarketItem :=
  let ne := extractNameAndExterior (trim (h_nameText row)) in
  let p := parsePrice (trim (h_priceText row)) in
  mkItem (ne_name ne) (ne_exterior ne) (price p) (currency p)
         (Some (js "search_" ++ fresh k)) None (Some (js "Search Result")).

Fixpoint htmlRows (count : Z) (k : nat) (rows : list HtmlRow)
         (items : list SteamMarketItem) : list SteamMarketItem :=
  match rows with
  | [] => items
  | row :: rest =>
      if full items count then items
      else htmlRows count (S k) rest (items ++ [htmlItem k row])
  end.

(** The candidate list of the search strategy before the filter, the
    sort and the truncation. *)
Definition searchCandidates (response : SearchResponse)
           (options : ScrapingOptions) : list SteamMarketItem :=
  match response with
  | JsonResults results => searchResults (searchCount options) 0 results []
  | HtmlResults rows => htmlRows (searchCount options) 0 rows []
  end.

(** [scrapeSearchResults], given the response that was fetched. *)
Definition scrapeSearchResults (response : SearchResponse)
           (options : ScrapingOptions) : list SteamMarketItem :=
  postProcess options (searchCandidates response options).

End Extractors.

End SteamMarketScraper.

(** The earlier version of the class (src/lib/steam-scraper.ts): only the
    search strategy, inside [scrapeMarketPage]. *)
Module LegacyScraper.

Definition bareItem (fullName priceStr : jsstring) : SteamMarketItem :=
  let ne := extractNameAndExterior fullName in
  let p := parsePrice priceStr in
  mkItem (ne_name ne) (ne_exterior ne) (price p) (currency p) None None None.

Definition searchItem (r : SearchResult) : SteamMarketItem :=
  bareItem (or_str (r_name r) [])
           (or_str (or_opt (r_sell_price_text r) (r_sale_price_text r)) []).

(** The loop body pushes the item twice. *)
Fixpoint searchResults (count : Z) (results : list SearchResult)
         (items : list SteamMarketItem) : list SteamMarketItem :=
  match results with
  | [] => items
  | r :: rest =>
      if full items count then items
      else searchResults count rest (items ++ [searchItem r] ++ [searchItem r])
  end.

Definition htmlItem (row : HtmlRow) : SteamMarketItem :=
  bareItem (trim (h_nameText row)) (trim (h_priceText row)).

Fixpoint htmlRows (count : Z) (rows : list HtmlRow)
         (items : list SteamMarketItem) : list SteamMarketItem :=
  match rows with
  | [] => items
  | row :: rest =>
      if full items count then items
      else htmlRows count rest (items ++ [htmlItem row])
  end.

Definition searchCandidates (response : SearchResponse)
           (options : ScrapingOptions) : list SteamMarketItem :=
  match response with
  | JsonResults results => searchResults (searchCount options) results []
  | HtmlResults rows => htmlRows (searchCount options) rows []
  end.

(** [scrapeMarketPage], given the response that was fetched. *)
Definition scrapeMarketPage (response : SearchResponse)
           (options : ScrapingOptions) : list SteamMarketItem :=
  postProcess options (searchCandidates response options).

End LegacyScraper.

(** ** Sequences of operations used by the properties *)

(** One call [addSkinData(name, exterior, skinData, url)], with the clock
    reading of its [saveData]. *)
Record Append := mkAppend {
  ap_data : SkinData;
  ap_url : jsstring;
  ap_now : jsstring
}.

(** Successive appends to one item. *)
Fixpoint appendAll (name exterior : jsstring) (obs : list Append)
         (d : TrackermanData) : TrackermanData :=
  match obs with
  | [] => d
  | o :: rest =>
      appendAll name exterior rest
        (DataManager.addSkinData (ap_now o) name exterior (ap_data o)
                                 (ap_url o) d)
  end.

(** The stored history of an item, empty when the item is not tracked. *)
Definition history (name exterior : jsstring) (d : TrackermanData)
  : list SkinData :=
  match DataManager.getSkin name exterior d with
  | Some s => skin_skindata s
  | None => []
  end.

(** A fresh item: not tracked yet, or tracked with an empty history. *)
Definition fresh_item (name exterior : jsstring) (d : TrackermanData) : Prop :=
  history name exterior d = [].

(** The identity of a tracked item. *)
Definition keyOf (s : Skin) : jsstring * jsstring :=
  (skin_name s, skin_exterior s).

(** Whether the fetch of the [k]-th item [s] of a cycle returns a
    candidate. *)
Definition fetched (env : Env) (k : nat) (s : Skin) : bool :=
  match scrape env k (skin_url s) AutoScheduler.scrapingOptions with
  | Ok (_ :: _) => true
  | _ => false
  end.

(** The number of clock readings a cycle takes for the items [l], the
    first of which is its [k]-th item: two for each item whose fetch
    returns a candidate (the time of the observation and the time of the
    save), none for the others. *)
Fixpoint readings (env : Env) (k : nat) (l : list Skin) : nat :=
  match l with
  | [] => 0
  | s :: r => (if fetched env k s then 2 else 0) + readings env (S k) r
  end.

(** What a cycle does to its [k]-th item [s], [s'] being the item
    afterwards and [tick] the number of clock readings taken before:
    when the fetch returns a candidate, the stored observations are
    superseded and one is appended that holds the price, the currency
    and the identifiers of the first candidate and the time read;
    nothing happens when the fetch throws or returns no candidate. *)
Definition appended (env : Env) (k tick : nat) (s s' : Skin) : Prop :=
  match scrape env k (skin_url s) AutoScheduler.scrapingOptions with
  | Ok (item :: _) =>
      s' = mkSkin (skin_name s) (skin_exterior s) (skin_url s)
             (map (set_expired true) (skin_skindata s)
                ++ [mkSkinData (clock env tick) (item_price item)
                               (item_currency item) (item_listingId item)
                               (item_sellerId item) None (Some false)])
             (skin_thresholds s)
  | Ok [] => s' = s
  | Throw _ => s' = s
  end.

Fixpoint visited (env : Env) (k tick : nat) (l l' : list Skin) : Prop :=
  match l, l' with
  | [], [] => True
  | s :: r, s' :: r' =>
      appended env k tick s s'
      /\ visited env (S k) (tick + if fetched env k s then 2 else 0) r r'
  | _, _ => False
  end.

(** A computation that touches neither the store nor the settings and
    sends no request. *)
Definition frame {A} (m : M A) : Prop :=
  forall w, w_data (fst (m w)) = w_data w
            /\ w_settings (fst (m w)) = w_settings w
            /\ w_requests (fst (m w)) = w_requests w.

(** The store after the iteration for the [i]-th item. *)
Definition step_data (env : Env) (i : nat) (d d' : TrackermanData) : Prop :=
  match nth_error (skins d) i with
  | Some s =>
      match scrape env i (skin_url s) AutoScheduler.scrapingOptions with
      | Ok (item :: _) =>
          exists t0 t1,
            d' = DataManager.addSkinData t1 (skin_name s) (skin_exterior s)
                   (AutoScheduler.skinData_of t0 item) (skin_url s) d
      | _ => d' = d
      end
  | None => d' = d
  end.

(** The kind of a notifier call: the alert intents of the detector. *)
Inductive Intent := PriceChange | HighThreshold | LowThreshold.

Definition intent_of (n : Notification) : Intent :=
  match n with
  | PriceUpdate _ _ => PriceChange
  | ThresholdHit _ _ th_kind_high => HighThreshold
  | ThresholdHit _ _ th_kind_low => LowThreshold
  end.

(** The world after the notifier calls [l] have been made. *)
Definition add_sent (l : list Notification) (w : World) : World :=
  mkWorld (w_data w) (w_settings w) (w_sent w ++ l) (w_tick w) (w_requests w).

(** The notifier calls of the threshold block when no call throws. *)
Definition threshold_calls (skin : Skin) (newData : SkinData) (p : Q)
  : list Notification :=
  match skin_thresholds skin with
  | Some th =>
      (if high_hit th p then [ThresholdHit skin newData th_kind_high] else [])
      ++ (if low_hit th p then [ThresholdHit skin newData th_kind_low] else [])
  | None => []
  end.

(** The calls made by [checkAndSendNotifications] when none throws. *)
Definition service_calls (skin : Skin) (newData : SkinData)
  : list Notification :=
  (if 1 <? length (skin_skindata skin)
   then match before_last_opt (skin_skindata skin) with
        | Some previousData =>
            if num_neqb (sd_price previousData) (sd_price newData)
            then [PriceUpdate skin newData] else []
        | None => []
        end
   else [])
  ++ threshold_calls skin newData (sd_price newData).

(** The calls made for one item by the scheduler when none throws:
    [skin] is the item before the append, [skin'] the element read after
    it. *)
Definition scheduler_calls (skin skin' : Skin) (newData : SkinData)
           (item : SteamMarketItem) : list Notification :=
  (if AutoScheduler.priceChanged (last_opt (skin_skindata skin)) item
   then [PriceUpdate skin' newData] else [])
  ++ threshold_calls skin' newData (item_price item).

(** ** Notions used to state the properties of the normalisers *)

(** The text [parsePrice] hands to [parseFloat]. *)
Definition numeral (normalized : jsstring) : jsstring :=
  if endsCommaTwoDigits normalized && hasDot normalized
  then commaToDot (removeAll dot normalized)
  else if endsCommaTwoDigits normalized
  then commaToDot normalized
  else removeAll comma normalized.

(** [s] is a dot-decimal rendering of the amount [a]: digits, then
    possibly a dot and more digits, denoting [a].  The canonical
    rendering of an amount is one of them. *)
Definition dot_decimal_rendering (a : Q) (s : jsstring) : Prop :=
  exists ip fp,
    ip <> []
    /\ forallb isDigit ip = true
    /\ forallb isDigit fp = true
    /\ s = ip ++ match fp with [] => [] | _ :: _ => dot :: fp end
    /\ decimalValue ip fp == a.

(** The characters of a dot-decimal numeral. *)
Definition numeralChar (c : N) : bool := isDigit c || N.eqb c dot.

(** [label] contains the keyword [kw], the way the classifier tests it. *)
Definition contains (label kw : jsstring) : bool :=
  includes (toLowerCase label) (toLowerCase kw).

(** The character before the position that follows [s], [prev] being the
    character before [s]. *)
Definition lastChar (prev : option N) (s : jsstring) : option N :=
  fold_left (fun _ c => Some c) s prev.

(** [\bext\b] matches at none of the first [n] positions of [s]. *)
Fixpoint noMatchb (ext : jsstring) (prev : option N) (s : jsstring) (n : nat)
  : bool :=
  match n, s with
  | S n', c :: s' =>
      negb (matchesHere ext prev s) && noMatchb ext (Some c) s' n'
  | _, _ => true
  end.

(** A word character: an ASCII letter, a digit or the underscore. *)
Definition wordCode (c : N) : bool :=
  in_range 48 57 c || in_range 65 90 c || in_range 97 122 c || N.eqb c 95.

Definition wordCodeOpt (c : option N) : bool :=
  match c with
  | Some x => wordCode x
  | None => false
  end.

Definition isLetter (c : N) : bool := in_range 65 90 c || in_range 97 122 c.

(** [y] is the character [x] up to the case of an ASCII letter. *)
Definition sameLetter (x y : N) : bool :=
  N.eqb y x
  || (in_range 65 90 x && N.eqb y (x + 32))
  || (in_range 97 122 x && N.eqb y (x - 32)).

(** [s] begins with the keyword [k] up to letter case. *)
Fixpoint spelledAt (k s : jsstring) : bool :=
  match k, s with
  | [], _ => true
  | x :: k', y :: s' => sameLetter x y && spelledAt k' s'
  | _ :: _, [] => false
  end.

(** A free occurrence of the keyword [k] begins [s]: [s] begins with [k]
    up to letter case and the occurrence is not glued to a word
    character, neither by the character before it, [prev], nor by the
    character after it. *)
Definition freeOccurrence (k : jsstring) (prev : option N) (s : jsstring)
  : bool :=
  spelledAt k s
  && negb (wordCodeOpt prev)
  && negb (wordCodeOpt (nth_error s (length k))).

(** No free occurrence of [k] begins at one of the first [n] positions
    of [s]. *)
Fixpoint noFreeOccurrence (k : jsstring) (prev : option N) (s : jsstring)
         (n : nat) : bool :=
  match n, s with
  | S n', c :: s' =>
      negb (freeOccurrence k prev s) && noFreeOccurrence k (Some c) s' n'
  | _, _ => true
  end.

(** [r] is [s] without the free occurrences of the keyword [k], taken
    from left to right; [prev] is the character before [s].  A character
    at which no free occurrence begins is kept; a free occurrence is
    left out as a whole and the reading goes on behind it. *)
Inductive Stripped (k : jsstring) : option N -> jsstring -> jsstring -> Prop :=
| Stripped_end (prev : option N) : Stripped k prev [] []
| Stripped_keep (prev : option N) (c : N) (s r : jsstring) :
    freeOccurrence k prev (c :: s) = false ->
    Stripped k (Some c) s r ->
    Stripped k prev (c :: s) (c :: r)
| Stripped_drop (prev : option N) (occ rest r : jsstring) :
    length occ = length k ->
    freeOccurrence k prev (occ ++ rest) = true ->
    Stripped k (lastChar prev occ) rest r ->
    Stripped k prev (occ ++ rest) r.

(** The keyword begins and ends with a letter. *)
Definition letterEnds (k : jsstring) : bool :=
  match nth_error k 0, nth_error k (length k - 1) with
  | Some a, Some b => isLetter a && isLetter b
  | _, _ => false
  end.

Definition nonSpace (c : N) : bool := negb (isSpace c).

(** Every white-space character of [s] is a plain space and none follows
    another one; [prevSpace] tells whether the character before [s] is a
    white-space character. *)
Fixpoint singleSpaced (prevSpace : bool) (s : jsstring) : bool :=
  match s with
  | [] => true
  | c :: s' =>
      if isSpace c
      then N.eqb c space && negb prevSpace && singleSpaced true s'
      else singleSpaced false s'
  end.

(** [s] does not end with a white-space character. *)
Definition endsClean (s : jsstring) : bool :=
  match rev s with
  | c :: _ => negb (isSpace c)
  | [] => true
  end.

(** White space collapsed to single spaces and trimmed at both ends. *)
Definition tidy (s : jsstring) : bool := singleSpaced true s && endsClean s.

(** [l.map((x, i) => f(k + i, x))] *)
Fixpoint mapi_from {A B} (f : nat -> A -> B) (k : nat) (l : list A) : list B :=
  match l with
  | [] => []
  | x :: r => f k x :: mapi_from f (S k) r
  end.

(** The characters of the five keywords: ASCII letters, the space and
    the hyphen. *)
Definition keywordChar (c : N) : bool :=
  in_range 65 90 c || in_range 97 122 c || N.eqb c 32 || N.eqb c 45.

(** ** Sample data *)

Definition ak_name : jsstring := js "AK-47 | Redline".
Definition ft : jsstring := js "Field-Tested".
Definition ak_url : jsstring :=
  js "https://steamcommunity.com/market/search?appid=730&q=ak-47+redline+field-tested".

Definition sample_thresholds : Thresholds := mkThresholds (Some 100) (Some 20).

(** A tracked item that has no observation yet. *)
Definition ak_fresh : Skin := mkSkin ak_name ft ak_url [] (Some sample_thresholds).

Definition awp_fresh : Skin :=
  mkSkin (js "AWP | Asiimov") ft
         (js "https://steamcommunity.com/market/listings/730/AWP") [] None.

Definition m4_fresh : Skin :=
  mkSkin (js "M4A4 | Howl") (js "Factory New")
         (js "https://steamcommunity.com/market/listings/730/M4A4") [] None.

Definition observation (t : string) (p : Q) : SkinData :=
  mkSkinData (js t) p (js "$") None None None None.

Definition sample_item (p : Q) : SteamMarketItem :=
  mkItem ak_name ft p (js "$") (Some (js "search_1")) (Some [])
         (Some (js "Search Result")).

Definition store_one : TrackermanData := mkData [ak_fresh] (js "t0").
Definition store_three : TrackermanData :=
  mkData [ak_fresh; awp_fresh; m4_fresh] (js "t0").

Definition sample_settings : TrackermanSettings :=
  mkSettings (mkAuto true 30 None)
             (mkDiscord false None true true true)
             (mkScraping 10000 1000 3)
             (Some (mkLogging false (Some (js "trackerman.log")))).

Definition world_of (d : TrackermanData) : World :=
  mkWorld d sample_settings [] 0 [].

(** Every fetch returns one candidate at price [p]; every notifier call
    returns. *)
Definition env_price (p : Q) : Env :=
  mkEnv (fun _ _ _ => Ok [sample_item p]) (fun _ _ => true) (fun _ => js "t").

(** The fetch of the second item throws, the others return a candidate. *)
Definition env_second_fails : Env :=
  mkEnv (fun i _ _ => if (i =? 1)%nat
                      then Throw (MkError (js "Scraping failed: timeout"))
                      else Ok [sample_item 5])
        (fun _ _ => true) (fun _ => js "t").

(** An item with one stored observation at price 10 and both thresholds,
    as stored after the append of a second observation at price [p]. *)
Definition ak_after (p : Q) (th : Thresholds) : Skin :=
  mkSkin ak_name ft ak_url
         [set_expired true (observation "t1" 10);
          set_expired false (observation "t2" p)]
         (Some th).

Definition no_fresh : nat -> jsstring := fun _ => [].

Definition result_of (name priceText : string) : SearchResult :=
  mkResult (Some (js name)) (Some (js priceText)) None None None.

Definition two_results : list SearchResult :=
  [result_of "AK-47 | Redline (Field-Tested)" "$12.50";
   result_of "AK-47 | Redline (Minimal Wear)" "$30.00"].

Definition page_of (priceText : string) : ListingPage :=
  mkPage (js "AK-47 | Redline (Field-Tested)") []
         [mkRow (js priceText) (js "seller") None (Some (js "listing_1"))].

(** ** Notions used to state further properties *)

(** [s'] is the item [s] with a longer history: the same pair and
    thresholds, and the observations of [s] still in place, up to their
    superseded flag, before the new ones. *)
Definition extends (s s' : Skin) : Prop :=
  keyOf s' = keyOf s
  /\ skin_thresholds s' = skin_thresholds s
  /\ exists extra,
      map (set_expired true) (skin_skindata s')
      = map (set_expired true) (skin_skindata s) ++ extra.

(** ** AutoScheduler: the timer *)

From Stdlib Require Import Qround Lqa.

(** A template literal: its text and the numbers printed in it. *)
Inductive Piece :=
| Lit (s : jsstring)
| Num (q : Q).

(** [a % b] on numbers: the remainder has the sign of [a]. *)
Definition Qtruncate (x : Q) : Z :=
  if Qle_bool 0 x then Qfloor x else Qceiling x.

Definition js_rem (a b : Q) : Q := a - b * inject_Z (Qtruncate (a / b)).

(** What node-cron keeps of a task: its expression and whether [start()]
    was called on it last. *)
Record CronJob := mkJob {
  job_expression : list Piece;
  job_started : bool
}.

Record Scheduler := mkScheduler {
  sch_settings : AutoSchedulerSettings;
  sch_cronJob : option CronJob
}.

Record SchedulerStatus := mkStatus {
  st_enabled : bool;
  st_intervalMinutes : Q;
  st_lastRun : option jsstring;
  st_nextRun : option jsstring;
  st_running : bool
}.

Module Timer.

Definition interval_error : JsError :=
  MkError (js "Interval must be at least 1 minute").

(** [createCronExpression(minutes)] *)
Definition createCronExpression (minutes : Q) : result (list Piece) :=
  if negb (Qle_bool 1 minutes) then Throw interval_error
  else if Qle_bool 60 minutes then
    let hours := inject_Z (Qfloor (minutes / 60)) in
    let remainingMinutes := js_rem minutes 60 in
    if Qeq_bool remainingMinutes 0
    then Ok [Lit (js "0 */"); Num hours; Lit (js " * * * *")]
    else Ok [Lit (js "0 */"); Num remainingMinutes; Lit (js " */");
             Num hours; Lit (js " * * *")]
  else Ok [Lit (js "0 */"); Num minutes; Lit (js " * * * *")].

(** [stop()] *)
Definition stop (s : Scheduler) : Scheduler :=
  match sch_cronJob s with
  | Some _ => mkScheduler (sch_settings s) None
  | None => s
  end.

Section Library.

(** What node-cron does with an expression: [schedule_error e] is the
    error [cron.schedule] throws for [e], nothing when it accepts it. *)
Variable schedule_error : list Piece -> option JsError.

(** Whether the tasks of the library show a truthy [running] while they
    are started. *)
Variable shows_running : bool.

(** [start()]: the scheduler after the call and its outcome.  The task is
    created with [scheduled: false] and started at once; when
    [cron.schedule] throws, nothing is assigned to [this.cronJob]. *)
Definition start (s : Scheduler) : Scheduler * result unit :=
  if negb (as_enabled (sch_settings s)) then (s, Ok tt)
  else
    let s1 := match sch_cronJob s with
              | Some _ => stop s
              | None => s
              end in
    match createCronExpression (as_intervalMinutes (sch_settings s1)) with
    | Throw e => (s1, Throw e)
    | Ok expression =>
        match schedule_error expression with
        | Some e => (s1, Throw e)
        | None =>
            (mkScheduler (sch_settings s1) (Some (mkJob expression true)),
             Ok tt)
        end
    end.

(** [this.cronJob?.running] *)
Definition running (s : Scheduler) : bool :=
  match sch_cronJob s with
  | Some j => job_started j && shows_running
  | None => false
  end.

(** [updateSettings(newSettings)] *)
Definition updateSettings (newSettings : AutoSchedulerSettings) (s : Scheduler)
  : Scheduler * result unit :=
  let wasRunning := running s in
  let s1 := if wasRunning then stop s else s in
  let s2 := mkScheduler newSettings (sch_cronJob s1) in
  if as_enabled newSettings && wasRunning then start s2 else (s2, Ok tt).

(** [getStatus()] *)
Definition getStatus (s : Scheduler) : SchedulerStatus :=
  mkStatus (as_enabled (sch_settings s))
           (as_intervalMinutes (sch_settings s))
           (as_lastRun (sch_settings s))
           (if running s then Some (js "Calculating...") else None)
           (running s).

(** The scheduler part of [TrackermanService.updateSettings]: the
    scheduler adopts the new settings, then is started or stopped after
    their [enabled]. *)
Definition serviceUpdate (newSettings : AutoSchedulerSettings) (s : Scheduler)
  : Scheduler * result unit :=
  match updateSettings newSettings s with
  | (s1, Throw e) => (s1, Throw e)
  | (s1, Ok _) =>
      if as_enabled newSettings then start s1 else (stop s1, Ok tt)
  end.

End Library.

End Timer.

(** ** Notions used to state what a cron expression says *)

(** The characters and numbers of an expression, and its fields: the
    parts between the spaces. *)
Inductive CronToken :=
| Ch (c : N)
| Val (q : Q).

Definition tokens (e : list Piece) : list CronToken :=
  flat_map (fun p => match p with
                     | Lit s => map Ch s
                     | Num q => [Val q]
                     end) e.

Fixpoint splitFields (current : list CronToken) (ts : list CronToken)
  : list (list CronToken) :=
  match ts with
  | [] => [current]
  | Ch c :: rest =>
      if N.eqb c 32 then current :: splitFields [] rest
      else splitFields (current ++ [Ch c]) rest
  | Val q :: rest => splitFields (current ++ [Val q]) rest
  end.

Definition cronFields (e : list Piece) : list (list CronToken) :=
  splitFields [] (tokens e).

(** The fields [0], [*] and [*/q]. *)
Definition zeroField : list CronToken := [Ch 48].
Definition everyField : list CronToken := [Ch 42].
Definition stepField (q : Q) : list CronToken := [Ch 42; Ch 47; Val q].

(** The six fields of an expression that steps the minutes by [m], and of
    one that steps the minutes by [m] and the hours by [h]: seconds,
    minutes, hours, day of month, month, day of week. *)
Definition everyMinutes (m : Q) : list (list CronToken) :=
  [zeroField; stepField m; everyField; everyField; everyField; everyField].

Definition everyMinutesOfHours (m h : Q) : list (list CronToken) :=
  [zeroField; stepField m; stepField h; everyField; everyField; everyField].

(** ** Notions used to state the order of the returned items *)

(** [a] may stand before [b] in a list sorted for the price type. *)
Definition inOrder (pt : PriceType) (a b : SteamMarketItem) : Prop :=
  match pt with
  | lowest => item_price a <= item_price b
  | highest => item_price b <= item_price a
  end.

Fixpoint priceOrdered (pt : PriceType) (l : list SteamMarketItem) : Prop :=
  match l with
  | [] => True
  | x :: l' => Forall (inOrder pt x) l' /\ priceOrdered pt l'
  end.

Definition hasPrice (p : Q) (i : SteamMarketItem) : bool :=
  Qeq_bool (item_price i) p.

(** The exterior filter is in force and asks for [wanted]. *)
Definition wantedExterior (options : ScrapingOptions) (wanted : jsstring) : Prop :=
  opt_exteriorFilter options = Some wanted /\ wanted <> [].

(** ** Notifier calls when the notifier may throw *)

(** The calls made out of the planned calls [l]: they are made in order
    up to the first one that throws, that one included. *)
Fixpoint attempted (deliver : Notification -> bool) (l : list Notification)
  : list Notification :=
  match l with
  | [] => []
  | n :: rest => if deliver n then n :: attempted deliver rest else [n]
  end.

(** [m] plans the calls [l]: it makes the attempted ones and throws when
    one of them throws. *)
Definition plans (deliver : Notification -> bool) (m : M unit)
           (l : list Notification) : Prop :=
  forall w,
    m w = (add_sent (attempted deliver l) w,
           if forallb deliver l then Ok tt else Throw notification_failed).

(** ** DiscordNotifier: the gates before the webhook *)

Module DiscordNotifier.

(** [this.settings.webhookUrl] is truthy. *)
Definition hasWebhook (s : DiscordNotificationSettings) : bool :=
  match dc_webhookUrl s with
  | Some (_ :: _) => true
  | _ => false
  end.

(** [thresholdType === 'high' ? skin.thresholds?.high : skin.thresholds?.low] *)
Definition thresholdOf (skin : Skin) (kind : ThresholdType) : option Q :=
  match skin_thresholds skin with
  | Some th => match kind with
               | th_kind_high => th_high th
               | th_kind_low => th_low th
               end
  | None => None
  end.

Definition shouldNotify (s : DiscordNotificationSettings) (kind : ThresholdType)
  : bool :=
  match kind with
  | th_kind_high => dc_thresholdHigh s
  | th_kind_low => dc_thresholdLow s
  end.

(** Whether [sendPriceUpdateNotification] or [sendThresholdNotification]
    gets as far as [sendWebhook]. *)
Definition posts (s : DiscordNotificationSettings) (n : Notification) : bool :=
  match n with
  | PriceUpdate _ _ => dc_enabled s && dc_priceUpdate s && hasWebhook s
  | ThresholdHit skin _ kind =>
      dc_enabled s && hasWebhook s && shouldNotify s kind
      && match thresholdOf skin kind with
         | Some t => truthy t
         | None => false
         end
  end.

(** A notifier call returns ([true]) or throws: it throws only when the
    webhook is posted and the post fails; [post n] tells whether the post
    made for [n] succeeds. *)
Definition call (s : DiscordNotificationSettings) (post : Notification -> bool)
           (n : Notification) : bool :=
  if posts s n then post n else true.

(** [sendGeneralNotification]: whether the webhook is posted. *)
Definition generalPosts (s : DiscordNotificationSettings) : bool :=
  dc_enabled s && hasWebhook s.

(** [testWebhook()], [post_ok] telling whether a post would succeed. *)
Definition testWebhook (s : DiscordNotificationSettings) (post_ok : bool)
  : bool :=
  if negb (hasWebhook s) then false
  else if generalPosts s then post_ok else true.

End DiscordNotifier.

(** ** TrackermanService: fetching one item on demand *)

Definition throw {A} (e : JsError) : M A := fun w => (w, Throw e).

Module Tracking.

(** The body of [for (const item of items)] in [fetchSkinData]; [k] is
    the position of the item in the list. *)
Definition storeItem (env : Env) (name exterior url : jsstring) (k : nat)
           (item : SteamMarketItem) : M unit :=
  t <- newDate env ;;
  let skinData := AutoScheduler.skinData_of t item in
  addSkinDataM env name exterior skinData url ;;;
  d <- get_data ;;
  match DataManager.getSkin name exterior d with
  | Some updatedSkin =>
      TrackermanService.checkAndSendNotifications
        (notify env k) updatedSkin (set_expired false skinData)
  | None => ret tt
  end.

Fixpoint storeItems (env : Env) (name exterior url : jsstring) (k : nat)
         (items : list SteamMarketItem) : M unit :=
  match items with
  | [] => ret tt
  | item :: rest =>
      storeItem env name exterior url k item ;;;
      storeItems env name exterior url (S k) rest
  end.

(** [fetchSkinData(name, exterior, options)] of an initialised service. *)
Definition fetchSkinData (env : Env) (name exterior : jsstring)
           (options : ScrapingOptions) : M (list SteamMarketItem) :=
  d <- get_data ;;
  match DataManager.getSkin name exterior d with
  | None => throw (MkError (DataManager.not_found_message name exterior))
  | Some skin =>
      items <- request env 0 (skin_url skin) options ;;
      storeItems env name exterior (skin_url skin) 0 items ;;;
      ret items
  end.

End Tracking.

(** The appends [fetchSkinData] makes for [items], the clock standing at
    [tick]: each item takes one reading for its observation and one for
    the save. *)
Fixpoint observations (env : Env) (url : jsstring) (tick : nat)
         (items : list SteamMarketItem) : list Append :=
  match items with
  | [] => []
  | item :: rest =>
      mkAppend (AutoScheduler.skinData_of (clock env tick) item) url
               (clock env (S tick))
      :: observations env url (S (S tick)) rest
  end.

(** ** Addresses: validation, parsing, registration *)

(** What [new URL(url)] exposes of an address. *)
Record Url := mkUrl {
  hostname : jsstring;
  pathname : jsstring;
  searchParams : list (jsstring * jsstring)
}.

(** [searchParams.get(key)] and [searchParams.has(key)] *)
Definition getParam (key : jsstring) (u : Url) : option jsstring :=
  match find (fun kv => str_eqb (fst kv) key) (searchParams u) with
  | Some kv => Some (snd kv)
  | None => None
  end.

Definition hasParam (key : jsstring) (u : Url) : bool :=
  existsb (fun kv => str_eqb (fst kv) key) (searchParams u).

Definition slash : N := 47.

(** [parts[parts.length - 1]] for [parts = s.split('/')] *)
Fixpoint lastPart (current s : jsstring) : jsstring :=
  match s with
  | [] => current
  | c :: s' => if N.eqb c slash then lastPart [] s' else lastPart (current ++ [c]) s'
  end.

Module Registration.

Section Platform.

(** [new URL(url)]: the parsed address, or nothing when the constructor
    throws.  [decodeURIComponent]: the decoded text, or the error it
    throws on a malformed escape. *)
Variable parseUrl : jsstring -> option Url.
Variable decodeURIComponent : jsstring -> result jsstring.

Definition invalid_url : JsError := MkError (js "Invalid URL").
Definition missing_query : JsError :=
  MkError (js "Invalid Steam market URL: missing query parameter").
Definition invalid_steam_url : JsError := MkError (js "Invalid Steam market URL").

Definition isListing (u : Url) : bool :=
  includes (pathname u) (js "/market/listings/").

(** [isValidSteamUrl(url)] of the current scraper *)
Definition isValidSteamUrl (url : jsstring) : bool :=
  match parseUrl url with
  | None => false
  | Some u =>
      str_eqb (hostname u) (js "steamcommunity.com")
      && (str_eqb (pathname u) (js "/market/search") || isListing u)
      && (hasParam (js "appid") u && hasParam (js "q") u || isListing u)
  end.

(** [parseSteamUrl(url)] of the current scraper *)
Definition parseSteamUrl (url : jsstring) : result NameAndExterior :=
  match parseUrl url with
  | None => Throw invalid_url
  | Some u =>
      if isListing u then
        match decodeURIComponent (lastPart [] (pathname u)) with
        | Ok itemName => Ok (extractNameAndExterior itemName)
        | Throw e => Throw e
        end
      else
        match getParam (js "q") u with
        | Some (c :: query) => Ok (extractNameAndExterior (c :: query))
        | _ => Throw missing_query
        end
  end.

Definition tracked_message (name exterior : jsstring) : jsstring :=
  js "Skin " ++ name ++ js " (" ++ exterior ++ js ") is already being tracked".

(** [exteriorOverride && exteriorOverride.trim()] *)
Definition overrides (exteriorOverride : option jsstring) : bool :=
  match exteriorOverride with
  | Some (c :: o) => match trim (c :: o) with
                     | [] => false
                     | _ :: _ => true
                     end
  | _ => false
  end.

(** [TrackermanService.addSkin(url, thresholds, exteriorOverride)] of an
    initialised service: the store after the call and its outcome. *)
Definition addSkin (now url : jsstring) (thresholds : option Thresholds)
           (exteriorOverride : option jsstring) (d : TrackermanData)
  : TrackermanData * result unit :=
  if negb (isValidSteamUrl url) then (d, Throw invalid_steam_url)
  else
    match parseSteamUrl url with
    | Throw e => (d, Throw e)
    | Ok parsed =>
        let name := ne_name parsed in
        let exterior :=
          if overrides exteriorOverride
          then match exteriorOverride with
               | Some o => o
               | None => ne_exterior parsed
               end
          else ne_exterior parsed in
        match DataManager.getSkin name exterior d with
        | Some _ => (d, Throw (MkError (tracked_message name exterior)))
        | None =>
            DataManager.addSkin now (mkSkin name exterior url [] thresholds) d
        end
    end.

End Platform.

End Registration.

(** ** SteamMarketScraper: the public entry points *)

Definition messageOf (e : JsError) : jsstring :=
  match e with MkError m => m end.

(** The request of the search strategy: the parameters put into the
    address of the JSON endpoint. *)
Record SearchRequest := mkRequest {
  rq_appid : jsstring;
  rq_count : Z;
  rq_query : jsstring
}.

Module Scraping.

Section Network.

(** [new URL(url)]; the listing page behind an address and the response
    of the JSON endpoint, or the error of the request. *)
Variable parseUrl : jsstring -> option Url.
Variable getPage : jsstring -> result ListingPage.
Variable getSearch : SearchRequest -> result SearchResponse.

(** [throw new Error(`Scraping failed: ${error.message}`)] *)
Definition wrap (e : JsError) : JsError :=
  MkError (js "Scraping failed: " ++ messageOf e).

Definition searchRequest (u : Url) (options : ScrapingOptions) : SearchRequest :=
  mkRequest (or_str (getParam (js "appid") u) (js "730"))
            (searchCount options)
            (or_str (getParam (js "q") u) []).

(** [scrapeMarketPage(url, options)]; [fresh] gives the random
    identifiers of this call. *)
Definition scrapeMarketPage (fresh : nat -> jsstring) (url : jsstring)
           (options : ScrapingOptions) : result (list SteamMarketItem) :=
  match parseUrl url with
  | None => Throw (wrap (MkError (js "Invalid URL")))
  | Some u =>
      if includes (pathname u) (js "/market/listings/") then
        match getPage url with
        | Ok page => Ok (SteamMarketScraper.scrapeItemListings fresh page options)
        | Throw e => Throw (wrap e)
        end
      else
        match getSearch (searchRequest u options) with
        | Ok response =>
            Ok (SteamMarketScraper.scrapeSearchResults fresh response options)
        | Throw e => Throw (wrap e)
        end
  end.

(** [scrapeMultipleUrls(urls, options)]; [i] is the loop index. *)
Fixpoint scrapeFrom (fresh : nat -> nat -> jsstring) (i : nat)
         (urls : list jsstring) (options : ScrapingOptions)
  : list SteamMarketItem :=
  match urls with
  | [] => []
  | url :: rest =>
      match scrapeMarketPage (fresh i) url options with
      | Ok items => items ++ scrapeFrom fresh (S i) rest options
      | Throw _ => scrapeFrom fresh (S i) rest options
      end
  end.

Definition scrapeMultipleUrls (fresh : nat -> nat -> jsstring)
           (urls : list jsstring) (options : ScrapingOptions)
  : list SteamMarketItem :=
  scrapeFrom fresh 0 urls options.

End Network.

End Scraping.

(** ** TrackermanService: the settings it keeps *)

(** A whole settings object passed where a partial one is expected. *)
Definition asPartial (s : TrackermanSettings) : PartialSettings :=
  mkPartial (Some (autoScheduler s)) (Some (discord s)) (Some (scraping s))
            (logging s).

(** The settings the parts of the application hold: the service's own
    copy, the stored ones of the data manager, and the copies given to
    the notifier, the scraper and the scheduler. *)
Record SettingsState := mkState {
  own : TrackermanSettings;
  stored : TrackermanSettings;
  of_notifier : DiscordNotificationSettings;
  of_scraper : ScrapingSettings;
  of_scheduler : AutoSchedulerSettings
}.

(** The assignments of [TrackermanService.updateSettings(newSettings)]. *)
Definition serviceSettings (newSettings : PartialSettings) (st : SettingsState)
  : SettingsState :=
  let this_settings := DataManager.merge (own st) newSettings in
  mkState this_settings
          (DataManager.updateSettings (asPartial this_settings) (stored st))
          (discord this_settings)
          (scraping this_settings)
          (autoScheduler this_settings).

(** ** TrackermanService: fetching all items on demand *)

(** The object [results] of [fetchAllSkinsData]: its keys in insertion
    order with their values. *)
Definition Results := list (jsstring * list SteamMarketItem).

(** [`${skin.name}_${skin.exterior}`] *)
Definition resultKey (s : Skin) : jsstring :=
  skin_name s ++ js "_" ++ skin_exterior s.

(** [results[key] = v] *)
Fixpoint assign (key : jsstring) (v : list SteamMarketItem) (o : Results)
  : Results :=
  match o with
  | [] => [(key, v)]
  | (k, x) :: r =>
      if str_eqb k key then (k, v) :: r else (k, x) :: assign key v r
  end.

Module Sweep.

(** The inner [for (const item of items)]: one append per item, no
    notifier call. *)
Fixpoint appendItems (env : Env) (name exterior url : jsstring)
         (items : list SteamMarketItem) : M unit :=
  match items with
  | [] => ret tt
  | item :: rest =>
      t <- newDate env ;;
      addSkinDataM env name exterior (AutoScheduler.skinData_of t item) url ;;;
      appendItems env name exterior url rest
  end.

(** The check made after the appends, on the last stored observation. *)
Definition notifyLatest (env : Env) (i : nat) (name exterior : jsstring)
  : M unit :=
  d <- get_data ;;
  match DataManager.getSkin name exterior d with
  | Some updatedSkin =>
      if 0 <? length (skin_skindata updatedSkin) then
        match last_opt (skin_skindata updatedSkin) with
        | Some latestData =>
            TrackermanService.checkAndSendNotifications
              (notify env i) updatedSkin latestData
        | None => ret tt
        end
      else ret tt
  | None => throw (MkError (js "Cannot read properties of undefined"))
  end.

(** One iteration of [for (const skin of skins)] with its [try] and
    [catch]: the world and the [results] object afterwards. *)
Definition visit (env : Env) (options : ScrapingOptions) (i : nat)
           (results : Results) : M Results :=
  fun w =>
    match nth_error (skins (w_data w)) i with
    | None => (w, Ok results)
    | Some skin =>
        match request env i (skin_url skin) options w with
        | (w1, Throw _) => (w1, Ok (assign (resultKey skin) [] results))
        | (w1, Ok items) =>
            let results1 := assign (resultKey skin) items results in
            match (appendItems env (skin_name skin) (skin_exterior skin)
                               (skin_url skin) items ;;;
                   notifyLatest env i (skin_name skin) (skin_exterior skin)) w1
            with
            | (w2, Ok _) => (w2, Ok results1)
            | (w2, Throw _) => (w2, Ok (assign (resultKey skin) [] results1))
            end
        end
    end.

Fixpoint visitAll (env : Env) (options : ScrapingOptions) (indices : list nat)
         (results : Results) : M Results :=
  match indices with
  | [] => ret results
  | i :: rest =>
      r <- visit env options i results ;;
      visitAll env options rest r
  end.

(** [fetchAllSkinsData(options)] of an initialised service. *)
Definition fetchAllSkinsData (env : Env) (options : ScrapingOptions)
  : M Results :=
  d <- get_data ;;
  visitAll env options (seq 0 (length (DataManager.getSkins d))) [].

End Sweep.






(** ** The API routes *)

(** A field of a request that holds a string or is missing. *)
Definition present (x : option jsstring) : bool :=
  match x with
  | Some (_ :: _) => true
  | _ => false
  end.

Definition text_of (x : option jsstring) : jsstring :=
  match x with
  | Some s => s
  | None => []
  end.

(** What a route answers: the HTTP status, the [success] flag and the
    [message] or [error] text. *)
Record Response := mkResponse {
  status : nat;
  success : bool;
  text : jsstring
}.

(** The [data] of the fetch route. *)
Inductive FetchData :=
| OneItem (items : list SteamMarketItem)
| AllItems (results : Results).

Module Routes.

(** [DELETE /api/skins] *)
Definition deleteSkin (now : jsstring) (name exterior : option jsstring)
           (d : TrackermanData) : TrackermanData * Response :=
  if negb (present name) || negb (present exterior)
  then (d, mkResponse 400 false (js "Name and exterior are required"))
  else (DataManager.removeSkin now (text_of name) (text_of exterior) d,
        mkResponse 200 true (js "Skin removed successfully")).

Section Platform.

Variable parseUrl : jsstring -> option Url.
Variable decodeURIComponent : jsstring -> result jsstring.

(** [POST /api/skins] *)
Definition postSkin (now : jsstring) (url : option jsstring)
           (thresholds : option Thresholds) (exteriorOverride : option jsstring)
           (d : TrackermanData) : TrackermanData * Response :=
  if negb (present url)
  then (d, mkResponse 400 false (js "URL is required"))
  else
    match Registration.addSkin parseUrl decodeURIComponent now (text_of url)
            thresholds exteriorOverride d with
    | (d', Ok _) => (d', mkResponse 200 true (js "Skin added successfully"))
    | (d', Throw e) => (d', mkResponse 400 false (messageOf e))
    end.

End Platform.

(** [POST /api/fetch]: the world afterwards, the response and its data. *)
Definition postFetch (env : Env) (fetchType : jsstring)
           (skinName skinExterior : option jsstring) (options : ScrapingOptions)
           (w : World) : World * (Response * option FetchData) :=
  if str_eqb fetchType (js "single") && present skinName && present skinExterior
  then
    match Tracking.fetchSkinData env (text_of skinName) (text_of skinExterior)
            options w with
    | (w', Ok items) =>
        (w', (mkResponse 200 true (js "Data fetched successfully"),
              Some (OneItem items)))
    | (w', Throw e) => (w', (mkResponse 400 false (messageOf e), None))
    end
  else
    match Sweep.fetchAllSkinsData env options w with
    | (w', Ok results) =>
        (w', (mkResponse 200 true (js "Data fetched successfully"),
              Some (AllItems results)))
    | (w', Throw e) => (w', (mkResponse 400 false (messageOf e), None))
    end.

(** [PUT /api/fetch/trigger] *)
Definition putTrigger (env : Env) (this_settings : AutoSchedulerSettings)
           (w : World) : World * Response :=
  match AutoScheduler.manualTrigger env this_settings w with
  | (w', Ok _) =>
      (w', mkResponse 200 true (js "Scheduler triggered successfully"))
  | (w', Throw e) => (w', mkResponse 400 false (messageOf e))
  end.

End Routes.

(** * Properties *)

(** ** Strings *)

Lemma str_eqb_refl (a : jsstring) : str_eqb a a = true.
Proof.
  induction a as [|x a IH]; simpl; [reflexivity|].
  now rewrite N.eqb_refl, IH.
Qed.

Lemma str_eqb_eq (a b : jsstring) : str_eqb a b = true <-> a = b.
Proof.
  split; [|intros ->; apply str_eqb_refl].
  revert b; induction a as [|x a IH]; intros [|y b]; simpl; try discriminate.
  - reflexivity.
  - intros H. apply andb_true_iff in H as [Hx Hab].
    apply N.eqb_eq in Hx. apply IH in Hab. now subst.
Qed.

(** ** The snapshot store *)

Section Store.

Variables name exterior : jsstring.

Let key := same_key name exterior.

Lemma find_update_first (f : Skin -> Skin) (l : list Skin) (s : Skin) :
  (forall x, key (f x) = key x) ->
  find key l = Some s ->
  find key (update_first key f l) = Some (f s).
Proof.
  intros Hf. induction l as [|x l IH]; simpl; [discriminate|].
  destruct (key x) eqn:Hx.
  - intros [= ->]. simpl. now rewrite Hf, Hx.
  - intros H. simpl. rewrite Hx. now apply IH.
Qed.

Lemma find_app_new (l : list Skin) (s : Skin) :
  find key l = None -> key s = true -> find key (l ++ [s]) = Some s.
Proof.
  intros Hl Hs. induction l as [|x l IH]; simpl in *.
  - now rewrite Hs.
  - destruct (key x); [discriminate|]. now apply IH.
Qed.

Lemma key_push_data (sd : SkinData) (url : jsstring) (s : Skin) :
  key (DataManager.push_data sd url s) = key s.
Proof. reflexivity. Qed.

End Store.

Lemma same_key_refl (name exterior url : jsstring) (h : list SkinData)
      (th : option Thresholds) :
  same_key name exterior (mkSkin name exterior url h th) = true.
Proof.
  unfold same_key; simpl. now rewrite !str_eqb_refl.
Qed.

Lemma set_expired_twice (a b : bool) (d : SkinData) :
  set_expired a (set_expired b d) = set_expired a d.
Proof. reflexivity. Qed.

Lemma map_set_expired_twice (a b : bool) (l : list SkinData) :
  map (set_expired a) (map (set_expired b) l) = map (set_expired a) l.
Proof.
  rewrite map_map. apply map_ext. intros d. apply set_expired_twice.
Qed.

(** One append: the item is tracked afterwards, every older observation
    is superseded and the new one is the last and current one. *)
Lemma addSkinData_history (now name exterior : jsstring) (sd : SkinData)
      (url : jsstring) (d : TrackermanData) :
  exists s,
    DataManager.getSkin name exterior
      (DataManager.addSkinData now name exterior sd url d) = Some s
    /\ skin_skindata s
       = map (set_expired true) (history name exterior d)
           ++ [set_expired false sd].
Proof.
  unfold history, DataManager.addSkinData.
  destruct (DataManager.getSkin name exterior d) as [s|] eqn:Hs.
  - exists (DataManager.push_data sd url s). split; [|reflexivity].
    unfold DataManager.getSkin in *; simpl.
    apply find_update_first; [intros x; apply key_push_data|exact Hs].
  - eexists. split.
    + unfold DataManager.getSkin in *; simpl.
      apply find_app_new; [exact Hs|apply same_key_refl].
    + reflexivity.
Qed.

Lemma history_addSkinData (now name exterior : jsstring) (sd : SkinData)
      (url : jsstring) (d : TrackermanData) :
  history name exterior (DataManager.addSkinData now name exterior sd url d)
  = map (set_expired true) (history name exterior d) ++ [set_expired false sd].
Proof.
  destruct (addSkinData_history now name exterior sd url d) as (s & Hs & Hh).
  unfold history at 1. now rewrite Hs.
Qed.

Lemma appendAll_snoc (name exterior : jsstring) (init : list Append)
      (o : Append) (d : TrackermanData) :
  appendAll name exterior (init ++ [o]) d
  = DataManager.addSkinData (ap_now o) name exterior (ap_data o) (ap_url o)
      (appendAll name exterior init d).
Proof.
  revert d; induction init as [|x init IH]; intros d; simpl; [reflexivity|].
  apply IH.
Qed.

Lemma history_appendAll (name exterior : jsstring) (init : list Append)
      (o : Append) (d : TrackermanData) :
  history name exterior (appendAll name exterior (init ++ [o]) d)
  = map (set_expired true) (history name exterior d ++ map ap_data init)
      ++ [set_expired false (ap_data o)].
Proof.
  revert d; induction init as [|x init IH]; intros d; simpl.
  - now rewrite history_addSkinData, app_nil_r.
  - rewrite IH, history_addSkinData.
    rewrite !map_app, map_set_expired_twice. simpl.
    now rewrite <- !app_assoc.
Qed.

Lemma filter_expired_map_true (l : list SkinData) :
  filter is_expired (map (set_expired true) l) = map (set_expired true) l.
Proof.
  induction l as [|x l IH]; simpl; [reflexivity|]. now rewrite IH.
Qed.

Lemma filter_current_map_true (l : list SkinData) :
  filter (fun x => negb (is_expired x)) (map (set_expired true) l) = [].
Proof.
  induction l as [|x l IH]; simpl; [reflexivity|]. exact IH.
Qed.

(** C1. Appending N >= 1 observations to a fresh item leaves exactly one
    current observation, the one appended last, after N-1 superseded ones
    in insertion order; the current view then has a history of length 1
    and the full view a history of length N.  The N observations are
    [init ++ [o]]. *)
Theorem append_keeps_one_current
        (name exterior : jsstring) (init : list Append) (o : Append)
        (d : TrackermanData) :
  fresh_item name exterior d ->
  let d' := appendAll name exterior (init ++ [o]) d in
  exists s,
    DataManager.getSkin name exterior d' = Some s
    /\ In s (DataManager.getSkins d')
    /\ skin_skindata s
       = map (set_expired true) (map ap_data init)
           ++ [set_expired false (ap_data o)]
    /\ filter (fun x => negb (is_expired x)) (skin_skindata s)
       = [set_expired false (ap_data o)]
    /\ filter is_expired (skin_skindata s)
       = map (set_expired true) (map ap_data init)
    /\ length (skin_skindata s) = length (init ++ [o])
    /\ exists a,
        DataManager.getActiveSkin name exterior d' = Some a
        /\ skin_skindata a = [set_expired false (ap_data o)]
        /\ length (skin_skindata a) = 1%nat.
Proof.
  intros Hfresh d'.
  assert (Hh : history name exterior d'
               = map (set_expired true) (map ap_data init)
                   ++ [set_expired false (ap_data o)]).
  { unfold d'. rewrite history_appendAll. now rewrite Hfresh. }
  assert (Hs : exists s, DataManager.getSkin name exterior d' = Some s).
  { unfold d'. rewrite appendAll_snoc.
    destruct (addSkinData_history (ap_now o) name exterior (ap_data o)
                (ap_url o) (appendAll name exterior init d)) as (s & H & _).
    now exists s. }
  destruct Hs as (s & Hs). unfold history in Hh. rewrite Hs in Hh.
  assert (Hcur : filter (fun x => negb (is_expired x)) (skin_skindata s)
                 = [set_expired false (ap_data o)]).
  { rewrite Hh, filter_app, filter_current_map_true. reflexivity. }
  exists s. repeat split.
  - exact Hs.
  - unfold DataManager.getSkin in Hs. apply find_some in Hs. apply Hs.
  - exact Hh.
  - exact Hcur.
  - rewrite Hh, filter_app, filter_expired_map_true. simpl.
    now rewrite app_nil_r.
  - rewrite Hh, !length_app, !length_map. reflexivity.
  - exists (DataManager.active s). unfold DataManager.getActiveSkin.
    rewrite Hs. simpl. rewrite Hcur. repeat split.
Qed.

(** ** Removal and duplicate registration *)

Lemma filter_keep_all {A} (p : A -> bool) (l : list A) :
  (forall x, In x l -> p x = true) -> filter p l = l.
Proof.
  induction l as [|x l IH]; simpl; intros H; [reflexivity|].
  rewrite (H x (or_introl eq_refl)). f_equal. apply IH.
  intros y Hy. apply H. now right.
Qed.

Lemma removeSkin_absent (now name exterior : jsstring) (d : TrackermanData) :
  DataManager.getSkin name exterior d = None ->
  DataManager.removeSkin now name exterior d = DataManager.saveData now d.
Proof.
  unfold DataManager.getSkin, DataManager.removeSkin, DataManager.saveData.
  intros H. simpl. f_equal. apply filter_keep_all.
  intros x Hx. now rewrite (find_none _ _ H x Hx).
Qed.

Lemma getSkin_removeSkin (now name exterior : jsstring) (d : TrackermanData) :
  DataManager.getSkin name exterior (DataManager.removeSkin now name exterior d)
  = None.
Proof.
  unfold DataManager.getSkin, DataManager.removeSkin; simpl.
  induction (skins d) as [|x l IH]; simpl; [reflexivity|].
  destruct (same_key name exterior x) eqn:Hx; simpl; [exact IH|].
  now rewrite Hx.
Qed.

(** C8 (as the code has it). Removing an item that is not tracked raises
    nothing and leaves the tracked items as they are, in their order,
    with their histories and thresholds; it still saves the store, which
    stamps [lastUpdated] with the time of the call.  On the items a
    removal can be repeated without further effect.  Adding an item
    whose (name, exterior) pair is tracked throws the duplicate error
    and leaves the whole store, histories and [lastUpdated] included, as
    it is. *)
Theorem remove_absent_and_add_duplicate :
  (forall now name exterior d,
      DataManager.getSkin name exterior d = None ->
      DataManager.removeSkin now name exterior d = mkData (skins d) now
      /\ skins (DataManager.removeSkin now name exterior d) = skins d
      /\ lastUpdated (DataManager.removeSkin now name exterior d) = now)
  /\ (forall now now' name exterior d,
         skins (DataManager.removeSkin now' name exterior
                  (DataManager.removeSkin now name exterior d))
         = skins (DataManager.removeSkin now name exterior d))
  /\ (forall now skin d,
         DataManager.getSkin (skin_name skin) (skin_exterior skin) d <> None ->
         DataManager.addSkin now skin d
         = (d, Throw (MkError (DataManager.duplicate_message skin)))).
Proof.
  split; [|split].
  - intros now name exterior d H. rewrite (removeSkin_absent now _ _ _ H).
    repeat split.
  - intros now now' name exterior d.
    rewrite (removeSkin_absent now' _ _ _ (getSkin_removeSkin now name exterior d)).
    reflexivity.
  - intros now skin d H. unfold DataManager.addSkin.
    destruct (DataManager.getSkin (skin_name skin) (skin_exterior skin) d);
      [reflexivity|contradiction].
Qed.

(** ** The tracked items keep distinct keys *)

Lemma keys_update_first (p : Skin -> bool) (f : Skin -> Skin) (l : list Skin) :
  (forall s, keyOf (f s) = keyOf s) ->
  map keyOf (update_first p f l) = map keyOf l.
Proof.
  intros Hf. induction l as [|x l IH]; simpl; [reflexivity|].
  destruct (p x); simpl; [now rewrite Hf|now rewrite IH].
Qed.

Lemma untracked_key (name exterior : jsstring) (d : TrackermanData) :
  DataManager.getSkin name exterior d = None ->
  ~ In (name, exterior) (map keyOf (skins d)).
Proof.
  unfold DataManager.getSkin. intros Hnone Hin.
  apply in_map_iff in Hin as (s & Hk & Hs).
  pose proof (find_none _ _ Hnone s Hs) as H.
  unfold keyOf in Hk. injection Hk as <- <-.
  unfold same_key in H. now rewrite !str_eqb_refl in H.
Qed.

Lemma NoDup_snoc {A} (l : list A) (x : A) :
  NoDup l -> ~ In x l -> NoDup (l ++ [x]).
Proof.
  intros Hl Hx. apply NoDup_app; [exact Hl|repeat constructor; intros []|].
  intros y Hy [<-|[]]. contradiction.
Qed.

Lemma keys_filter (keep : Skin -> bool) (l : list Skin) :
  NoDup (map keyOf l) -> NoDup (map keyOf (filter keep l)).
Proof.
  intros Hl. induction l as [|s l IH]; [constructor|].
  simpl in Hl. apply NoDup_cons_iff in Hl as [Hs Hl].
  simpl. destruct (keep s); simpl; [|now apply IH].
  constructor; [|now apply IH].
  rewrite in_map_iff. intros (s' & Hkey & Hin).
  apply Hs, in_map_iff. exists s'. split; [exact Hkey|].
  now apply filter_In in Hin.
Qed.

(** Every operation of the store keeps the (name, exterior) pairs of
    the tracked items pairwise distinct. *)
Lemma store_keys_distinct (d : TrackermanData) :
  NoDup (map keyOf (skins d)) ->
  (forall now name exterior sd url,
      NoDup (map keyOf (skins (DataManager.addSkinData now name exterior sd
                                                        url d))))
  /\ (forall now skin,
         NoDup (map keyOf (skins (fst (DataManager.addSkin now skin d)))))
  /\ (forall now name exterior,
         NoDup (map keyOf (skins (DataManager.removeSkin now name exterior d))))
  /\ (forall now name exterior th,
         NoDup (map keyOf (skins (fst (DataManager.updateSkinThresholds
                                         now name exterior th d))))).
Proof.
  intros H. repeat split.
  - intros now name exterior sd url. unfold DataManager.addSkinData.
    destruct (DataManager.getSkin name exterior d) eqn:E; simpl.
    + now rewrite keys_update_first.
    + rewrite map_app. apply NoDup_snoc; [exact H|].
      now apply untracked_key.
  - intros now skin. unfold DataManager.addSkin.
    destruct (DataManager.getSkin (skin_name skin) (skin_exterior skin) d)
      eqn:E; simpl; [exact H|].
    rewrite map_app. apply NoDup_snoc; [exact H|].
    now apply untracked_key.
  - intros now name exterior. simpl. now apply keys_filter.
  - intros now name exterior th. unfold DataManager.updateSkinThresholds.
    destruct (DataManager.getSkin name exterior d); simpl; [|exact H].
    now rewrite keys_update_first.
Qed.

(** ** Effects: what a computation leaves alone *)

Lemma frame_ret {A} (a : A) : frame (ret a).
Proof. intros w; repeat split. Qed.

Lemma frame_send (deliver : Notification -> bool) (n : Notification) :
  frame (send deliver n).
Proof. intros w; repeat split. Qed.

Lemma frame_when (b : bool) (m : M unit) : frame m -> frame (when b m).
Proof. destruct b; simpl; [auto|intros _; apply frame_ret]. Qed.

Lemma frame_bind {A B} (m : M A) (k : A -> M B) :
  frame m -> (forall a, frame (k a)) -> frame (bind m k).
Proof.
  intros Hm Hk w. unfold bind. specialize (Hm w).
  destruct (m w) as [w1 [a|e]]; simpl in *; [|exact Hm].
  destruct (Hk a w1) as (H1 & H2 & H3). destruct Hm as (H4 & H5 & H6).
  repeat split; congruence.
Qed.

Lemma frame_check_thresholds (deliver : Notification -> bool) (skin : Skin)
      (newData : SkinData) (p : Q) :
  frame (check_thresholds deliver skin newData p).
Proof.
  unfold check_thresholds. destruct (skin_thresholds skin); [|apply frame_ret].
  apply frame_bind; [|intros _]; apply frame_when, frame_send.
Qed.

Lemma try_catch_ignore (m : M unit) (w : World) :
  try_catch m (fun _ => ret tt) w = (fst (m w), Ok tt).
Proof.
  unfold try_catch, ret. destruct (m w) as [w' [[]|e]]; reflexivity.
Qed.

(** ** One iteration of the cycle *)

Lemma bind_run {A B} (m : M A) (k : A -> M B) (w : World) :
  bind m k w = match m w with
               | (w', Ok a) => k a w'
               | (w', Throw e) => (w', Throw e)
               end.
Proof. reflexivity. Qed.

Lemma fetchOne_spec (env : Env) (i : nat) (w : World) :
  exists w',
    AutoScheduler.fetchOne env i w = (w', Ok tt)
    /\ w_settings w' = w_settings w
    /\ step_data env i (w_data w) (w_data w')
    /\ w_requests w'
       = w_requests w ++ match nth_error (skins (w_data w)) i with
                         | Some s => [skin_url s]
                         | None => []
                         end.
Proof.
  unfold AutoScheduler.fetchOne, step_data.
  destruct (nth_error (skins (w_data w)) i) as [s|] eqn:Hs.
  2:{ exists w. rewrite app_nil_r. repeat split. }
  rewrite try_catch_ignore. eexists; split; [reflexivity|].
  unfold AutoScheduler.fetchBody. rewrite bind_run. unfold request.
  destruct (scrape env i (skin_url s) AutoScheduler.scrapingOptions)
    as [[|item items]|e]; simpl; try (repeat split; reflexivity).
  rewrite bind_run. simpl. rewrite bind_run. simpl.
  rewrite bind_run. unfold get_data at 1. cbv beta iota.
  match goal with
  | |- context [bind ?m ?k ?w0] =>
      assert (F : frame (bind m k))
        by (apply frame_bind;
            [apply frame_when, frame_send
            |intros _; apply frame_check_thresholds]);
      destruct (F w0) as (F1 & F2 & F3)
  end.
  split; [exact F2|]. split; [|exact F3].
  do 2 eexists. exact F1.
Qed.

(** ** The cycle over the tracked items *)

Lemma length_update_first (p : Skin -> bool) (f : Skin -> Skin)
      (l : list Skin) :
  length (update_first p f l) = length l.
Proof.
  induction l as [|x l IH]; simpl; [reflexivity|].
  destruct (p x); simpl; [reflexivity|now rewrite IH].
Qed.

Lemma getSkin_of_element (d : TrackermanData) (i : nat) (s : Skin) :
  nth_error (skins d) i = Some s ->
  DataManager.getSkin (skin_name s) (skin_exterior s) d <> None.
Proof.
  intros Hi Hnone. unfold DataManager.getSkin in Hnone.
  pose proof (find_none _ _ Hnone s (nth_error_In _ _ Hi)) as H.
  unfold same_key in H. now rewrite !str_eqb_refl in H.
Qed.

(** An iteration never changes the number of tracked items. *)
Lemma fetchOne_keeps_length (env : Env) (i : nat) (w : World) :
  length (skins (w_data (fst (AutoScheduler.fetchOne env i w))))
  = length (skins (w_data w)).
Proof.
  destruct (fetchOne_spec env i w) as (w' & Hrun & _ & Hstep & _).
  rewrite Hrun. simpl. unfold step_data in Hstep.
  destruct (nth_error (skins (w_data w)) i) as [s|] eqn:Hi;
    [|now rewrite Hstep].
  destruct (scrape env i (skin_url s) AutoScheduler.scrapingOptions)
    as [[|item items]|e]; try (now rewrite Hstep).
  destruct Hstep as (t0 & t1 & ->). unfold DataManager.addSkinData.
  destruct (DataManager.getSkin (skin_name s) (skin_exterior s) (w_data w))
    eqn:E; [|now apply getSkin_of_element in Hi].
  simpl. apply length_update_first.
Qed.

Lemma same_key_keyOf (s x : Skin) :
  same_key (skin_name s) (skin_exterior s) x = true <-> keyOf x = keyOf s.
Proof.
  unfold same_key, keyOf. rewrite andb_true_iff, !str_eqb_eq.
  split; [intros [-> ->]; reflexivity|intros [= -> ->]; split; reflexivity].
Qed.

Lemma zipper_first (s : Skin) (f : Skin -> Skin) (done rest : list Skin) :
  ~ In (keyOf s) (map keyOf done) ->
  find (same_key (skin_name s) (skin_exterior s)) (done ++ s :: rest) = Some s
  /\ update_first (same_key (skin_name s) (skin_exterior s)) f
                  (done ++ s :: rest)
     = done ++ f s :: rest.
Proof.
  induction done as [|x done IH]; simpl; intros Hnot.
  - rewrite (proj2 (same_key_keyOf s s) eq_refl). split; reflexivity.
  - destruct (same_key (skin_name s) (skin_exterior s) x) eqn:Hx.
    + apply same_key_keyOf in Hx. exfalso. apply Hnot. now left.
    + destruct IH as [H1 H2]; [intros H; apply Hnot; now right|].
      rewrite H1, H2. split; reflexivity.
Qed.

Lemma addSkinData_zipper (t1 : jsstring) (s : Skin) (sd : SkinData)
      (d : TrackermanData) (done rest : list Skin) :
  skins d = done ++ s :: rest ->
  ~ In (keyOf s) (map keyOf done) ->
  skins (DataManager.addSkinData t1 (skin_name s) (skin_exterior s) sd
                                 (skin_url s) d)
  = done ++ DataManager.push_data sd (skin_url s) s :: rest.
Proof.
  intros Hd Hnot. unfold DataManager.addSkinData, DataManager.getSkin.
  rewrite Hd.
  destruct (zipper_first s (DataManager.push_data sd (skin_url s)) done rest Hnot)
    as [H1 H2].
  rewrite H1. simpl. exact H2.
Qed.

Lemma nth_error_zipper {A} (done : list A) (s : A) (rest : list A) :
  nth_error (done ++ s :: rest) (length done) = Some s.
Proof.
  induction done as [|x done IH]; simpl; [reflexivity|exact IH].
Qed.

Lemma NoDup_zipper (done : list Skin) (s : Skin) (rest : list Skin) :
  NoDup (map keyOf (done ++ s :: rest)) -> ~ In (keyOf s) (map keyOf done).
Proof.
  rewrite map_app. simpl. intros H Hin.
  apply NoDup_remove_2 in H. apply H. apply in_or_app. now left.
Qed.

(** The notifier calls of an iteration change nothing but the record of
    the calls. *)
Lemma notifier_calls_frame (deliver : Notification -> bool) (b : bool)
      (n : Notification) (skin : Skin) (newData : SkinData) (p : Q)
      (w0 : World) :
  exists sent,
    fst ((when b (send deliver n) ;;;
          check_thresholds deliver skin newData p) w0)
    = mkWorld (w_data w0) (w_settings w0) sent (w_tick w0) (w_requests w0).
Proof.
  destruct w0 as [d st sn tk rq].
  unfold bind, when, send, check_thresholds, ret.
  cbn [w_data w_settings w_sent w_tick w_requests].
  destruct b; [destruct (deliver n)|];
    (destruct (skin_thresholds skin) as [th|];
     [unfold bind, when, send, ret;
      cbn [w_data w_settings w_sent w_tick w_requests];
      destruct (high_hit th p);
      [destruct (deliver (ThresholdHit skin newData th_kind_high))|];
      (destruct (low_hit th p);
       [destruct (deliver (ThresholdHit skin newData th_kind_low))|])|]);
    cbn [fst]; eexists; reflexivity.
Qed.

(** One iteration, the item visited being the first of its pair: what it
    stores, and the clock readings it takes. *)
Lemma fetchOne_at (env : Env) (w : World) (done rest : list Skin) (s : Skin) :
  skins (w_data w) = done ++ s :: rest ->
  ~ In (keyOf s) (map keyOf done) ->
  exists w' s',
    AutoScheduler.fetchOne env (length done) w = (w', Ok tt)
    /\ w_settings w' = w_settings w
    /\ skins (w_data w') = done ++ s' :: rest
    /\ appended env (length done) (w_tick w) s s'
    /\ w_tick w'
       = (w_tick w + if fetched env (length done) s then 2 else 0)%nat
    /\ w_requests w' = w_requests w ++ [skin_url s].
Proof.
  intros Hw Hnot. unfold AutoScheduler.fetchOne, appended, fetched.
  rewrite Hw, nth_error_zipper. rewrite try_catch_ignore.
  unfold AutoScheduler.fetchBody. rewrite bind_run. unfold request.
  destruct (scrape env (length done) (skin_url s) AutoScheduler.scrapingOptions)
    as [[|item items]|e].
  - eexists _, s. split; [reflexivity|].
    cbn [ret fst w_data w_settings w_tick w_requests].
    rewrite Nat.add_0_r. repeat split. exact Hw.
  - cbv beta iota. rewrite bind_run. simpl. rewrite bind_run. simpl.
    rewrite bind_run. unfold get_data at 1. cbv beta iota.
    match goal with
    | |- context [bind (when ?b (send ?dl ?n)) ?k ?w0] =>
        destruct (notifier_calls_frame dl b n
                    (nth (length done)
                         (skins (w_data w0)) s)
                    (set_expired false
                       (AutoScheduler.skinData_of (clock env (w_tick w)) item))
                    (item_price item) w0) as [sent Hsent]
    end.
    eexists _, _. split; [reflexivity|].
    cbn [fst] in Hsent |- *. rewrite Hsent.
    cbn [w_data w_settings w_tick w_requests].
    split; [reflexivity|]. split; [|split; [reflexivity|split; [lia|reflexivity]]].
    now apply addSkinData_zipper.
  - eexists _, s. split; [reflexivity|].
    cbn [ret fst w_data w_settings w_tick w_requests].
    rewrite Nat.add_0_r. repeat split. exact Hw.
Qed.

Lemma appended_key (env : Env) (k tick : nat) (s s' : Skin) :
  appended env k tick s s' -> keyOf s' = keyOf s.
Proof.
  unfold appended.
  destruct (scrape env k (skin_url s) AutoScheduler.scrapingOptions)
    as [[|item items]|e]; intros ->; reflexivity.
Qed.

(** The loop over the items still to visit, [todo], the items already
    visited being [done]: every iteration ends normally, the settings
    are not touched, each visited item gets its own outcome and the
    clock is read twice for each observation stored. *)
Lemma fetchLoop_visited (env : Env) (todo : list Skin) :
  forall (done : list Skin) (w : World),
    skins (w_data w) = done ++ todo ->
    NoDup (map keyOf (done ++ todo)) ->
    exists w' todo',
      AutoScheduler.fetchLoop env (seq (length done) (length todo)) w
      = (w', Ok tt)
      /\ w_settings w' = w_settings w
      /\ skins (w_data w') = done ++ todo'
      /\ visited env (length done) (w_tick w) todo todo'
      /\ w_tick w' = (w_tick w + readings env (length done) todo)%nat
      /\ w_requests w' = w_requests w ++ map skin_url todo.
Proof.
  induction todo as [|s rest IH]; intros done w Hw Hnd.
  - exists w, []. cbn. rewrite Nat.add_0_r, !app_nil_r.
    rewrite app_nil_r in Hw. repeat split. exact Hw.
  - cbn [length seq AutoScheduler.fetchLoop]. rewrite bind_run.
    destruct (fetchOne_at env w done rest s Hw (NoDup_zipper done s rest Hnd))
      as (w1 & s' & Hrun & Hset & Hw1 & Hs' & Htick & Hreq).
    rewrite Hrun.
    pose proof (appended_key env _ _ _ _ Hs') as Hkey.
    destruct (IH (done ++ [s']) w1)
      as (w2 & todo' & Hrun2 & Hset2 & Hw2 & Hall & Htick2 & Hreq2).
    + now rewrite <- app_assoc.
    + rewrite <- app_assoc. cbn [app].
      rewrite map_app in *. cbn [map] in *. now rewrite Hkey.
    + rewrite length_app in Hrun2, Hall, Htick2.
      cbn [length] in Hrun2, Hall, Htick2.
      rewrite Nat.add_1_r in Hrun2, Hall, Htick2.
      exists w2, (s' :: todo'). rewrite Hrun2.
      split; [reflexivity|]. split; [congruence|].
      split; [now rewrite Hw2, <- app_assoc|].
      split; [split; [exact Hs'|now rewrite <- Htick]|].
      split.
      * rewrite Htick2, Htick. cbn [readings]. lia.
      * rewrite Hreq2, Hreq, <- app_assoc. reflexivity.
Qed.

Lemma visited_nth (env : Env) (l : list Skin) :
  forall (l' : list Skin) (k tick i : nat) (s : Skin),
    visited env k tick l l' ->
    nth_error l i = Some s ->
    exists s',
      nth_error l' i = Some s'
      /\ appended env (k + i) (tick + readings env k (firstn i l)) s s'.
Proof.
  induction l as [|x l IH]; intros [|x' l'] k tick i s H Hi; cbn in H;
    try contradiction.
  - destruct i; discriminate.
  - destruct H as [Hx Hl]. destruct i as [|i]; cbn in Hi.
    + injection Hi as <-. exists x'. cbn [firstn readings].
      rewrite !Nat.add_0_r. now split.
    + destruct (IH l' (S k) _ i s Hl Hi) as (s' & H1 & H2).
      exists s'. split; [exact H1|]. cbn [firstn readings].
      replace (k + S i)%nat with (S k + i)%nat by lia.
      now rewrite Nat.add_assoc.
Qed.

Lemma visited_length (env : Env) (l : list Skin) :
  forall (l' : list Skin) (k tick : nat),
    visited env k tick l l' -> length l' = length l.
Proof.
  induction l as [|x l IH]; intros [|x' l'] k tick H; cbn in H;
    try contradiction; [reflexivity|].
  cbn [length]. f_equal. destruct H as [_ H]. now apply IH in H.
Qed.

(** C3. A cycle over a non-empty list of items with pairwise distinct
    (name, exterior) pairs always completes, whatever fetch or
    notification fails: every item is fetched once, in list order.  An
    item whose fetch throws, or returns no candidate, is left as it was.
    An item whose fetch returns a candidate keeps its pair, its URL and
    its thresholds; its stored observations are superseded and one
    observation is appended, which holds the price, the currency, the
    listing and the seller of the first candidate and the time read when
    the item was visited.  After the last item the time then read is
    stored as [lastRun] in the scheduler settings, with the scheduler's
    [enabled] and [intervalMinutes]; the other settings are kept.  The
    clock is read twice for each observation stored and once for
    [lastRun]. *)
Theorem cycle_isolates_failures (env : Env) (this_settings : AutoSchedulerSettings)
        (w : World) :
  skins (w_data w) <> [] ->
  NoDup (map keyOf (skins (w_data w))) ->
  exists w',
    AutoScheduler.executeScheduledFetch env this_settings w = (w', Ok tt)
    /\ w_settings w'
       = mkSettings
           (mkAuto (as_enabled this_settings)
                   (as_intervalMinutes this_settings)
                   (Some (clock env (w_tick w
                                     + readings env 0 (skins (w_data w))))))
           (discord (w_settings w)) (scraping (w_settings w))
           (logging (w_settings w))
    /\ w_tick w' = S (w_tick w + readings env 0 (skins (w_data w)))
    /\ w_requests w' = w_requests w ++ map skin_url (skins (w_data w))
    /\ length (skins (w_data w')) = length (skins (w_data w))
    /\ forall i s,
        nth_error (skins (w_data w)) i = Some s ->
        exists s',
          nth_error (skins (w_data w')) i = Some s'
          /\ match scrape env i (skin_url s) AutoScheduler.scrapingOptions with
             | Throw _ => s' = s
             | Ok [] => s' = s
             | Ok (item :: _) =>
                 s' = mkSkin (skin_name s) (skin_exterior s) (skin_url s)
                        (map (set_expired true) (skin_skindata s)
                           ++ [mkSkinData
                                 (clock env
                                    (w_tick w
                                     + readings env 0
                                         (firstn i (skins (w_data w)))))
                                 (item_price item) (item_currency item)
                                 (item_listingId item) (item_sellerId item)
                                 None (Some false)])
                        (skin_thresholds s)
             end.
Proof.
  intros Hne Hnd.
  destruct (fetchLoop_visited env (skins (w_data w)) [] w eq_refl Hnd)
    as (w1 & l' & Hrun & Hset & Hw1 & Hall & Htick & Hreq).
  cbn [length app] in Hrun, Hw1, Hall, Htick.
  unfold AutoScheduler.executeScheduledFetch.
  rewrite bind_run. unfold get_data at 1. cbv beta iota.
  unfold DataManager.getSkins.
  destruct (skins (w_data w)) as [|s0 l0] eqn:Hl; [contradiction|].
  change (length (s0 :: l0) =? 0)%nat with false. cbv iota.
  rewrite bind_run, Hrun. rewrite bind_run.
  cbn [newDate modify_settings w_data w_settings w_sent w_tick w_requests].
  eexists. split; [reflexivity|].
  cbn [w_data w_settings w_tick w_requests].
  rewrite Hset, Hw1, Htick.
  split; [reflexivity|]. split; [reflexivity|].
  split; [exact Hreq|].
  split; [apply (@visited_length env _ _ _ _ Hall)|].
  intros i s Hi.
  destruct (@visited_nth env _ _ _ _ _ _ Hall Hi) as (s' & H1 & H2).
  exists s'. split; [exact H1|]. exact H2.
Qed.

(** C10. With no tracked item a cycle, timer-driven or triggered by
    hand, does nothing at all: no request is sent, nothing is appended,
    no notification is made and the settings, [lastRun] included, stay
    as they are. *)
Theorem empty_cycle_changes_nothing (env : Env)
        (this_settings : AutoSchedulerSettings) (w : World) :
  skins (w_data w) = [] ->
  AutoScheduler.executeScheduledFetch env this_settings w = (w, Ok tt)
  /\ AutoScheduler.manualTrigger env this_settings w = (w, Ok tt).
Proof.
  intros H. unfold AutoScheduler.manualTrigger.
  assert (E : AutoScheduler.executeScheduledFetch env this_settings w
              = (w, Ok tt)).
  { unfold AutoScheduler.executeScheduledFetch. rewrite bind_run.
    unfold get_data at 1. cbv beta iota. unfold DataManager.getSkins.
    rewrite H. reflexivity. }
  split; exact E.
Qed.

(** ** The change and threshold detector *)

Lemma add_sent_nil (w : World) : add_sent [] w = w.
Proof. destruct w; unfold add_sent; simpl. now rewrite app_nil_r. Qed.

Lemma add_sent_app (l1 l2 : list Notification) (w : World) :
  add_sent l2 (add_sent l1 w) = add_sent (l1 ++ l2) w.
Proof. unfold add_sent; simpl. now rewrite app_assoc. Qed.

Section Delivered.

Variable deliver : Notification -> bool.
Hypothesis delivered : forall n, deliver n = true.

Lemma send_run (n : Notification) (w : World) :
  send deliver n w = (add_sent [n] w, Ok tt).
Proof. unfold send. now rewrite delivered. Qed.

Lemma when_send_run (b : bool) (n : Notification) (w : World) :
  when b (send deliver n) w = (add_sent (if b then [n] else []) w, Ok tt).
Proof.
  destruct b; simpl; [apply send_run|]. now rewrite add_sent_nil.
Qed.

Lemma check_thresholds_run (skin : Skin) (newData : SkinData) (p : Q)
      (w : World) :
  check_thresholds deliver skin newData p w
  = (add_sent (threshold_calls skin newData p) w, Ok tt).
Proof.
  unfold check_thresholds, threshold_calls.
  destruct (skin_thresholds skin) as [th|].
  - rewrite bind_run, when_send_run, when_send_run, add_sent_app. reflexivity.
  - unfold ret. now rewrite add_sent_nil.
Qed.

End Delivered.

Lemma truthy_iff (x : Q) : truthy x = true <-> ~ x == 0.
Proof.
  unfold truthy. rewrite negb_true_iff, <- not_true_iff_false, Qeq_bool_iff.
  reflexivity.
Qed.

Lemma num_neqb_iff (a b : Q) : num_neqb a b = true <-> ~ a == b.
Proof.
  unfold num_neqb. rewrite negb_true_iff, <- not_true_iff_false, Qeq_bool_iff.
  reflexivity.
Qed.

Lemma high_hit_iff (th : Thresholds) (p : Q) :
  high_hit th p = true
  <-> exists h, th_high th = Some h /\ ~ h == 0 /\ h <= p.
Proof.
  unfold high_hit. destruct (th_high th) as [h|].
  - rewrite andb_true_iff, truthy_iff, Qle_bool_iff. split.
    + intros [H1 H2]. now exists h.
    + intros (h' & [= <-] & H1 & H2). now split.
  - split; [discriminate|intros (h & H & _); discriminate].
Qed.

Lemma low_hit_iff (th : Thresholds) (p : Q) :
  low_hit th p = true
  <-> exists l, th_low th = Some l /\ ~ l == 0 /\ p <= l.
Proof.
  unfold low_hit. destruct (th_low th) as [l|].
  - rewrite andb_true_iff, truthy_iff, Qle_bool_iff. split.
    + intros [H1 H2]. now exists l.
    + intros (l' & [= <-] & H1 & H2). now split.
  - split; [discriminate|intros (l & H & _); discriminate].
Qed.

Lemma threshold_intents_list (skin : Skin) (newData : SkinData) (p : Q) :
  map intent_of (threshold_calls skin newData p)
  = match skin_thresholds skin with
    | Some th => (if high_hit th p then [HighThreshold] else [])
                   ++ (if low_hit th p then [LowThreshold] else [])
    | None => []
    end.
Proof.
  unfold threshold_calls. destruct (skin_thresholds skin) as [th|];
    [|reflexivity].
  destruct (high_hit th p), (low_hit th p); reflexivity.
Qed.

Lemma high_reached (skin : Skin) (p : Q) :
  (exists th h, skin_thresholds skin = Some th /\ th_high th = Some h
                /\ ~ h == 0 /\ h <= p)
  <-> exists th, skin_thresholds skin = Some th /\ high_hit th p = true.
Proof.
  split.
  - intros (th & h & Hth & H). exists th. split; [exact Hth|].
    apply high_hit_iff. now exists h.
  - intros (th & Hth & H). apply high_hit_iff in H as (h & H).
    now exists th, h.
Qed.

Lemma low_reached (skin : Skin) (p : Q) :
  (exists th lo, skin_thresholds skin = Some th /\ th_low th = Some lo
                 /\ ~ lo == 0 /\ p <= lo)
  <-> exists th, skin_thresholds skin = Some th /\ low_hit th p = true.
Proof.
  split.
  - intros (th & lo & Hth & H). exists th. split; [exact Hth|].
    apply low_hit_iff. now exists lo.
  - intros (th & Hth & H). apply low_hit_iff in H as (lo & H).
    now exists th, lo.
Qed.

(** The intents of the threshold block: one per bound that is set to a
    non-zero value and reached by the price. *)
Lemma threshold_calls_intents (skin : Skin) (newData : SkinData) (p : Q) :
  let l := map intent_of (threshold_calls skin newData p) in
  (In HighThreshold l
   <-> exists th h, skin_thresholds skin = Some th /\ th_high th = Some h
                    /\ ~ h == 0 /\ h <= p)
  /\ (In LowThreshold l
      <-> exists th lo, skin_thresholds skin = Some th /\ th_low th = Some lo
                        /\ ~ lo == 0 /\ p <= lo)
  /\ ~ In PriceChange l
  /\ NoDup l.
Proof.
  cbv zeta. rewrite threshold_intents_list, high_reached, low_reached.
  destruct (skin_thresholds skin) as [th|].
  - destruct (high_hit th p) eqn:Eh, (low_hit th p) eqn:El; simpl;
      (split; [|split; [|split]]);
      try (split; [intros H|intros (th0 & [= <-] & H)]);
      try (exists th; split; [reflexivity|assumption]);
      try (repeat constructor; simpl; intuition discriminate);
      try congruence; try tauto; intuition discriminate.
  - simpl. repeat split; try tauto; try constructor;
      intros (th & H & _); discriminate.
Qed.

Lemma update_first_nth (p : Skin -> bool) (f : Skin -> Skin) (l : list Skin) :
  forall i s,
    nth_error l i = Some s ->
    exists s', nth_error (update_first p f l) i = Some s'
               /\ (s' = s \/ s' = f s).
Proof.
  induction l as [|x l IH]; intros [|i] s H; simpl in *; try discriminate.
  - injection H as ->. destruct (p s); simpl; eauto.
  - destruct (p x); simpl; [eauto|]. now apply IH.
Qed.

(** The element the scheduler reads again after the append has the
    thresholds it had before. *)
Lemma thresholds_after_append (t name exterior : jsstring) (sd : SkinData)
      (url : jsstring) (d : TrackermanData) (i : nat) (s : Skin) :
  nth_error (skins d) i = Some s ->
  skin_thresholds
    (nth i (skins (DataManager.addSkinData t name exterior sd url d)) s)
  = skin_thresholds s.
Proof.
  intros H. unfold DataManager.addSkinData.
  destruct (DataManager.getSkin name exterior d); simpl.
  - destruct (update_first_nth (same_key name exterior)
                (DataManager.push_data sd url) (skins d) i H)
      as (s' & H1 & [->| ->]);
      rewrite (nth_error_nth _ _ _ H1); reflexivity.
  - rewrite app_nth1; [|apply nth_error_Some; congruence].
    now rewrite (nth_error_nth _ _ _ H).
Qed.

Lemma threshold_calls_same (s s' : Skin) (nd : SkinData) (p : Q) :
  skin_thresholds s' = skin_thresholds s ->
  map intent_of (threshold_calls s' nd p)
  = map intent_of (threshold_calls s nd p).
Proof.
  unfold threshold_calls. intros ->.
  destruct (skin_thresholds s) as [th|]; [|reflexivity].
  destruct (high_hit th p), (low_hit th p); reflexivity.
Qed.

Lemma checkAndSendNotifications_run (deliver : Notification -> bool)
      (skin : Skin) (newData : SkinData) (w : World) :
  (forall n, deliver n = true) ->
  TrackermanService.checkAndSendNotifications deliver skin newData w
  = (add_sent (service_calls skin newData) w, Ok tt).
Proof.
  intros Hd. unfold TrackermanService.checkAndSendNotifications, service_calls.
  rewrite try_catch_ignore, bind_run.
  destruct (1 <? length (skin_skindata skin)); simpl.
  - destruct (before_last_opt (skin_skindata skin)) as [prev|].
    + rewrite (@when_send_run _ Hd), (@check_thresholds_run _ Hd), add_sent_app.
      reflexivity.
    + unfold ret. rewrite (@check_thresholds_run _ Hd). reflexivity.
  - rewrite (@check_thresholds_run _ Hd). reflexivity.
Qed.

Lemma before_last_opt_Some {A} (l : list A) (x : A) :
  before_last_opt l = Some x -> (1 <? length l) = true.
Proof.
  unfold before_last_opt. destruct (length l <? 2) eqn:E; [discriminate|].
  intros _. apply Nat.ltb_ge in E. apply Nat.ltb_lt. lia.
Qed.

Lemma fetchOne_run (env : Env) (i : nat) (w : World) (skin : Skin)
      (item : SteamMarketItem) (rest : list SteamMarketItem) :
  nth_error (skins (w_data w)) i = Some skin ->
  scrape env i (skin_url skin) AutoScheduler.scrapingOptions
  = Ok (item :: rest) ->
  (forall n, notify env i n = true) ->
  exists w' skin' newData,
    AutoScheduler.fetchOne env i w = (w', Ok tt)
    /\ w_sent w' = w_sent w ++ scheduler_calls skin skin' newData item
    /\ skin_thresholds skin' = skin_thresholds skin.
Proof.
  intros Hs Hscrape Hd. unfold AutoScheduler.fetchOne. rewrite Hs.
  rewrite try_catch_ignore. unfold AutoScheduler.fetchBody.
  rewrite bind_run. unfold request. rewrite Hscrape. cbv beta iota.
  rewrite bind_run. simpl. rewrite bind_run. simpl.
  rewrite bind_run. unfold get_data at 1. cbv beta iota.
  rewrite bind_run, (@when_send_run _ Hd), (@check_thresholds_run _ Hd).
  rewrite add_sent_app. simpl.
  eexists _, _, _. split; [reflexivity|]. split; [reflexivity|].
  now apply thresholds_after_append.
Qed.

Lemma priceChanged_iff (previousData : option SkinData) (item : SteamMarketItem) :
  AutoScheduler.priceChanged previousData item = true
  <-> previousData = None
      \/ exists prev, previousData = Some prev
                      /\ ~ sd_price prev == item_price item.
Proof.
  unfold AutoScheduler.priceChanged. destruct previousData as [prev|].
  - rewrite num_neqb_iff. split.
    + intros H. right. now exists prev.
    + intros [H|(p & [= <-] & H)]; [discriminate|exact H].
  - split; [now left|reflexivity].
Qed.

(** A price-update call, made iff [b], followed by the threshold calls. *)
Lemma intents_of_calls (b : bool) (n : Notification)
      (tc : list Notification) (P : Prop) :
  intent_of n = PriceChange ->
  (b = true <-> P) ->
  ~ In PriceChange (map intent_of tc) ->
  NoDup (map intent_of tc) ->
  let calls := (if b then [n] else []) ++ tc in
  (In PriceChange (map intent_of calls) <-> P)
  /\ (In HighThreshold (map intent_of calls)
      <-> In HighThreshold (map intent_of tc))
  /\ (In LowThreshold (map intent_of calls)
      <-> In LowThreshold (map intent_of tc))
  /\ NoDup (map intent_of calls).
Proof.
  intros Hn Hb Hp Hnd. destruct b; simpl; rewrite ?Hn.
  - repeat split.
    + intros _. now apply Hb.
    + intros _. left. reflexivity.
    + intros [H|H]; [discriminate|exact H].
    + intros H. right. exact H.
    + intros [H|H]; [discriminate|exact H].
    + intros H. right. exact H.
    + constructor; assumption.
  - repeat split; try tauto; try assumption.
    all: intros H; try (exfalso; exact (Hp H)); apply Hb in H; discriminate.
Qed.

(** C2 (as the code has it). When no notifier call throws:
    - the service's detector emits a price-change intent iff the stored
      history has an observation before the new one and its price differs;
    - the scheduler's detector emits one iff the item had no observation
      before the append or the price of its last one differs;
    - both emit a high-threshold intent iff a high threshold is set to a
      non-zero value and the new price is >= it, and a low-threshold
      intent iff a low threshold is set to a non-zero value and the new
      price is <= it;
    - the three checks are independent and each intent is emitted at most
      once, so an observation yields up to three intents. *)
Theorem detector_intents :
  (forall deliver skin newData w,
      (forall n, deliver n = true) ->
      exists calls,
        TrackermanService.checkAndSendNotifications deliver skin newData w
        = (add_sent calls w, Ok tt)
        /\ (In PriceChange (map intent_of calls)
            <-> exists prev,
                before_last_opt (skin_skindata skin) = Some prev
                /\ ~ sd_price prev == sd_price newData)
        /\ (In HighThreshold (map intent_of calls)
            <-> exists th h,
                skin_thresholds skin = Some th /\ th_high th = Some h
                /\ ~ h == 0 /\ h <= sd_price newData)
        /\ (In LowThreshold (map intent_of calls)
            <-> exists th lo,
                skin_thresholds skin = Some th /\ th_low th = Some lo
                /\ ~ lo == 0 /\ sd_price newData <= lo)
        /\ NoDup (map intent_of calls))
  /\ (forall env i w skin item rest,
         nth_error (skins (w_data w)) i = Some skin ->
         scrape env i (skin_url skin) AutoScheduler.scrapingOptions
         = Ok (item :: rest) ->
         (forall n, notify env i n = true) ->
         exists w' calls,
           AutoScheduler.fetchOne env i w = (w', Ok tt)
           /\ w_sent w' = w_sent w ++ calls
           /\ (In PriceChange (map intent_of calls)
               <-> last_opt (skin_skindata skin) = None
                   \/ exists prev,
                       last_opt (skin_skindata skin) = Some prev
                       /\ ~ sd_price prev == item_price item)
           /\ (In HighThreshold (map intent_of calls)
               <-> exists th h,
                   skin_thresholds skin = Some th /\ th_high th = Some h
                   /\ ~ h == 0 /\ h <= item_price item)
           /\ (In LowThreshold (map intent_of calls)
               <-> exists th lo,
                   skin_thresholds skin = Some th /\ th_low th = Some lo
                   /\ ~ lo == 0 /\ item_price item <= lo)
           /\ NoDup (map intent_of calls)).
Proof.
  split.
  - intros deliver skin newData w Hd.
    exists (service_calls skin newData).
    split; [now apply checkAndSendNotifications_run|].
    destruct (threshold_calls_intents skin newData (sd_price newData))
      as (Hh & Hl & Hp & Hn).
    set (b := (1 <? length (skin_skindata skin))
              && match before_last_opt (skin_skindata skin) with
                 | Some prev => num_neqb (sd_price prev) (sd_price newData)
                 | None => false
                 end).
    assert (E : service_calls skin newData
                = (if b then [PriceUpdate skin newData] else [])
                    ++ threshold_calls skin newData (sd_price newData)).
    { unfold service_calls, b.
      destruct (1 <? length (skin_skindata skin)); simpl; [|reflexivity].
      destruct (before_last_opt (skin_skindata skin)) as [prev|];
        [|reflexivity].
      destruct (num_neqb (sd_price prev) (sd_price newData)); reflexivity. }
    rewrite E.
    destruct (@intents_of_calls b (PriceUpdate skin newData)
                (threshold_calls skin newData (sd_price newData))
                (exists prev,
                    before_last_opt (skin_skindata skin) = Some prev
                    /\ ~ sd_price prev == sd_price newData)
                eq_refl) as (H1 & H2 & H3 & H4); try assumption.
    { unfold b. rewrite andb_true_iff. split.
      - intros [_ H].
        destruct (before_last_opt (skin_skindata skin)) as [prev|];
          [|discriminate].
        exists prev. split; [reflexivity|now apply num_neqb_iff].
      - intros (prev & Hprev & Hne). rewrite Hprev. split.
        + now apply before_last_opt_Some with (x := prev).
        + now apply num_neqb_iff. }
    cbv zeta in H1, H2, H3, H4. rewrite H2, H3.
    repeat split; try apply H1; try apply Hh; try apply Hl; assumption.
  - intros env i w skin item rest Hs Hscrape Hd.
    destruct (fetchOne_run env i w Hs Hscrape Hd)
      as (w' & skin' & newData & Hrun & Hsent & Hth).
    exists w', (scheduler_calls skin skin' newData item).
    split; [exact Hrun|]. split; [exact Hsent|].
    destruct (threshold_calls_intents skin newData (item_price item))
      as (Hh & Hl & Hp & Hn).
    cbv zeta in Hh, Hl, Hp, Hn.
    rewrite <- (@threshold_calls_same skin skin' newData (item_price item) Hth)
      in Hh, Hl, Hp, Hn.
    unfold scheduler_calls.
    destruct (@intents_of_calls
                (AutoScheduler.priceChanged (last_opt (skin_skindata skin)) item)
                (PriceUpdate skin' newData)
                (threshold_calls skin' newData (item_price item))
                _ eq_refl
                (priceChanged_iff (last_opt (skin_skindata skin)) item) Hp Hn)
      as (H1 & H2 & H3 & H4).
    cbv zeta in H1, H2, H3, H4. rewrite H2, H3.
    repeat split; try apply H1; try apply Hh; try apply Hl; assumption.
Qed.

(** ** The theorems above at sample inputs *)

Lemma append_keeps_one_current_witness :
  fresh_item ak_name ft store_one
  /\ exists s,
      DataManager.getSkin ak_name ft
        (appendAll ak_name ft
           ([mkAppend (observation "t1" 10) ak_url (js "t1");
             mkAppend (observation "t2" 12) ak_url (js "t2")]
              ++ [mkAppend (observation "t3" 11) ak_url (js "t3")])
           store_one) = Some s
      /\ length (skin_skindata s) = 3%nat
      /\ filter (fun x => negb (is_expired x)) (skin_skindata s)
         = [set_expired false (observation "t3" 11)].
Proof.
  split; [reflexivity|].
  destruct (@append_keeps_one_current ak_name ft
              [mkAppend (observation "t1" 10) ak_url (js "t1");
               mkAppend (observation "t2" 12) ak_url (js "t2")]
              (mkAppend (observation "t3" 11) ak_url (js "t3"))
              store_one eq_refl)
    as (s & H1 & _ & _ & H4 & _ & H6 & _).
  exists s. split; [exact H1|]. split; [exact H6|exact H4].
Defined.

Lemma remove_absent_and_add_duplicate_witness :
  DataManager.getSkin (js "Karambit") ft store_one = None
  /\ DataManager.removeSkin (js "t1") (js "Karambit") ft store_one
     = mkData (skins store_one) (js "t1")
  /\ skins (DataManager.removeSkin (js "t1") (js "Karambit") ft store_one)
     = skins store_one
  /\ DataManager.getSkin (skin_name ak_fresh) (skin_exterior ak_fresh)
       store_one <> None
  /\ DataManager.addSkin (js "t1") ak_fresh store_one
     = (store_one, Throw (MkError (DataManager.duplicate_message ak_fresh))).
Proof.
  assert (H1 : DataManager.getSkin (js "Karambit") ft store_one = None)
    by reflexivity.
  assert (H2 : DataManager.getSkin (skin_name ak_fresh) (skin_exterior ak_fresh)
                 store_one <> None) by discriminate.
  split; [exact H1|]. split; [|split; [|split; [exact H2|]]].
  - exact (proj1 (proj1 remove_absent_and_add_duplicate
                    (js "t1") (js "Karambit") ft store_one H1)).
  - exact (proj1 (proj2 (proj1 remove_absent_and_add_duplicate
                           (js "t1") (js "Karambit") ft store_one H1))).
  - exact (proj2 (proj2 remove_absent_and_add_duplicate)
                 (js "t1") ak_fresh store_one H2).
Defined.

(** C8 as stated fails for the removal: removing a pair that is not
    tracked does not leave the store unchanged, since the store is saved
    again and its [lastUpdated] becomes the time of the call; only the
    tracked items are left as they were. *)
Lemma remove_absent_counterexample :
  DataManager.getSkin (js "Karambit") ft store_one = None
  /\ DataManager.removeSkin (js "t1") (js "Karambit") ft store_one
     <> store_one
  /\ lastUpdated store_one = js "t0"
  /\ lastUpdated (DataManager.removeSkin (js "t1") (js "Karambit") ft store_one)
     = js "t1"
  /\ skins (DataManager.removeSkin (js "t1") (js "Karambit") ft store_one)
     = skins store_one.
Proof. repeat split. discriminate. Qed.

Lemma cycle_isolates_failures_witness :
  let env := mkEnv (scrape env_second_fails) (notify env_second_fails)
                   (fun k => [(48 + N.of_nat k)%N]) in
  let observed := fun (s : Skin) (t : jsstring) =>
                    mkSkin (skin_name s) (skin_exterior s) (skin_url s)
                           [mkSkinData t 5 (js "$") (Some (js "search_1"))
                                       (Some []) None (Some false)]
                           (skin_thresholds s) in
  skins (w_data (world_of store_three)) <> []
  /\ NoDup (map keyOf (skins (w_data (world_of store_three))))
  /\ exists w',
      AutoScheduler.executeScheduledFetch env (mkAuto true 30 None)
                                          (world_of store_three) = (w', Ok tt)
      /\ autoScheduler (w_settings w') = mkAuto true 30 (Some (js "4"))
      /\ nth_error (skins (w_data w')) 0 = Some (observed ak_fresh (js "0"))
      /\ nth_error (skins (w_data w')) 1 = Some awp_fresh
      /\ nth_error (skins (w_data w')) 2 = Some (observed m4_fresh (js "2"))
      /\ length (skins (w_data w')) = 3%nat.
Proof.
  intros env observed.
  assert (H1 : skins (w_data (world_of store_three)) <> []) by discriminate.
  assert (H2 : NoDup (map keyOf (skins (w_data (world_of store_three))))).
  { repeat constructor; simpl; intuition discriminate. }
  split; [exact H1|]. split; [exact H2|].
  destruct (@cycle_isolates_failures env (mkAuto true 30 None)
              (world_of store_three) H1 H2)
    as (w' & Hrun & Hset & _ & _ & Hlen & Hitems).
  exists w'. split; [exact Hrun|]. split; [rewrite Hset; reflexivity|].
  destruct (Hitems 0%nat ak_fresh eq_refl) as (s0 & N0 & E0).
  destruct (Hitems 1%nat awp_fresh eq_refl) as (s1 & N1 & E1).
  destruct (Hitems 2%nat m4_fresh eq_refl) as (s2 & N2 & E2).
  split; [rewrite N0; f_equal; exact E0|].
  split; [rewrite N1; f_equal; exact E1|].
  split; [rewrite N2; f_equal; exact E2|].
  exact Hlen.
Defined.

Lemma empty_cycle_changes_nothing_witness :
  skins (w_data (world_of (mkData [] (js "t0")))) = []
  /\ AutoScheduler.manualTrigger (env_price 5) (mkAuto true 30 None)
       (world_of (mkData [] (js "t0")))
     = (world_of (mkData [] (js "t0")), Ok tt).
Proof.
  split; [reflexivity|].
  exact (proj2 (@empty_cycle_changes_nothing (env_price 5) (mkAuto true 30 None)
                  (world_of (mkData [] (js "t0"))) eq_refl)).
Defined.

Lemma detector_intents_witness :
  (exists calls,
      TrackermanService.checkAndSendNotifications (fun _ => true)
        (ak_after 100 sample_thresholds)
        (set_expired false (observation "t2" 100)) (world_of store_one)
      = (add_sent calls (world_of store_one), Ok tt)
      /\ In HighThreshold (map intent_of calls)
      /\ In PriceChange (map intent_of calls)
      /\ ~ In LowThreshold (map intent_of calls))
  /\ (exists w' calls,
         AutoScheduler.fetchOne (env_price 20) 0 (world_of store_one)
         = (w', Ok tt)
         /\ w_sent w' = w_sent (world_of store_one) ++ calls
         /\ In LowThreshold (map intent_of calls)
         /\ ~ In HighThreshold (map intent_of calls)).
Proof.
  split.
  - destruct (proj1 detector_intents (fun _ => true)
                (ak_after 100 sample_thresholds)
                (set_expired false (observation "t2" 100))
                (world_of store_one) (fun _ => eq_refl))
      as (calls & Hrun & Hp & Hh & Hl & _).
    exists calls. split; [exact Hrun|]. split; [|split].
    + apply Hh. exists sample_thresholds, 100. repeat split; discriminate.
    + apply Hp. eexists. split; [reflexivity|]. discriminate.
    + intros H. apply Hl in H. destruct H as (th & lo & [= <-] & [= <-] & _ & H).
      now apply H.
  - destruct (proj2 detector_intents (env_price 20) 0%nat (world_of store_one)
                ak_fresh (sample_item 20) [] eq_refl eq_refl (fun _ => eq_refl))
      as (w' & calls & Hrun & Hsent & _ & Hh & Hl & _).
    exists w', calls. split; [exact Hrun|]. split; [exact Hsent|]. split.
    + apply Hl. exists sample_thresholds, 20. repeat split; discriminate.
    + intros H. apply Hh in H. destruct H as (th & h & [= <-] & [= <-] & _ & H).
      now apply H.
Defined.

(** C2 as stated fails on the code in three ways.  The scheduler announces
    the first observation of an item as a price change; a threshold set
    to 0 is taken as not set; and when the price-update call throws, the
    threshold checks of that observation are skipped. *)
Lemma detector_counterexample :
  (skin_skindata ak_fresh = []
   /\ map intent_of
        (w_sent (fst (AutoScheduler.fetchOne (env_price 50) 0
                        (world_of store_one))))
      = [PriceChange])
  /\ (0 <= 5
      /\ map intent_of
           (w_sent (fst (TrackermanService.checkAndSendNotifications
                           (fun _ => true)
                           (ak_after 5 (mkThresholds (Some 0) None))
                           (set_expired false (observation "t2" 5))
                           (world_of store_one))))
         = [PriceChange])
  /\ (100 <= 150
      /\ map intent_of
           (w_sent (fst (TrackermanService.checkAndSendNotifications
                           (fun n => match n with
                                     | PriceUpdate _ _ => false
                                     | ThresholdHit _ _ _ => true
                                     end)
                           (ak_after 150 sample_thresholds)
                           (set_expired false (observation "t2" 150))
                           (world_of store_one))))
         = [PriceChange]).
Proof.
  repeat split; discriminate.
Qed.

(** ** Price normalisation *)

Lemma in_range_iff (lo hi c : N) :
  in_range lo hi c = true <-> (lo <= c <= hi)%N.
Proof.
  unfold in_range. rewrite andb_true_iff, !N.leb_le. reflexivity.
Qed.

Lemma keepPriceChar_range (c : N) :
  keepPriceChar c = true -> (44 <= c <= 57)%N.
Proof.
  unfold keepPriceChar, isDigit, comma, dot.
  rewrite !orb_true_iff, in_range_iff, !N.eqb_eq. lia.
Qed.

Lemma isDigit_keep (c : N) : isDigit c = true -> keepPriceChar c = true.
Proof. unfold keepPriceChar. now intros ->. Qed.

Lemma range_not_space (c : N) : (44 <= c <= 57)%N -> isSpace c = false.
Proof.
  intros H. unfold isSpace.
  repeat (apply orb_false_iff; split);
    try (apply N.eqb_neq; lia);
    apply not_true_iff_false; rewrite in_range_iff; lia.
Qed.

Lemma range_not_currency (c : N) :
  (44 <= c <= 57)%N -> isCurrencySymbol c = false.
Proof.
  intros H. unfold isCurrencySymbol.
  repeat (apply orb_false_iff; split);
    try (apply N.eqb_neq; lia);
    apply not_true_iff_false; rewrite in_range_iff; lia.
Qed.

Lemma joinDigits_three (a b c : N) (r : jsstring) :
  joinDigits (a :: b :: c :: r)
  = if isDigit a && isSpace b && isDigit c
    then a :: c :: joinDigits r
    else a :: joinDigits (b :: c :: r).
Proof. reflexivity. Qed.

Lemma joinDigits_no_space (s : jsstring) :
  forallb (fun c => negb (isSpace c)) s = true -> joinDigits s = s.
Proof.
  induction s as [|a t IH]; [reflexivity|].
  intros H. cbn [forallb] in H. apply andb_true_iff in H as [Ha Ht].
  specialize (IH Ht).
  destruct t as [|b [|c r]].
  - reflexivity.
  - change (joinDigits [a; b]) with (a :: joinDigits [b]). now rewrite IH.
  - rewrite joinDigits_three.
    cbn [forallb] in Ht. apply andb_true_iff in Ht as [Hb _].
    apply negb_true_iff in Hb. rewrite Hb, andb_false_r. cbv iota.
    now rewrite IH.
Qed.

Lemma forallb_filter_keep (text : jsstring) :
  forallb keepPriceChar (filter keepPriceChar text) = true.
Proof.
  induction text as [|c text IH]; simpl; [reflexivity|].
  destruct (keepPriceChar c) eqn:E; simpl; [now rewrite E|exact IH].
Qed.

Lemma forallb_impl {A} (p q : A -> bool) (l : list A) :
  (forall x, p x = true -> q x = true) ->
  forallb p l = true -> forallb q l = true.
Proof.
  intros H. induction l as [|x l IH]; simpl; [reflexivity|].
  rewrite !andb_true_iff. intros [Hx Hl]. split; [now apply H|now apply IH].
Qed.

(** The second [replace] of [parsePrice] never finds a match: the first
    one has removed the white space. *)
Lemma normalize_filter (text : jsstring) :
  normalize text = filter keepPriceChar text.
Proof.
  unfold normalize. apply joinDigits_no_space.
  apply forallb_impl with (p := keepPriceChar); [|apply forallb_filter_keep].
  intros c Hc. apply negb_true_iff, range_not_space, keepPriceChar_range, Hc.
Qed.

(** Only digits, commas and dots reach [parseFloat]. *)
Lemma normalized_alphabet (text : jsstring) :
  forallb keepPriceChar (normalize text) = true.
Proof. rewrite normalize_filter. apply forallb_filter_keep. Qed.

Lemma parsePrice_numeral (text : jsstring) :
  price (parsePrice text) = or_zero (parseFloat (numeral (normalize text))).
Proof.
  unfold parsePrice, numeral; simpl.
  destruct (endsCommaTwoDigits (normalize text) && hasDot (normalize text));
    [reflexivity|].
  destruct (endsCommaTwoDigits (normalize text)); reflexivity.
Qed.

Lemma decimalValue_nonneg (ip fp : jsstring) : 0 <= decimalValue ip fp.
Proof.
  unfold decimalValue. rewrite Qred_correct. unfold Qle; simpl. lia.
Qed.

Lemma parseFloat_nonneg (s : jsstring) (q : Q) :
  parseFloat s = Some q -> 0 <= q.
Proof.
  unfold parseFloat.
  destruct (takeDigits s);
    destruct (match dropDigits s with
              | [] => []
              | c :: r => if (c =? dot)%N then takeDigits r else []
              end);
    intros [= <-] || discriminate; apply decimalValue_nonneg.
Qed.

Lemma or_zero_nonneg (x : option Q) :
  (forall q, x = Some q -> 0 <= q) -> 0 <= or_zero x.
Proof.
  intros H. unfold or_zero. destruct x as [q|]; [|apply Qle_refl].
  destruct (truthy q); [now apply H|apply Qle_refl].
Qed.

Lemma takeDigits_no_digit (s : jsstring) :
  forallb (fun c => negb (isDigit c)) s = true -> takeDigits s = [].
Proof.
  destruct s as [|c s]; [reflexivity|]. simpl.
  rewrite andb_true_iff. intros [H _]. apply negb_true_iff in H. now rewrite H.
Qed.

Lemma dropDigits_no_digit (s : jsstring) :
  forallb (fun c => negb (isDigit c)) s = true -> dropDigits s = s.
Proof.
  destruct s as [|c s]; [reflexivity|]. simpl.
  rewrite andb_true_iff. intros [H _]. apply negb_true_iff in H. now rewrite H.
Qed.

Lemma parseFloat_no_digit (s : jsstring) :
  forallb (fun c => negb (isDigit c)) s = true -> parseFloat s = None.
Proof.
  intros H. unfold parseFloat.
  rewrite (takeDigits_no_digit _ H), (dropDigits_no_digit _ H).
  destruct s as [|c r]; [reflexivity|].
  destruct (c =? dot)%N; [|reflexivity].
  simpl in H. apply andb_true_iff in H as [_ H].
  now rewrite (takeDigits_no_digit _ H).
Qed.

Lemma no_digit_filter (p : N -> bool) (s : jsstring) :
  forallb (fun c => negb (isDigit c)) s = true ->
  forallb (fun c => negb (isDigit c)) (filter p s) = true.
Proof.
  induction s as [|c s IH]; simpl; [reflexivity|].
  rewrite andb_true_iff. intros [Hc Hs].
  destruct (p c); simpl; [rewrite Hc|]; now apply IH.
Qed.

Lemma no_digit_commaToDot (s : jsstring) :
  forallb (fun c => negb (isDigit c)) s = true ->
  forallb (fun c => negb (isDigit c)) (commaToDot s) = true.
Proof.
  induction s as [|c s IH]; simpl; [reflexivity|].
  rewrite andb_true_iff. intros [Hc Hs].
  destruct (c =? comma)%N; simpl; [exact Hs|]. rewrite Hc. now apply IH.
Qed.

Lemma no_digit_numeral (s : jsstring) :
  forallb (fun c => negb (isDigit c)) s = true ->
  forallb (fun c => negb (isDigit c)) (numeral s) = true.
Proof.
  intros H. unfold numeral, removeAll.
  destruct (endsCommaTwoDigits s && hasDot s);
    [now apply no_digit_commaToDot, no_digit_filter|].
  destruct (endsCommaTwoDigits s);
    [now apply no_digit_commaToDot|now apply no_digit_filter].
Qed.

Lemma currency_default (text : jsstring) :
  forallb (fun c => negb (isCurrencySymbol c)) text = true ->
  currency (parsePrice text) = js "$".
Proof.
  intros H. unfold parsePrice; simpl.
  destruct (find isCurrencySymbol text) as [c|] eqn:E; [|reflexivity].
  apply find_some in E as [Hin Hc].
  rewrite forallb_forall in H. specialize (H c Hin).
  rewrite Hc in H. discriminate.
Qed.

(** C6. [parsePrice] is total; the amount is never negative; it is 0 when
    [parseFloat] finds no number in the normalised text, in particular
    when the input has no digit; and the currency is "$" when the input
    has no currency symbol. *)
Theorem parsePrice_total (text : jsstring) :
  0 <= price (parsePrice text)
  /\ (parseFloat (numeral (normalize text)) = None ->
      price (parsePrice text) = 0)
  /\ (forallb (fun c => negb (isDigit c)) text = true ->
      price (parsePrice text) = 0)
  /\ (forallb (fun c => negb (isCurrencySymbol c)) text = true ->
      currency (parsePrice text) = js "$").
Proof.
  rewrite parsePrice_numeral. repeat split.
  - apply or_zero_nonneg. intros q. apply parseFloat_nonneg.
  - intros ->. reflexivity.
  - intros H. rewrite parseFloat_no_digit; [reflexivity|].
    apply no_digit_numeral. rewrite normalize_filter.
    now apply no_digit_filter.
  - apply currency_default.
Qed.

Lemma parsePrice_total_witness :
  forallb (fun c => negb (isDigit c)) (js "Sold!") = true
  /\ forallb (fun c => negb (isCurrencySymbol c)) (js "Sold!") = true
  /\ price (parsePrice (js "Sold!")) = 0
  /\ currency (parsePrice (js "Sold!")) = js "$".
Proof.
  split; [reflexivity|]. split; [reflexivity|]. split.
  - exact (proj1 (proj2 (proj2 (parsePrice_total (js "Sold!")))) eq_refl).
  - exact (proj2 (proj2 (proj2 (parsePrice_total (js "Sold!")))) eq_refl).
Defined.

(** ** Re-normalising a rendered amount *)

Lemma Qred_idem (q : Q) : Qred (Qred q) = Qred q.
Proof. apply Qred_complete, Qred_correct. Qed.

Lemma canonical_eq (a b : Q) : Qred a = a -> Qred b = b -> a == b -> a = b.
Proof. intros Ha Hb H. rewrite <- Ha, <- Hb. now apply Qred_complete. Qed.

Lemma decimalValue_canonical (ip fp : jsstring) :
  Qred (decimalValue ip fp) = decimalValue ip fp.
Proof. unfold decimalValue. apply Qred_idem. Qed.

Lemma parseFloat_canonical (s : jsstring) (q : Q) :
  parseFloat s = Some q -> Qred q = q.
Proof.
  unfold parseFloat.
  destruct (takeDigits s);
    destruct (match dropDigits s with
              | [] => []
              | c :: r => if (c =? dot)%N then takeDigits r else []
              end);
    intros [= <-] || discriminate; apply decimalValue_canonical.
Qed.

Lemma or_zero_canonical (x : option Q) :
  (forall q, x = Some q -> Qred q = q) -> Qred (or_zero x) = or_zero x.
Proof.
  intros H. unfold or_zero. destruct x as [q|]; [|reflexivity].
  destruct (truthy q); [now apply H|reflexivity].
Qed.

Lemma price_canonical (text : jsstring) :
  Qred (price (parsePrice text)) = price (parsePrice text).
Proof.
  rewrite parsePrice_numeral. apply or_zero_canonical.
  intros q. apply parseFloat_canonical.
Qed.

Lemma or_zero_value (q : Q) : or_zero (Some q) == q.
Proof.
  unfold or_zero. destruct (truthy q) eqn:E; [reflexivity|].
  apply not_true_iff_false in E. rewrite truthy_iff in E.
  symmetry. destruct (Qeq_dec q 0) as [H|H]; [exact H|contradiction].
Qed.

Lemma takeDigits_all (ip : jsstring) :
  forallb isDigit ip = true -> takeDigits ip = ip /\ dropDigits ip = [].
Proof.
  induction ip as [|c ip IH]; simpl; [split; reflexivity|].
  rewrite andb_true_iff. intros [Hc Hip]. rewrite Hc.
  destruct (IH Hip) as [-> ->]. split; reflexivity.
Qed.

Lemma takeDigits_dot (ip r : jsstring) :
  forallb isDigit ip = true ->
  takeDigits (ip ++ dot :: r) = ip /\ dropDigits (ip ++ dot :: r) = dot :: r.
Proof.
  induction ip as [|c ip IH]; simpl; [split; reflexivity|].
  rewrite andb_true_iff. intros [Hc Hip]. rewrite Hc.
  destruct (IH Hip) as [-> ->]. split; reflexivity.
Qed.

(** [parseFloat] reads a dot-decimal numeral as the amount it denotes. *)
Lemma parseFloat_rendering (ip fp : jsstring) :
  ip <> [] ->
  forallb isDigit ip = true ->
  forallb isDigit fp = true ->
  parseFloat (ip ++ match fp with [] => [] | _ :: _ => dot :: fp end)
  = Some (decimalValue ip fp).
Proof.
  intros Hne Hip Hfp. unfold parseFloat. destruct fp as [|d fp].
  - rewrite app_nil_r. destruct (takeDigits_all ip Hip) as [-> ->].
    destruct ip; [contradiction|reflexivity].
  - destruct (takeDigits_dot ip (d :: fp) Hip) as [-> ->].
    rewrite N.eqb_refl. destruct (takeDigits_all (d :: fp) Hfp) as [-> _].
    destruct ip; [contradiction|reflexivity].
Qed.

Lemma endsCommaTwoDigits_comma (s : jsstring) :
  endsCommaTwoDigits s = true -> In comma s.
Proof.
  unfold endsCommaTwoDigits. intros H. apply in_rev.
  destruct (rev s) as [|d2 [|d1 [|c r]]]; try discriminate.
  apply andb_true_iff in H as [H _]. apply andb_true_iff in H as [H _].
  apply N.eqb_eq in H. subst. right; right; now left.
Qed.

Lemma numeralChar_range (c : N) :
  numeralChar c = true -> (44 <= c <= 57)%N /\ c <> comma.
Proof.
  unfold numeralChar, isDigit, dot, comma.
  rewrite orb_true_iff, in_range_iff, N.eqb_eq. lia.
Qed.

Lemma numeralChar_keep (c : N) : numeralChar c = true -> keepPriceChar c = true.
Proof.
  unfold numeralChar, keepPriceChar. rewrite !orb_true_iff. tauto.
Qed.

Lemma rendering_chars (ip fp : jsstring) :
  forallb isDigit ip = true ->
  forallb isDigit fp = true ->
  forallb numeralChar
    (ip ++ match fp with [] => [] | _ :: _ => dot :: fp end) = true.
Proof.
  intros Hip Hfp. rewrite forallb_app. apply andb_true_iff. split.
  - apply forallb_impl with (p := isDigit); [|exact Hip].
    intros c Hc. unfold numeralChar. now rewrite Hc.
  - destruct fp as [|d fp]; [reflexivity|].
    change (numeralChar dot && forallb numeralChar (d :: fp) = true).
    apply andb_true_iff. split; [reflexivity|].
    apply forallb_impl with (p := isDigit); [|exact Hfp].
    intros c Hc. unfold numeralChar. now rewrite Hc.
Qed.

(** A dot-decimal numeral goes through the normalisation unchanged. *)
Lemma numeral_of_rendering (s : jsstring) :
  forallb numeralChar s = true -> numeral (normalize s) = s.
Proof.
  intros H. rewrite forallb_forall in H.
  assert (Hn : normalize s = s).
  { rewrite normalize_filter. apply filter_keep_all.
    intros c Hc. apply numeralChar_keep, H, Hc. }
  assert (Hc : ~ In comma s).
  { intros Hin. apply H, numeralChar_range in Hin. now destruct Hin. }
  rewrite Hn. unfold numeral.
  destruct (endsCommaTwoDigits s) eqn:E;
    [apply endsCommaTwoDigits_comma in E; contradiction|].
  simpl. unfold removeAll. apply filter_keep_all.
  intros c Hin. apply negb_true_iff, N.eqb_neq. intros ->. contradiction.
Qed.

(** C9 (as the code has it). Normalising any dot-decimal rendering of
    the amount obtained from an input gives that amount again; the
    currency of the second result is "$", since the rendering of an
    amount holds no currency symbol: it is the currency of the first
    result only when that one was "$". *)
Theorem renormalize_rendering (text s : jsstring) :
  dot_decimal_rendering (price (parsePrice text)) s ->
  price (parsePrice s) = price (parsePrice text)
  /\ currency (parsePrice s) = js "$"
  /\ (currency (parsePrice text) = js "$" -> parsePrice s = parsePrice text).
Proof.
  intros (ip & fp & Hne & Hip & Hfp & -> & Hval).
  pose proof (rendering_chars ip fp Hip Hfp) as Hchars.
  set (s := ip ++ match fp with [] => [] | _ :: _ => dot :: fp end) in *.
  assert (Hprice : price (parsePrice s) = price (parsePrice text)).
  { apply canonical_eq; try apply price_canonical.
    rewrite (parsePrice_numeral s), (numeral_of_rendering s Hchars).
    unfold s. rewrite (@parseFloat_rendering ip fp Hne Hip Hfp), or_zero_value.
    exact Hval. }
  assert (Hcur : currency (parsePrice s) = js "$").
  { apply currency_default.
    apply forallb_impl with (p := numeralChar); [|exact Hchars].
    intros c Hc. apply negb_true_iff, range_not_currency.
    now apply numeralChar_range. }
  repeat split; try assumption.
  intros H. destruct (parsePrice s), (parsePrice text); simpl in *. congruence.
Qed.

Lemma decimalValue_leading_zero (fp : jsstring) :
  decimalValue [48%N] fp = decimalValue [] fp.
Proof. reflexivity. Qed.

Lemma takeDigits_digits (s : jsstring) : forallb isDigit (takeDigits s) = true.
Proof.
  induction s as [|c s IH]; simpl; [reflexivity|].
  destruct (isDigit c) eqn:E; simpl; [now rewrite E|reflexivity].
Qed.

(** Every amount [parsePrice] returns has a dot-decimal rendering. *)
Lemma rendering_exists (text : jsstring) :
  exists s, dot_decimal_rendering (price (parsePrice text)) s.
Proof.
  assert (Hzero : exists s, dot_decimal_rendering 0 s).
  { exists (js "0"), (js "0"), []. repeat split. discriminate. }
  rewrite parsePrice_numeral.
  destruct (parseFloat (numeral (normalize text))) as [q|] eqn:E;
    [|exact Hzero].
  unfold or_zero. destruct (truthy q); [|exact Hzero].
  unfold parseFloat in E.
  set (ip := takeDigits (numeral (normalize text))) in *.
  set (fp := match dropDigits (numeral (normalize text)) with
             | [] => []
             | c :: r => if (c =? dot)%N then takeDigits r else []
             end) in *.
  assert (Hip : forallb isDigit ip = true) by apply takeDigits_digits.
  assert (Hfp : forallb isDigit fp = true).
  { unfold fp. destruct (dropDigits (numeral (normalize text))) as [|c r];
      [reflexivity|].
    destruct (c =? dot)%N; [apply takeDigits_digits|reflexivity]. }
  destruct ip as [|d ip].
  - destruct fp as [|d fp]; [discriminate|]. injection E as <-.
    eexists. exists [48%N], (d :: fp).
    split; [discriminate|]. split; [reflexivity|]. split; [exact Hfp|].
    split; [reflexivity|]. now rewrite decimalValue_leading_zero.
  - assert (E' : q = decimalValue (d :: ip) fp)
      by (destruct fp; now injection E as <-).
    subst q. eexists. exists (d :: ip), fp.
    split; [discriminate|]. split; [exact Hip|]. split; [exact Hfp|].
    split; reflexivity.
Qed.

Lemma renormalize_rendering_witness :
  dot_decimal_rendering (price (parsePrice (js "$1,234.56"))) (js "1234.56")
  /\ parsePrice (js "1234.56") = parsePrice (js "$1,234.56").
Proof.
  assert (H : dot_decimal_rendering (price (parsePrice (js "$1,234.56")))
                                    (js "1234.56")).
  { exists (js "1234"), (js "56"). repeat split. discriminate. }
  split; [exact H|].
  exact (proj2 (proj2 (renormalize_rendering (js "$1,234.56") H)) eq_refl).
Defined.

(** C9 as stated fails on the currency: an amount read from a price in
    euros is rendered without a symbol and read again in dollars. *)
Lemma renormalize_counterexample :
  dot_decimal_rendering (price (parsePrice (8364%N :: js "12,50")))
                        (js "12.5")
  /\ price (parsePrice (js "12.5")) = price (parsePrice (8364%N :: js "12,50"))
  /\ currency (parsePrice (8364%N :: js "12,50")) = [8364%N]
  /\ currency (parsePrice (js "12.5")) = js "$"
  /\ currency (parsePrice (js "12.5"))
     <> currency (parsePrice (8364%N :: js "12,50")).
Proof.
  split; [exists (js "12"), (js "5"); repeat split; discriminate|].
  repeat split. discriminate.
Qed.

(** ** The name and exterior classifier *)

Lemma classify_none (exts : list jsstring) (label : jsstring) :
  (forall e, In e exts -> contains label e = false) ->
  classify exts label = (unknown, label).
Proof.
  induction exts as [|e exts IH]; intros H; simpl; [reflexivity|].
  fold (contains label e). rewrite (H e (or_introl eq_refl)).
  apply IH. intros e' He'. apply H. now right.
Qed.

(** The loop stops at the first keyword, in priority order, that the
    label contains. *)
Lemma classify_hit (before : list jsstring) (k : jsstring)
      (after : list jsstring) (label : jsstring) :
  (forall e, In e before -> contains label e = false) ->
  contains label k = true ->
  classify (before ++ k :: after) label = (k, trim (removeWord k label)).
Proof.
  induction before as [|e before IH]; intros Hb Hk; simpl.
  - fold (contains label k). now rewrite Hk.
  - fold (contains label e). rewrite (Hb e (or_introl eq_refl)).
    apply IH; [|exact Hk]. intros e' He'. apply Hb. now right.
Qed.

Lemma exteriors_NoDup : NoDup exteriors.
Proof.
  repeat constructor; simpl; intuition discriminate.
Qed.

Lemma classify_only (k label : jsstring) :
  In k exteriors ->
  contains label k = true ->
  (forall k', In k' exteriors -> k' <> k -> contains label k' = false) ->
  classify exteriors label = (k, trim (removeWord k label)).
Proof.
  intros Hin Hk Hothers.
  destruct (in_split _ _ Hin) as (before & after & E).
  rewrite E. apply classify_hit; [|exact Hk].
  intros e He. apply Hothers.
  - rewrite E. apply in_or_app. now left.
  - intros ->. pose proof exteriors_NoDup as Hnd. rewrite E in Hnd.
    apply NoDup_remove_2 in Hnd. apply Hnd. apply in_or_app. now left.
Qed.

(** *** Removal of the keyword *)

Lemma removeFrom_noMatch (ext : jsstring) (s : jsstring) :
  forall prev,
    noMatchb ext prev s (length s) = true -> removeFrom ext 0 prev s = s.
Proof.
  induction s as [|c s IH]; intros prev H; [reflexivity|].
  cbn [length noMatchb] in H. apply andb_true_iff in H as [H1 H2].
  apply negb_true_iff in H1. cbn [removeFrom]. rewrite H1.
  now rewrite IH.
Qed.

Lemma removeFrom_prefix (ext : jsstring) (pre rest : jsstring) :
  forall prev,
    noMatchb ext prev (pre ++ rest) (length pre) = true ->
    removeFrom ext 0 prev (pre ++ rest)
    = pre ++ removeFrom ext 0 (lastChar prev pre) rest.
Proof.
  induction pre as [|c pre IH]; intros prev H; [reflexivity|].
  cbn [length app noMatchb] in H. apply andb_true_iff in H as [H1 H2].
  apply negb_true_iff in H1.
  change ((c :: pre) ++ rest) with (c :: (pre ++ rest)).
  cbn [removeFrom]. rewrite H1. rewrite (IH (Some c) H2). reflexivity.
Qed.

Lemma removeFrom_skip (ext : jsstring) (a b : jsstring) :
  forall prev,
    removeFrom ext (length a) prev (a ++ b)
    = removeFrom ext 0 (lastChar prev a) b.
Proof.
  induction a as [|c a IH]; intros prev; [reflexivity|].
  cbn [length app removeFrom]. apply IH.
Qed.

(** When the keyword occurs once as a phrase between word boundaries,
    exactly that occurrence is taken out of the label. *)
Lemma removeWord_occurrence (ext pre occ post : jsstring) :
  length occ = length ext ->
  ext <> [] ->
  noMatchb ext None (pre ++ occ ++ post) (length pre) = true ->
  matchesHere ext (lastChar None pre) (occ ++ post) = true ->
  noMatchb ext (lastChar None occ) post (length post) = true ->
  removeWord ext (pre ++ occ ++ post) = pre ++ post.
Proof.
  intros Hlen Hne Hpre Hocc Hpost. unfold removeWord.
  rewrite (removeFrom_prefix _ _ _ _ Hpre). f_equal.
  destruct occ as [|c occ].
  { destruct ext; [contradiction|discriminate]. }
  change ((c :: occ) ++ post) with (c :: (occ ++ post)) in *.
  cbn [removeFrom]. rewrite Hocc.
  assert (E : (length ext - 1)%nat = length occ)
    by (rewrite <- Hlen; simpl; lia).
  rewrite E, removeFrom_skip.
  now apply removeFrom_noMatch.
Qed.

(** *** Detection and removal agree on what an occurrence is *)

Lemma canonicalize_cases (y : N) :
  ((97 <= y <= 122)%N /\ canonicalize y = (y - 32)%N)
  \/ (~ (97 <= y <= 122)%N /\ canonicalize y = y).
Proof.
  unfold canonicalize. destruct (in_range 97 122 y) eqn:E.
  - left. apply in_range_iff in E. now split.
  - right. apply not_true_iff_false in E. rewrite in_range_iff in E.
    now split.
Qed.

Lemma lowerCodePoint_cases (y : N) :
  ((65 <= y <= 90)%N /\ lowerCodePoint y = [(y + 32)%N])
  \/ (y = 304%N) \/ (y = 8490%N)
  \/ (~ (65 <= y <= 90)%N /\ lowerCodePoint y = [y]).
Proof.
  unfold lowerCodePoint. destruct (in_range 65 90 y) eqn:E.
  - left. apply in_range_iff in E. now split.
  - apply not_true_iff_false in E. rewrite in_range_iff in E.
    destruct (N.eqb_spec y 304); [now right; left|].
    destruct (N.eqb_spec y 8490); [now right; right; left|].
    right; right; right. now split.
Qed.

Lemma keywordChar_cases (x : N) :
  keywordChar x = true ->
  (65 <= x <= 90)%N \/ (97 <= x <= 122)%N \/ x = 32%N \/ x = 45%N.
Proof.
  unfold keywordChar. rewrite !orb_true_iff, !in_range_iff, !N.eqb_eq. tauto.
Qed.

(** A character that matches a keyword character under the [i] flag has
    the same lower case. *)
Lemma ci_lower (x y : N) :
  keywordChar x = true ->
  char_eq_ci x y = true ->
  exists c, lowerCodePoint x = [c] /\ lowerCodePoint y = [c].
Proof.
  intros Hx Hxy. apply keywordChar_cases in Hx.
  unfold char_eq_ci in Hxy. apply N.eqb_eq in Hxy.
  destruct (canonicalize_cases x) as [[Hx1 Ex]|[Hx1 Ex]];
    destruct (canonicalize_cases y) as [[Hy1 Ey]|[Hy1 Ey]];
    rewrite Ex, Ey in Hxy;
    destruct (lowerCodePoint_cases x) as [[Hx2 Lx]|[Hx2|[Hx2|[Hx2 Lx]]]];
    destruct (lowerCodePoint_cases y) as [[Hy2 Ly]|[Hy2|[Hy2|[Hy2 Ly]]]];
    try lia;
    rewrite Lx, Ly; eexists; split; try reflexivity; f_equal; lia.
Qed.

Lemma startsWith_ci_lower (k : jsstring) :
  forallb keywordChar k = true ->
  forall s,
    startsWith_ci k s = true ->
    startsWith (toLowerCase k) (toLowerCase s) = true.
Proof.
  induction k as [|x k IH]; intros Hk s H; [reflexivity|].
  destruct s as [|y s]; [discriminate|].
  cbn [forallb] in Hk. apply andb_true_iff in Hk as [Hx Hk].
  cbn [startsWith_ci] in H. apply andb_true_iff in H as [Hxy H].
  destruct (ci_lower x y Hx Hxy) as (c & Lx & Ly).
  unfold toLowerCase. cbn [flat_map]. rewrite Lx, Ly.
  cbn [app startsWith]. rewrite N.eqb_refl. now apply IH.
Qed.

Lemma includes_here (s sub : jsstring) :
  startsWith sub s = true -> includes s sub = true.
Proof. intros H. destruct s; simpl; now rewrite H. Qed.

Lemma includes_app (a b sub : jsstring) :
  includes b sub = true -> includes (a ++ b) sub = true.
Proof.
  intros H. induction a as [|x a IH]; [exact H|].
  change ((x :: a) ++ b) with (x :: (a ++ b)). cbn [includes].
  rewrite IH. apply orb_true_r.
Qed.

Lemma exteriors_keywordChars (k : jsstring) :
  In k exteriors -> forallb keywordChar k = true.
Proof.
  intros Hin. assert (H : forallb (forallb keywordChar) exteriors = true)
    by reflexivity.
  rewrite forallb_forall in H. now apply H.
Qed.

(** Where the regular expression of the removal matches, the test of
    the detection finds the keyword. *)
Lemma matchesHere_contains (k pre rest : jsstring) (prev : option N) :
  In k exteriors ->
  matchesHere k prev rest = true ->
  contains (pre ++ rest) k = true.
Proof.
  intros Hin H. unfold matchesHere in H.
  apply andb_true_iff in H as [H _]. apply andb_true_iff in H as [_ H].
  unfold contains, toLowerCase. rewrite flat_map_app.
  apply includes_app, includes_here.
  now apply startsWith_ci_lower; [apply exteriors_keywordChars|].
Qed.

(** *** White space of the residual name *)

Lemma singleSpaced_collapse (x : jsstring) :
  forall b, singleSpaced b (collapse_from b x) = true.
Proof.
  induction x as [|c x IH]; intros b; [reflexivity|].
  cbn [collapse_from]. destruct (isSpace c) eqn:Hc.
  - destruct b; [apply IH|].
    cbn [singleSpaced].
    change (isSpace space) with true. cbv iota.
    rewrite N.eqb_refl. simpl. apply IH.
  - cbn [singleSpaced]. rewrite Hc. apply IH.
Qed.

Lemma singleSpaced_dropWhile (s : jsstring) :
  forall b,
    singleSpaced b s = true -> singleSpaced true (dropWhile isSpace s) = true.
Proof.
  induction s as [|c s IH]; intros b H; [reflexivity|].
  cbn [dropWhile]. cbn [singleSpaced] in H. destruct (isSpace c) eqn:Hc.
  - apply andb_true_iff in H as [_ H]. now apply (IH true).
  - cbn [singleSpaced]. now rewrite Hc.
Qed.

Lemma singleSpaced_prefix (x y : jsstring) :
  forall b, singleSpaced b (x ++ y) = true -> singleSpaced b x = true.
Proof.
  induction x as [|c x IH]; intros b H; [reflexivity|].
  change ((c :: x) ++ y) with (c :: (x ++ y)) in H.
  cbn [singleSpaced] in *. destruct (isSpace c).
  - apply andb_true_iff in H as [H1 H2]. rewrite H1. now apply IH.
  - now apply IH.
Qed.

Lemma dropWhile_split (p : N -> bool) (s : jsstring) :
  exists sp, s = sp ++ dropWhile p s.
Proof.
  induction s as [|c s (sp & IH)]; [now exists []|].
  cbn [dropWhile]. destruct (p c).
  - exists (c :: sp). simpl. now f_equal.
  - now exists [].
Qed.

Lemma dropWhile_head (p : N -> bool) (s : jsstring) :
  match dropWhile p s with
  | c :: _ => p c = false
  | [] => True
  end.
Proof.
  induction s as [|c s IH]; [exact I|].
  cbn [dropWhile]. destruct (p c) eqn:Hc; [exact IH|exact Hc].
Qed.

(** What [trim] leaves of a single-spaced text is single-spaced and has
    no white space at either end. *)
Lemma tidy_trim (y : jsstring) (b : bool) :
  singleSpaced b y = true -> tidy (trim y) = true.
Proof.
  intros H. unfold tidy, trim.
  apply singleSpaced_dropWhile in H.
  set (z := dropWhile isSpace y) in *.
  destruct (dropWhile_split isSpace (rev z)) as (sp & E).
  apply andb_true_iff. split.
  - apply singleSpaced_prefix with (y := rev sp).
    rewrite <- rev_app_distr, <- E, rev_involutive. exact H.
  - unfold endsClean. rewrite rev_involutive.
    pose proof (dropWhile_head isSpace (rev z)) as Hh.
    destruct (dropWhile isSpace (rev z)); [reflexivity|].
    now rewrite Hh.
Qed.

Lemma tidy_name (x : jsstring) : tidy (trim (collapseSpaces x)) = true.
Proof.
  apply tidy_trim with (b := false). apply singleSpaced_collapse.
Qed.

(** *** Free occurrences of a keyword *)

Unset Implicit Arguments.

Lemma isWordChar_wordCode (c : N) : isWordChar c = wordCode c.
Proof.
  unfold isWordChar, wordCode, isDigit.
  destruct (in_range 65 90 c), (in_range 97 122 c), (in_range 48 57 c),
    (N.eqb c 95); reflexivity.
Qed.

Lemma isWordOpt_wordCodeOpt (c : option N) : isWordOpt c = wordCodeOpt c.
Proof. destruct c; [apply isWordChar_wordCode|reflexivity]. Qed.

Lemma char_eq_ci_sameLetter (x y : N) : char_eq_ci x y = sameLetter x y.
Proof.
  apply eq_true_iff_eq. unfold char_eq_ci, sameLetter.
  rewrite !orb_true_iff, !andb_true_iff, !N.eqb_eq, !in_range_iff.
  destruct (canonicalize_cases x) as [[Hx Ex]|[Hx Ex]];
    destruct (canonicalize_cases y) as [[Hy Ey]|[Hy Ey]];
    rewrite Ex, Ey; lia.
Qed.

Lemma startsWith_ci_spelledAt (k : jsstring) :
  forall s, startsWith_ci k s = spelledAt k s.
Proof.
  induction k as [|x k IH]; intros [|y s]; try reflexivity.
  cbn [startsWith_ci spelledAt]. now rewrite char_eq_ci_sameLetter, IH.
Qed.

Lemma spelledAt_nth (k : jsstring) :
  forall s i x,
    spelledAt k s = true ->
    nth_error k i = Some x ->
    exists y, nth_error s i = Some y /\ sameLetter x y = true.
Proof.
  induction k as [|a k IH]; intros s i x H Hi.
  - destruct i; discriminate.
  - destruct s as [|b s]; [discriminate|].
    cbn [spelledAt] in H. apply andb_true_iff in H as [Hab H].
    destruct i as [|i]; cbn [nth_error] in *.
    + injection Hi as <-. now exists b.
    + now apply IH with (x := x).
Qed.

Lemma sameLetter_word (x y : N) :
  isLetter x = true -> sameLetter x y = true -> isWordChar y = true.
Proof.
  unfold isLetter, sameLetter, isWordChar, isDigit.
  rewrite !orb_true_iff, !andb_true_iff, !N.eqb_eq, !in_range_iff. lia.
Qed.

(** For a keyword that begins and ends with a letter, the regular
    expression of the removal matches exactly at the free occurrences. *)
Lemma matchesHere_free (k : jsstring) (prev : option N) (s : jsstring) :
  letterEnds k = true ->
  matchesHere k prev s = freeOccurrence k prev s.
Proof.
  intros Hk. unfold letterEnds in Hk.
  destruct (nth_error k 0) as [a|] eqn:Ha; [|discriminate].
  destruct (nth_error k (length k - 1)) as [b|] eqn:Hb; [|discriminate].
  apply andb_true_iff in Hk as [La Lb].
  unfold matchesHere, freeOccurrence. rewrite startsWith_ci_spelledAt.
  destruct (spelledAt k s) eqn:E.
  - destruct (spelledAt_nth k s _ _ E Ha) as (y0 & -> & S0).
    destruct (spelledAt_nth k s _ _ E Hb) as (y1 & -> & S1).
    unfold wordBoundary. cbn [isWordOpt].
    rewrite (sameLetter_word a y0 La S0), (sameLetter_word b y1 Lb S1).
    rewrite !isWordOpt_wordCodeOpt.
    destruct (wordCodeOpt prev), (wordCodeOpt (nth_error s (length k)));
      reflexivity.
  - cbn [andb]. now rewrite andb_false_r.
Qed.

Lemma exteriors_letterEnds (k : jsstring) :
  In k exteriors -> letterEnds k = true.
Proof.
  intros Hin. assert (H : forallb letterEnds exteriors = true) by reflexivity.
  rewrite forallb_forall in H. now apply H.
Qed.

Lemma letterEnds_nonempty (k : jsstring) : letterEnds k = true -> k <> [].
Proof. intros H ->. discriminate H. Qed.

Lemma noMatchb_noFree (k : jsstring) :
  letterEnds k = true ->
  forall s prev n, noMatchb k prev s n = noFreeOccurrence k prev s n.
Proof.
  intros Hk. induction s as [|c s IH]; intros prev [|n]; try reflexivity.
  cbn [noMatchb noFreeOccurrence]. now rewrite (matchesHere_free k _ _ Hk), IH.
Qed.

Lemma spelledAt_length (k : jsstring) :
  forall s, spelledAt k s = true -> (length k <= length s)%nat.
Proof.
  induction k as [|x k IH]; intros [|y s] H; cbn [length]; try lia;
    [discriminate|].
  cbn [spelledAt] in H. apply andb_true_iff in H as [_ H].
  apply IH in H. lia.
Qed.

Lemma lastChar_cons (prev : option N) (c : N) (s : jsstring) :
  lastChar prev (c :: s) = lastChar (Some c) s.
Proof. reflexivity. Qed.

(** What the removal leaves is the text without its free occurrences,
    and nothing else is. *)
Lemma Stripped_removeFrom (k : jsstring) :
  letterEnds k = true ->
  forall prev s r, Stripped k prev s r -> r = removeFrom k 0 prev s.
Proof.
  intros Hk prev s r H. induction H as [prev|prev c s r F _ IH|prev occ rest r L F _ IH].
  - reflexivity.
  - cbn [removeFrom]. rewrite (matchesHere_free k _ _ Hk), F. now rewrite IH.
  - destruct occ as [|c occ].
    { apply letterEnds_nonempty in Hk. destruct k; [contradiction|discriminate]. }
    change ((c :: occ) ++ rest) with (c :: (occ ++ rest)) in *.
    cbn [removeFrom]. rewrite (matchesHere_free k _ _ Hk), F.
    assert (E : (length k - 1)%nat = length occ)
      by (rewrite <- L; cbn [length]; lia).
    rewrite E, removeFrom_skip. rewrite lastChar_cons in IH. exact IH.
Qed.

Lemma removeFrom_Stripped (k : jsstring) :
  letterEnds k = true ->
  forall n s prev,
    (length s <= n)%nat -> Stripped k prev s (removeFrom k 0 prev s).
Proof.
  intros Hk. induction n as [|n IH]; intros s prev Hn.
  - destruct s; [apply Stripped_end|cbn [length] in Hn; lia].
  - destruct s as [|c s]; [apply Stripped_end|].
    cbn [length] in Hn. cbn [removeFrom].
    rewrite (matchesHere_free k _ _ Hk).
    destruct (freeOccurrence k prev (c :: s)) eqn:F.
    + assert (Hlen : (length k <= length (c :: s))%nat).
      { apply spelledAt_length. unfold freeOccurrence in F.
        apply andb_true_iff in F as [F _]. now apply andb_true_iff in F as [F _]. }
      pose proof (firstn_skipn (length k) (c :: s)) as Split.
      pose proof (firstn_length_le (c :: s) Hlen) as Locc.
      destruct (firstn (length k) (c :: s)) as [|c' occ] eqn:Eocc.
      { apply letterEnds_nonempty in Hk. destruct k; [contradiction|discriminate]. }
      cbn [app] in Split. injection Split as -> Es.
      assert (E : (length k - 1)%nat = length occ)
        by (rewrite <- Locc; cbn [length]; lia).
      rewrite E, <- Es, removeFrom_skip.
      change (c :: occ ++ skipn (length k) (c :: occ ++ skipn (length k) (c :: s)))
        with ((c :: occ) ++ skipn (length k) (c :: occ ++ skipn (length k) (c :: s))).
      rewrite Es.
      rewrite <- Es at 1.
      change (c :: occ ++ skipn (length k) (c :: s))
        with ((c :: occ) ++ skipn (length k) (c :: s)).
      apply Stripped_drop.
      * exact Locc.
      * change ((c :: occ) ++ skipn (length k) (c :: s))
          with (c :: (occ ++ skipn (length k) (c :: s))).
        rewrite Es. exact F.
      * rewrite lastChar_cons. apply IH.
        assert (length s = length occ + length (skipn (length k) (c :: s)))%nat
          by (rewrite <- Es at 1; apply length_app).
        lia.
    + apply Stripped_keep; [exact F|]. apply IH. lia.
Qed.

Lemma Stripped_removeWord (k label : jsstring) :
  letterEnds k = true ->
  Stripped k None label (removeWord k label)
  /\ forall r, Stripped k None label r -> r = removeWord k label.
Proof.
  intros Hk. split.
  - apply (removeFrom_Stripped k Hk (length label)). apply Nat.le_refl.
  - intros r. apply (Stripped_removeFrom k Hk).
Qed.

(** *** What the white-space steps leave alone *)

Lemma nonSpace_dropWhile (s : jsstring) :
  filter nonSpace (dropWhile isSpace s) = filter nonSpace s.
Proof.
  induction s as [|c s IH]; [reflexivity|].
  cbn [dropWhile filter]. unfold nonSpace at 2.
  destruct (isSpace c) eqn:E; cbn [negb]; [exact IH|].
  cbn [filter]. unfold nonSpace at 1. now rewrite E.
Qed.

Lemma nonSpace_trim (s : jsstring) :
  filter nonSpace (trim s) = filter nonSpace s.
Proof.
  unfold trim. rewrite filter_rev, nonSpace_dropWhile, filter_rev,
    rev_involutive. apply nonSpace_dropWhile.
Qed.

Lemma nonSpace_collapse (s : jsstring) :
  forall b, filter nonSpace (collapse_from b s) = filter nonSpace s.
Proof.
  induction s as [|c s IH]; intros b; [reflexivity|].
  cbn [collapse_from filter]. unfold nonSpace at 2.
  destruct (isSpace c) eqn:E; cbn [negb].
  - destruct b; [apply IH|]. cbn [filter]. apply IH.
  - cbn [filter]. unfold nonSpace at 1. rewrite E. cbn [negb].
    now rewrite IH.
Qed.

Lemma nonSpace_name (x : jsstring) :
  filter nonSpace (trim (collapseSpaces (trim x))) = filter nonSpace x.
Proof.
  rewrite nonSpace_trim. unfold collapseSpaces.
  rewrite nonSpace_collapse. apply nonSpace_trim.
Qed.

Set Implicit Arguments.

(** C7 (as the code has it).  For a label that contains exactly one of
    the five keywords (as a substring, up to letter case) the classifier
    returns that keyword.  From the label it takes out the free
    occurrences of the keyword, that is the occurrences up to letter
    case that are not glued to a letter, a digit or an underscore, all
    of them, from left to right, and nothing else: the text left is the
    only one that the reading without free occurrences allows.  Of that
    text the name keeps every character that is not white space, in
    order, and has its white space collapsed to single spaces and
    trimmed.  So when the keyword has one free occurrence the name is
    what surrounds it, and when every occurrence is glued the keyword is
    still returned and nothing is taken out.  For a label that contains
    none of the keywords the classifier returns Unknown and the label,
    its white space collapsed and trimmed. *)
Theorem classifier_spec :
  (forall label k,
      In k exteriors ->
      contains label k = true ->
      (forall k', In k' exteriors -> k' <> k -> contains label k' = false) ->
      exists r,
        Stripped k None label r
        /\ (forall r', Stripped k None label r' -> r' = r)
        /\ extractNameAndExterior label
           = mkNE (trim (collapseSpaces (trim r))) k
        /\ filter nonSpace (ne_name (extractNameAndExterior label))
           = filter nonSpace r
        /\ tidy (ne_name (extractNameAndExterior label)) = true)
  /\ (forall k pre occ post,
         In k exteriors ->
         (forall k', In k' exteriors -> k' <> k ->
                     contains (pre ++ occ ++ post) k' = false) ->
         length occ = length k ->
         noFreeOccurrence k None (pre ++ occ ++ post) (length pre) = true ->
         freeOccurrence k (lastChar None pre) (occ ++ post) = true ->
         noFreeOccurrence k (lastChar None occ) post (length post) = true ->
         extractNameAndExterior (pre ++ occ ++ post)
         = mkNE (trim (collapseSpaces (trim (pre ++ post)))) k)
  /\ (forall label k,
         In k exteriors ->
         contains label k = true ->
         (forall k', In k' exteriors -> k' <> k -> contains label k' = false) ->
         noFreeOccurrence k None label (length label) = true ->
         extractNameAndExterior label
         = mkNE (trim (collapseSpaces (trim label))) k)
  /\ (forall label,
         (forall k, In k exteriors -> contains label k = false) ->
         extractNameAndExterior label
         = mkNE (trim (collapseSpaces label)) unknown
         /\ tidy (ne_name (extractNameAndExterior label)) = true).
Proof.
  split; [|split; [|split]].
  - intros label k Hin Hk Hothers.
    pose proof (exteriors_letterEnds k Hin) as Hends.
    destruct (Stripped_removeWord k label Hends) as [S U].
    exists (removeWord k label).
    assert (E : extractNameAndExterior label
                = mkNE (trim (collapseSpaces (trim (removeWord k label)))) k).
    { unfold extractNameAndExterior.
      now rewrite (classify_only label Hin Hk Hothers). }
    split; [exact S|]. split; [exact U|]. split; [exact E|].
    rewrite E. cbn [ne_name]. split; [apply nonSpace_name|apply tidy_name].
  - intros k pre occ post Hin Hothers Hlen Hpre Hocc Hpost.
    pose proof (exteriors_letterEnds k Hin) as Hends.
    rewrite <- (noMatchb_noFree k Hends) in Hpre, Hpost.
    rewrite <- (matchesHere_free k _ _ Hends) in Hocc.
    pose proof (@matchesHere_contains k pre _ _ Hin Hocc) as Hk.
    unfold extractNameAndExterior.
    rewrite (classify_only _ Hin Hk Hothers).
    rewrite (@removeWord_occurrence k pre occ post Hlen); try assumption.
    + reflexivity.
    + now apply letterEnds_nonempty.
  - intros label k Hin Hk Hothers Hnone.
    pose proof (exteriors_letterEnds k Hin) as Hends.
    rewrite <- (noMatchb_noFree k Hends) in Hnone.
    unfold extractNameAndExterior.
    rewrite (classify_only label Hin Hk Hothers).
    unfold removeWord. rewrite removeFrom_noMatch; [reflexivity|exact Hnone].
  - intros label Hnone. unfold extractNameAndExterior.
    rewrite (classify_none _ _ Hnone). simpl. split; [reflexivity|].
    apply tidy_name.
Qed.

Lemma classifier_spec_witness :
  extractNameAndExterior (js "AK-47 | Redline (" ++ js "FIELD-tested" ++ js ")")
  = mkNE (js "AK-47 | Redline ()") (js "Field-Tested")
  /\ extractNameAndExterior
       (js "Field-Tested" ++ js " A field-tested_2 " ++ js "FIELD-TESTED")
     = mkNE (js "A field-tested_2") (js "Field-Tested")
  /\ extractNameAndExterior (js "AWP Factory New2")
     = mkNE (js "AWP Factory New2") (js "Factory New")
  /\ extractNameAndExterior (js " p250   see ya later ")
     = mkNE (js "p250 see ya later") unknown.
Proof.
  assert (Hothers : forall label k,
             forallb (fun k' => str_eqb k' k || negb (contains label k'))
                     exteriors = true ->
             forall k', In k' exteriors -> k' <> k -> contains label k' = false).
  { intros label k H k' Hin Hne. rewrite forallb_forall in H.
    specialize (H k' Hin). apply orb_true_iff in H as [H|H].
    - apply str_eqb_eq in H. contradiction.
    - now apply negb_true_iff in H. }
  split; [|split; [|split]].
  - apply (proj1 (proj2 classifier_spec)
             (js "Field-Tested") (js "AK-47 | Redline (") (js "FIELD-tested")
             (js ")")).
    + simpl. tauto.
    + apply Hothers. reflexivity.
    + reflexivity.
    + reflexivity.
    + reflexivity.
    + reflexivity.
  - destruct (proj1 classifier_spec
                (js "Field-Tested" ++ js " A field-tested_2 "
                    ++ js "FIELD-TESTED")
                (js "Field-Tested")) as (r & _ & U & E & _).
    + simpl. tauto.
    + reflexivity.
    + apply Hothers. reflexivity.
    + rewrite E. rewrite <- (U (js " A field-tested_2 ")); [reflexivity|].
      apply (@Stripped_drop (js "Field-Tested") None (js "Field-Tested")
               (js " A field-tested_2 " ++ js "FIELD-TESTED")
               (js " A field-tested_2 "));
        [reflexivity|reflexivity|].
      do 18 (apply Stripped_keep; [reflexivity|]).
      apply (@Stripped_drop (js "Field-Tested") _ (js "FIELD-TESTED") [] []);
        [reflexivity|reflexivity|].
      apply Stripped_end.
  - apply (proj1 (proj2 (proj2 classifier_spec)) (js "AWP Factory New2")
             (js "Factory New")).
    + simpl. tauto.
    + reflexivity.
    + apply Hothers. reflexivity.
    + reflexivity.
  - refine (proj1 (proj2 (proj2 (proj2 classifier_spec))
                     (js " p250   see ya later ") _)).
    intros k Hin.
    assert (H : forallb (fun k => negb (contains (js " p250   see ya later ") k))
                        exteriors = true) by reflexivity.
    rewrite forallb_forall in H. now apply negb_true_iff, H.
Defined.

(** C7 as stated fails when the only keyword of the label is not between
    word boundaries: the label contains the keyword and no other one, the
    regular expression matches nowhere, the tier is the keyword (not
    Unknown), yet nothing is removed and the name still contains the
    keyword. *)
Lemma classifier_counterexample :
  contains (js "XFactory New") (js "Factory New") = true
  /\ forallb (fun k' => str_eqb k' (js "Factory New")
                        || negb (contains (js "XFactory New") k'))
             exteriors = true
  /\ noMatchb (js "Factory New") None (js "XFactory New")
              (length (js "XFactory New")) = true
  /\ extractNameAndExterior (js "XFactory New")
     = mkNE (js "XFactory New") (js "Factory New")
  /\ ne_exterior (extractNameAndExterior (js "XFactory New")) <> unknown
  /\ contains (ne_name (extractNameAndExterior (js "XFactory New")))
              (js "Factory New") = true.
Proof. repeat split. discriminate. Qed.

(** ** The listing extractors *)

Lemma full_iff {A} (items : list A) (count : Z) :
  full items count = true <-> (Z.to_nat count <= length items)%nat.
Proof. unfold full. rewrite Z.leb_le. lia. Qed.

Lemma firstn_zero_of_full {A B} (items : list A) (count : Z) (l : list B) :
  full items count = true ->
  firstn (Z.to_nat count - length items) l = [].
Proof.
  intros H. apply full_iff in H.
  replace (Z.to_nat count - length items)%nat with 0%nat by lia.
  reflexivity.
Qed.

Lemma firstn_succ_of_not_full {A B} (items : list A) (count : Z) (x : B)
      (l : list B) (y : A) :
  full items count = false ->
  firstn (Z.to_nat count - length items) (x :: l)
  = x :: firstn (Z.to_nat count - length (items ++ [y])) l.
Proof.
  intros H. apply not_true_iff_false in H. rewrite full_iff in H.
  rewrite length_app. simpl.
  replace (Z.to_nat count - length items)%nat
    with (S (Z.to_nat count - (length items + 1)))%nat by lia.
  reflexivity.
Qed.

(** The loop over [response.data.results]: one candidate for each result
    visited, in order, until the list holds [count] items. *)
Lemma searchResults_map (fresh : nat -> jsstring) (count : Z)
      (results : list SearchResult) :
  forall k items,
    SteamMarketScraper.searchResults fresh count k results items
    = items ++ mapi_from (SteamMarketScraper.searchItem fresh) k
                 (firstn (Z.to_nat count - length items) results).
Proof.
  induction results as [|r rest IH]; intros k items.
  - simpl. now rewrite firstn_nil, app_nil_r.
  - cbn [SteamMarketScraper.searchResults].
    destruct (full items count) eqn:E.
    + rewrite (firstn_zero_of_full _ _ _ E). simpl. now rewrite app_nil_r.
    + rewrite IH, (firstn_succ_of_not_full _ _ _ _
                     (SteamMarketScraper.searchItem fresh k r) E).
      cbn [mapi_from]. now rewrite <- app_assoc.
Qed.

Lemma htmlRows_map (fresh : nat -> jsstring) (count : Z) (rows : list HtmlRow) :
  forall k items,
    SteamMarketScraper.htmlRows fresh count k rows items
    = items ++ mapi_from (SteamMarketScraper.htmlItem fresh) k
                 (firstn (Z.to_nat count - length items) rows).
Proof.
  induction rows as [|r rest IH]; intros k items.
  - simpl. now rewrite firstn_nil, app_nil_r.
  - cbn [SteamMarketScraper.htmlRows].
    destruct (full items count) eqn:E.
    + rewrite (firstn_zero_of_full _ _ _ E). simpl. now rewrite app_nil_r.
    + rewrite IH, (firstn_succ_of_not_full _ _ _ _
                     (SteamMarketScraper.htmlItem fresh k r) E).
      cbn [mapi_from]. now rewrite <- app_assoc.
Qed.

Lemma length_mapi_from {A B} (f : nat -> A -> B) (l : list A) :
  forall k, length (mapi_from f k l) = length l.
Proof.
  induction l as [|x l IH]; intros k; simpl; [reflexivity|]. now rewrite IH.
Qed.

Lemma searchCount_pos (options : ScrapingOptions) :
  (1 <= searchCount options)%Z.
Proof. unfold searchCount. lia. Qed.

Lemma searchCandidates_json (fresh : nat -> jsstring)
      (results : list SearchResult) (options : ScrapingOptions) :
  SteamMarketScraper.searchCandidates fresh (JsonResults results) options
  = mapi_from (SteamMarketScraper.searchItem fresh) 0
      (firstn (Z.to_nat (searchCount options)) results).
Proof.
  unfold SteamMarketScraper.searchCandidates.
  rewrite searchResults_map. simpl. now rewrite Nat.sub_0_r.
Qed.

(** C5 (as the code has it, current scraper). Before the post-processing
    the search strategy holds one candidate for each of the first
    [max(1, count || 10)] result elements, in result order, and none for
    the elements after them; so one candidate per result element when the
    payload has no more elements than that. *)
Theorem search_one_candidate_per_result (fresh : nat -> jsstring)
        (results : list SearchResult) (options : ScrapingOptions) :
  let n := Z.to_nat (searchCount options) in
  SteamMarketScraper.searchCandidates fresh (JsonResults results) options
  = mapi_from (SteamMarketScraper.searchItem fresh) 0 (firstn n results)
  /\ length (SteamMarketScraper.searchCandidates fresh (JsonResults results)
                                                 options)
     = Nat.min n (length results)
  /\ ((length results <= n)%nat ->
      SteamMarketScraper.searchCandidates fresh (JsonResults results) options
      = mapi_from (SteamMarketScraper.searchItem fresh) 0 results).
Proof.
  intros n.
  pose proof (searchCandidates_json fresh results options) as E.
  fold n in E.
  split; [exact E|]. split.
  - now rewrite E, length_mapi_from, length_firstn.
  - intros H. rewrite E. now rewrite firstn_all2.
Qed.

Lemma search_one_candidate_per_result_witness :
  (length two_results <= Z.to_nat (searchCount (mkOptions lowest 10 None)))%nat
  /\ SteamMarketScraper.searchCandidates no_fresh (JsonResults two_results)
                                         (mkOptions lowest 10 None)
     = mapi_from (SteamMarketScraper.searchItem no_fresh) 0 two_results.
Proof.
  assert (H : (length two_results
               <= Z.to_nat (searchCount (mkOptions lowest 10 None)))%nat)
    by (vm_compute; lia).
  split; [exact H|].
  exact (proj2 (proj2 (search_one_candidate_per_result no_fresh two_results
                         (mkOptions lowest 10 None))) H).
Defined.

(** C5 as stated fails on the current scraper when the payload has more
    result elements than the count asked for: the loop stops and the
    later elements get no candidate. *)
Lemma search_counterexample :
  length two_results = 2%nat
  /\ length (SteamMarketScraper.searchCandidates no_fresh
               (JsonResults two_results) (mkOptions lowest 1 None)) = 1%nat.
Proof. split; reflexivity. Qed.

(** The earlier version of the scraper pushes every result twice. *)
Lemma legacy_search_pushes_twice :
  LegacyScraper.searchCandidates
    (JsonResults [result_of "AK-47 | Redline (Field-Tested)" "$12.50"])
    (mkOptions lowest 10 None)
  = [LegacyScraper.searchItem
       (result_of "AK-47 | Redline (Field-Tested)" "$12.50");
     LegacyScraper.searchItem
       (result_of "AK-47 | Redline (Field-Tested)" "$12.50")].
Proof. reflexivity. Qed.

(** *** Post-processing *)

Lemma insertItem_perm (pt : PriceType) (x : SteamMarketItem)
      (l : list SteamMarketItem) :
  Permutation (insertItem pt x l) (x :: l).
Proof.
  induction l as [|y l IH]; simpl; [apply Permutation_refl|].
  destruct (before pt y x); [|apply Permutation_refl].
  apply Permutation_trans with (y :: x :: l);
    [now apply perm_skip|apply perm_swap].
Qed.

Lemma sortItems_perm (pt : PriceType) (l : list SteamMarketItem) :
  Permutation (sortItems pt l) l.
Proof.
  induction l as [|x l IH]; simpl; [apply perm_nil|].
  apply Permutation_trans with (x :: sortItems pt l);
    [apply insertItem_perm|now apply perm_skip].
Qed.

Lemma slice0_all {A} (count : Z) (l : list A) :
  (Z.of_nat (length l) <= count)%Z -> slice0 count l = l.
Proof.
  intros H. unfold slice0.
  destruct (count <? 0)%Z eqn:E; [apply Z.ltb_lt in E; lia|].
  apply firstn_all2. lia.
Qed.

Lemma slice0_incl {A} (count : Z) (l : list A) (x : A) :
  In x (slice0 count l) -> In x l.
Proof.
  unfold slice0. destruct (count <? 0)%Z; intros H;
    match type of H with
    | In _ (firstn ?n _) =>
        rewrite <- (firstn_skipn n l); apply in_or_app; now left
    end.
Qed.

Lemma filterExterior_incl (f : option jsstring) (l : list SteamMarketItem)
      (x : SteamMarketItem) :
  In x (filterExterior f l) -> In x l.
Proof.
  unfold filterExterior. destruct f as [[|c w]|]; try tauto.
  intros H. now apply filter_In in H.
Qed.

(** Post-processing returns a permutation of the candidates that pass
    the exterior filter when the count does not truncate. *)
Lemma postProcess_perm (options : ScrapingOptions) (items : list SteamMarketItem) :
  (Z.of_nat (length (filterExterior (opt_exteriorFilter options) items))
   <= opt_count options)%Z ->
  Permutation (postProcess options items)
              (filterExterior (opt_exteriorFilter options) items).
Proof.
  intros H. unfold postProcess. rewrite slice0_all.
  - apply sortItems_perm.
  - now rewrite (Permutation_length (sortItems_perm _ _)).
Qed.

Lemma postProcess_incl (options : ScrapingOptions) (items : list SteamMarketItem)
      (x : SteamMarketItem) :
  In x (postProcess options items) -> In x items.
Proof.
  unfold postProcess. intros H. apply slice0_incl in H.
  apply (Permutation_in _ (sortItems_perm _ _)) in H.
  now apply filterExterior_incl in H.
Qed.

(** *** The direct-listing strategy keeps positive prices only *)

Lemma listingRows_positive (fresh : nat -> jsstring) (count : Z)
      (itemInfo : NameAndExterior) (rows : list ListingRow) :
  forall k items,
    Forall (fun i => 0 < item_price i) items ->
    Forall (fun i => 0 < item_price i)
           (SteamMarketScraper.listingRows fresh count itemInfo k rows items).
Proof.
  induction rows as [|row rest IH]; intros k items H; [exact H|].
  cbn [SteamMarketScraper.listingRows].
  destruct (full items count); [exact H|]. cbv zeta.
  destruct (Qle_bool (price (parsePrice (trim (row_priceText row)))) 0) eqn:E;
    cbn [negb].
  - now apply IH.
  - apply IH. apply Forall_app. split; [exact H|].
    constructor; [|constructor].
    change (0 < price (parsePrice (trim (row_priceText row)))).
    apply Qnot_le_lt. intros Hle. apply Qle_bool_iff in Hle. congruence.
Qed.

Lemma listingRows_skips (fresh : nat -> jsstring) (count : Z)
      (itemInfo : NameAndExterior) (rows : list ListingRow) :
  forall k items,
    Forall (fun row => price (parsePrice (trim (row_priceText row))) <= 0) rows ->
    SteamMarketScraper.listingRows fresh count itemInfo k rows items = items.
Proof.
  induction rows as [|row rest IH]; intros k items H; [reflexivity|].
  cbn [SteamMarketScraper.listingRows]. inversion H as [|? ? Hrow Hrest]; subst.
  destruct (full items count); [reflexivity|]. cbv zeta.
  apply Qle_bool_iff in Hrow. rewrite Hrow. cbn [negb]. now apply IH.
Qed.

(** C4 (as the code has it). The search strategy never drops a candidate
    for its price: each result element or row it visits gives a candidate
    whatever its price, and a candidate that passes the exterior filter
    is returned whenever the count does not truncate the list.  The
    direct-listing strategy keeps a row only when its normalised price is
    positive: rows with a price <= 0 give no candidate. *)
Theorem extractor_and_degenerate_prices :
  (forall fresh results options,
      SteamMarketScraper.searchCandidates fresh (JsonResults results) options
      = mapi_from (SteamMarketScraper.searchItem fresh) 0
          (firstn (Z.to_nat (searchCount options)) results))
  /\ (forall fresh rows options,
         SteamMarketScraper.searchCandidates fresh (HtmlResults rows) options
         = mapi_from (SteamMarketScraper.htmlItem fresh) 0
             (firstn (Z.to_nat (searchCount options)) rows))
  /\ (forall fresh response options c,
         let candidates :=
           SteamMarketScraper.searchCandidates fresh response options in
         In c (filterExterior (opt_exteriorFilter options) candidates) ->
         (Z.of_nat (length (filterExterior (opt_exteriorFilter options)
                                           candidates))
          <= opt_count options)%Z ->
         In c (SteamMarketScraper.scrapeSearchResults fresh response options))
  /\ (forall fresh page options c,
         In c (SteamMarketScraper.listingCandidates fresh page options)
         \/ In c (SteamMarketScraper.scrapeItemListings fresh page options) ->
         0 < item_price c)
  /\ (forall fresh page options,
         Forall (fun row => price (parsePrice (trim (row_priceText row))) <= 0)
                (page_rows page) ->
         SteamMarketScraper.listingCandidates fresh page options = []
         /\ SteamMarketScraper.scrapeItemListings fresh page options = []).
Proof.
  split; [|split; [|split; [|split]]].
  - intros fresh results options. apply searchCandidates_json.
  - intros fresh rows options. unfold SteamMarketScraper.searchCandidates.
    rewrite htmlRows_map. simpl. now rewrite Nat.sub_0_r.
  - intros fresh response options c candidates Hin Hlen.
    unfold SteamMarketScraper.scrapeSearchResults. fold candidates.
    apply Permutation_in with (l := filterExterior (opt_exteriorFilter options)
                                                   candidates);
      [|exact Hin].
    apply Permutation_sym. now apply postProcess_perm.
  - intros fresh page options c H.
    assert (Hall : Forall (fun i => 0 < item_price i)
                     (SteamMarketScraper.listingCandidates fresh page options)).
    { unfold SteamMarketScraper.listingCandidates.
      apply listingRows_positive. constructor. }
    rewrite Forall_forall in Hall. apply Hall.
    destruct H as [H|H]; [exact H|].
    unfold SteamMarketScraper.scrapeItemListings in H.
    now apply postProcess_incl in H.
  - intros fresh page options H.
    assert (E : SteamMarketScraper.listingCandidates fresh page options = []).
    { unfold SteamMarketScraper.listingCandidates.
      now apply listingRows_skips. }
    split; [exact E|].
    unfold SteamMarketScraper.scrapeItemListings. rewrite E.
    unfold postProcess, filterExterior.
    destruct (opt_exteriorFilter options) as [[|? ?]|]; simpl;
      unfold slice0; destruct (opt_count options <? 0)%Z;
        now rewrite firstn_nil.
Qed.

Lemma extractor_and_degenerate_prices_witness :
  (exists c,
      In c (SteamMarketScraper.scrapeSearchResults no_fresh
              (JsonResults [result_of "AK-47 | Redline (Field-Tested)" "Sold!"])
              (mkOptions lowest 10 (Some (js "field-tested"))))
      /\ item_price c = 0)
  /\ SteamMarketScraper.scrapeItemListings no_fresh (page_of "Sold!")
                                           (mkOptions lowest 10 None) = [].
Proof.
  split.
  - exists (SteamMarketScraper.searchItem no_fresh 0
              (result_of "AK-47 | Redline (Field-Tested)" "Sold!")).
    split; [|reflexivity].
    apply (proj1 (proj2 (proj2 extractor_and_degenerate_prices))).
    + simpl. left. reflexivity.
    + vm_compute. discriminate.
  - apply (proj2 (proj2 (proj2 (proj2 extractor_and_degenerate_prices)))).
    repeat constructor. vm_compute. discriminate.
Defined.

(** C4 as stated fails on the direct-listing strategy: a row whose price
    text normalises to 0 gives no candidate, although nothing truncates
    or filters the list; the same row with a positive price is returned. *)
Lemma listing_counterexample :
  price (parsePrice (trim (js "Sold!"))) = 0
  /\ SteamMarketScraper.listingCandidates no_fresh (page_of "Sold!")
                                          (mkOptions lowest 10 None) = []
  /\ SteamMarketScraper.scrapeItemListings no_fresh (page_of "Sold!")
                                           (mkOptions lowest 10 None) = []
  /\ length (SteamMarketScraper.scrapeItemListings no_fresh (page_of "$12.50")
                                                   (mkOptions lowest 10 None))
     = 1%nat.
Proof. repeat split. Qed.

(** * Further properties of the code *)

Unset Implicit Arguments.

(** ** The store: lookups, frames and round trips *)

Lemma other_key (name exterior name' exterior' : jsstring) (x : Skin) :
  (name', exterior') <> (name, exterior) ->
  same_key name exterior x = true ->
  same_key name' exterior' x = false.
Proof.
  intros Hne Hx. apply not_true_iff_false. intros Hx'.
  unfold same_key in Hx, Hx'.
  apply andb_true_iff in Hx as [H1 H2]. apply andb_true_iff in Hx' as [H3 H4].
  apply str_eqb_eq in H1, H2, H3, H4. apply Hne. congruence.
Qed.

Lemma find_update_first_other (p p' : Skin -> bool) (f : Skin -> Skin)
      (l : list Skin) :
  (forall x, p x = true -> p' x = false /\ p' (f x) = false) ->
  find p' (update_first p f l) = find p' l.
Proof.
  intros H. induction l as [|x l IH]; [reflexivity|].
  cbn [update_first]. destruct (p x) eqn:Hx.
  - destruct (H x Hx) as [H1 H2]. cbn [find]. now rewrite H1, H2.
  - cbn [find]. now rewrite IH.
Qed.

Lemma find_snoc_other (p' : Skin -> bool) (l : list Skin) (x : Skin) :
  p' x = false -> find p' (l ++ [x]) = find p' l.
Proof.
  intros Hx. induction l as [|y l IH]; simpl; [now rewrite Hx|].
  now rewrite IH.
Qed.

(** An append does not change what the lookup of another pair returns. *)
Lemma getSkin_addSkinData_other (now name exterior name' exterior' : jsstring)
      (sd : SkinData) (url : jsstring) (d : TrackermanData) :
  (name', exterior') <> (name, exterior) ->
  DataManager.getSkin name' exterior'
    (DataManager.addSkinData now name exterior sd url d)
  = DataManager.getSkin name' exterior' d.
Proof.
  intros Hne. unfold DataManager.addSkinData, DataManager.getSkin.
  destruct (find (same_key name exterior) (skins d)); simpl.
  - apply find_update_first_other. intros x Hx.
    split; [now apply other_key with (name := name) (exterior := exterior)|].
    apply other_key with (name := name) (exterior := exterior);
      [exact Hne|exact Hx].
  - apply find_snoc_other.
    apply other_key with (name := name) (exterior := exterior);
      [exact Hne|apply same_key_refl].
Qed.

Lemma addSkinData_url (now name exterior : jsstring) (sd : SkinData)
      (url : jsstring) (d : TrackermanData) (s : Skin) :
  DataManager.getSkin name exterior
    (DataManager.addSkinData now name exterior sd url d) = Some s ->
  skin_url s = url /\ skin_name s = name /\ skin_exterior s = exterior.
Proof.
  intros Hs.
  assert (Hkey : same_key name exterior s = true)
    by (unfold DataManager.getSkin in Hs; now apply find_some in Hs).
  unfold same_key in Hkey. apply andb_true_iff in Hkey as [H1 H2].
  apply str_eqb_eq in H1, H2. split; [|now split].
  revert Hs. unfold DataManager.addSkinData, DataManager.getSkin.
  destruct (find (same_key name exterior) (skins d)) as [s0|] eqn:E; simpl.
  - rewrite (find_update_first name exterior
               (DataManager.push_data sd url) (skins d)
               (fun x => key_push_data name exterior sd url x) E).
    now intros [= <-].
  - rewrite find_app_new; [now intros [= <-]|exact E|apply same_key_refl].
Qed.

(** X1. Whatever the flags of the stored history, an append leaves the
    item tracked, with the new observation as its only current one, every
    earlier observation superseded, in the same order, and the URL of the
    call; the lookup of any other pair is not affected. *)
Theorem append_restores_single_current (now name exterior : jsstring)
        (sd : SkinData) (url : jsstring) (d : TrackermanData) :
  let d' := DataManager.addSkinData now name exterior sd url d in
  (exists s,
      DataManager.getSkin name exterior d' = Some s
      /\ skin_skindata s
         = map (set_expired true) (history name exterior d)
             ++ [set_expired false sd]
      /\ filter (fun x => negb (is_expired x)) (skin_skindata s)
         = [set_expired false sd]
      /\ skin_url s = url)
  /\ (forall name' exterior',
         (name', exterior') <> (name, exterior) ->
         DataManager.getSkin name' exterior' d'
         = DataManager.getSkin name' exterior' d)
  /\ lastUpdated d' = now.
Proof.
  intros d'. split; [|split].
  - destruct (addSkinData_history now name exterior sd url d) as (s & Hs & Hh).
    exists s. split; [exact Hs|]. split; [exact Hh|]. split.
    + rewrite Hh, filter_app, filter_current_map_true. reflexivity.
    + now apply (addSkinData_url now name exterior sd url d s).
  - intros name' exterior' Hne. now apply getSkin_addSkinData_other.
  - unfold d', DataManager.addSkinData.
    destruct (DataManager.getSkin name exterior d); reflexivity.
Qed.

Lemma find_filter_other (p p' : Skin -> bool) (l : list Skin) :
  (forall x, p x = true -> p' x = false) ->
  find p' (filter (fun s => negb (p s)) l) = find p' l.
Proof.
  intros H. induction l as [|x l IH]; [reflexivity|].
  cbn [filter find]. destruct (p x) eqn:Hx; cbn [negb].
  - now rewrite (H x Hx).
  - cbn [find]. now rewrite IH.
Qed.

Lemma filter_snoc_new (name exterior : jsstring) (l : list Skin) (x : Skin) :
  find (same_key name exterior) l = None ->
  same_key name exterior x = true ->
  filter (fun s => negb (same_key name exterior s)) (l ++ [x]) = l.
Proof.
  intros Hl Hx. rewrite filter_app. cbn [filter]. rewrite Hx. cbn [negb].
  rewrite app_nil_r. apply filter_keep_all.
  intros y Hy. now rewrite (find_none _ _ Hl y Hy).
Qed.

Lemma same_key_self (s : Skin) :
  same_key (skin_name s) (skin_exterior s) s = true.
Proof. unfold same_key. now rewrite !str_eqb_refl. Qed.

(** X2. Registering an item whose pair is not tracked succeeds: the item
    is put after the others exactly as given, its lookup returns it, and
    the lookup of any other pair is not affected. *)
Theorem addSkin_then_lookup (now : jsstring) (skin : Skin) (d : TrackermanData) :
  DataManager.getSkin (skin_name skin) (skin_exterior skin) d = None ->
  exists d',
    DataManager.addSkin now skin d = (d', Ok tt)
    /\ skins d' = skins d ++ [skin]
    /\ DataManager.getSkin (skin_name skin) (skin_exterior skin) d' = Some skin
    /\ forall name' exterior',
        (name', exterior') <> (skin_name skin, skin_exterior skin) ->
        DataManager.getSkin name' exterior' d'
        = DataManager.getSkin name' exterior' d.
Proof.
  intros Hnone. unfold DataManager.addSkin. rewrite Hnone.
  eexists. split; [reflexivity|]. split; [reflexivity|]. split.
  - unfold DataManager.getSkin in *. simpl.
    apply find_app_new; [exact Hnone|apply same_key_self].
  - intros name' exterior' Hne. unfold DataManager.getSkin. simpl.
    apply find_snoc_other.
    apply other_key with (name := skin_name skin)
                         (exterior := skin_exterior skin);
      [exact Hne|apply same_key_self].
Qed.

Lemma addSkin_then_lookup_witness :
  DataManager.getSkin (skin_name awp_fresh) (skin_exterior awp_fresh) store_one
  = None
  /\ exists d',
      DataManager.addSkin (js "t1") awp_fresh store_one = (d', Ok tt)
      /\ DataManager.getSkin (skin_name awp_fresh) (skin_exterior awp_fresh) d'
         = Some awp_fresh.
Proof.
  split; [reflexivity|].
  destruct (addSkin_then_lookup (js "t1") awp_fresh store_one eq_refl)
    as (d' & H1 & _ & H3 & _).
  exists d'. split; [exact H1|exact H3].
Defined.

(** X3. Registering an untracked item and removing it again gives back
    the list of tracked items. *)
Theorem addSkin_then_removeSkin (now now' : jsstring) (skin : Skin)
        (d : TrackermanData) :
  DataManager.getSkin (skin_name skin) (skin_exterior skin) d = None ->
  skins (DataManager.removeSkin now' (skin_name skin) (skin_exterior skin)
           (fst (DataManager.addSkin now skin d)))
  = skins d.
Proof.
  intros Hnone. unfold DataManager.addSkin. rewrite Hnone. simpl.
  apply filter_snoc_new; [exact Hnone|apply same_key_self].
Qed.

Lemma addSkin_then_removeSkin_witness :
  DataManager.getSkin (skin_name awp_fresh) (skin_exterior awp_fresh) store_one
  = None
  /\ skins (DataManager.removeSkin (js "t2") (skin_name awp_fresh)
              (skin_exterior awp_fresh)
              (fst (DataManager.addSkin (js "t1") awp_fresh store_one)))
     = skins store_one.
Proof.
  split; [reflexivity|].
  exact (addSkin_then_removeSkin (js "t1") (js "t2") awp_fresh store_one
           eq_refl).
Defined.

Lemma filter_others_app (name exterior : jsstring) (before after : list Skin)
      (s : Skin) :
  same_key name exterior s = true ->
  (forall x, In x before \/ In x after -> same_key name exterior x = false) ->
  filter (fun x => negb (same_key name exterior x)) (before ++ s :: after)
  = before ++ after.
Proof.
  intros Hs Hothers. rewrite filter_app. cbn [filter]. rewrite Hs. cbn [negb].
  rewrite !filter_keep_all; [reflexivity| |];
    intros y Hy; apply negb_true_iff, Hothers; tauto.
Qed.

(** X4. After a removal the pair is not tracked, and the lookups of the
    other pairs are not affected.  The items kept are the items of the
    other pairs, each as often as before and in their order: when the
    pair is tracked by one item, the list afterwards is what stood
    before that item followed by what stood after it; when the pair is
    not tracked the list is the same; and the removal from a list in two
    parts is the removal from each part, in the same order. *)
Theorem removeSkin_frame (now name exterior : jsstring) (d : TrackermanData) :
  let d' := DataManager.removeSkin now name exterior d in
  DataManager.getSkin name exterior d' = None
  /\ (forall s, In s (skins d')
                <-> In s (skins d) /\ same_key name exterior s = false)
  /\ (forall name' exterior',
         (name', exterior') <> (name, exterior) ->
         DataManager.getSkin name' exterior' d'
         = DataManager.getSkin name' exterior' d)
  /\ (length (skins d') <= length (skins d))%nat
  /\ (forall before s after,
         skins d = before ++ s :: after ->
         same_key name exterior s = true ->
         (forall x, In x before \/ In x after ->
                    same_key name exterior x = false) ->
         skins d' = before ++ after)
  /\ (DataManager.getSkin name exterior d = None -> skins d' = skins d)
  /\ (forall l1 l2 t,
         skins d = l1 ++ l2 ->
         skins d'
         = skins (DataManager.removeSkin now name exterior (mkData l1 t))
             ++ skins (DataManager.removeSkin now name exterior (mkData l2 t))).
Proof.
  intros d'. split; [apply getSkin_removeSkin|].
  split; [|split; [|split; [|split; [|split]]]].
  - intros s. unfold d', DataManager.removeSkin. simpl.
    rewrite filter_In, negb_true_iff. reflexivity.
  - intros name' exterior' Hne. unfold d', DataManager.getSkin. simpl.
    apply find_filter_other. intros x Hx.
    now apply other_key with (name := name) (exterior := exterior).
  - unfold d'. simpl. apply filter_length_le.
  - intros before s after E Hs Hothers. unfold d', DataManager.removeSkin.
    cbn [skins DataManager.saveData]. rewrite E.
    now apply filter_others_app.
  - intros H. unfold d'. now rewrite (removeSkin_absent now _ _ _ H).
  - intros l1 l2 t E. unfold d', DataManager.removeSkin.
    cbn [skins DataManager.saveData]. rewrite E. apply filter_app.
Qed.

Lemma removeSkin_frame_witness :
  (skin_name awp_fresh, skin_exterior awp_fresh)
  <> (skin_name ak_fresh, skin_exterior ak_fresh)
  /\ DataManager.getSkin (skin_name awp_fresh) (skin_exterior awp_fresh)
       (DataManager.removeSkin (js "t1") (skin_name ak_fresh)
          (skin_exterior ak_fresh) store_three)
     = Some awp_fresh
  /\ skins (DataManager.removeSkin (js "t1") (skin_name awp_fresh)
              (skin_exterior awp_fresh) store_three)
     = [ak_fresh] ++ [m4_fresh].
Proof.
  assert (H : (skin_name awp_fresh, skin_exterior awp_fresh)
              <> (skin_name ak_fresh, skin_exterior ak_fresh))
    by discriminate.
  split; [exact H|]. split.
  - rewrite (proj1 (proj2 (proj2 (removeSkin_frame (js "t1") (skin_name ak_fresh)
                                    (skin_exterior ak_fresh) store_three)))
               _ _ H).
    reflexivity.
  - apply (proj1 (proj2 (proj2 (proj2 (proj2
             (removeSkin_frame (js "t1") (skin_name awp_fresh)
                (skin_exterior awp_fresh) store_three)))))
             [ak_fresh] awp_fresh [m4_fresh]).
    + reflexivity.
    + reflexivity.
    + intros x [[<-|[]]|[<-|[]]]; reflexivity.
Defined.

(** X5. Setting the thresholds of a pair that is not tracked throws
    'not found' and changes nothing; for a tracked pair it replaces the
    threshold pair as a whole and keeps the name, the exterior, the URL
    and the history of the item, and the lookups of the other pairs. *)
Theorem updateSkinThresholds_spec (now name exterior : jsstring)
        (th : Thresholds) (d : TrackermanData) :
  (DataManager.getSkin name exterior d = None ->
   DataManager.updateSkinThresholds now name exterior th d
   = (d, Throw (MkError (DataManager.not_found_message name exterior))))
  /\ (forall s,
         DataManager.getSkin name exterior d = Some s ->
         exists d',
           DataManager.updateSkinThresholds now name exterior th d = (d', Ok tt)
           /\ DataManager.getSkin name exterior d'
              = Some (mkSkin (skin_name s) (skin_exterior s) (skin_url s)
                             (skin_skindata s) (Some th))
           /\ length (skins d') = length (skins d)
           /\ forall name' exterior',
               (name', exterior') <> (name, exterior) ->
               DataManager.getSkin name' exterior' d'
               = DataManager.getSkin name' exterior' d).
Proof.
  split.
  - intros Hnone. unfold DataManager.updateSkinThresholds. now rewrite Hnone.
  - intros s Hs. unfold DataManager.updateSkinThresholds. rewrite Hs.
    eexists. split; [reflexivity|]. split; [|split].
    + unfold DataManager.getSkin in *. simpl.
      apply (@find_update_first name exterior
               (fun x => mkSkin (skin_name x) (skin_exterior x) (skin_url x)
                                (skin_skindata x) (Some th))
               (skins d) s); [reflexivity|exact Hs].
    + simpl. apply length_update_first.
    + intros name' exterior' Hne. unfold DataManager.getSkin. simpl.
      apply find_update_first_other. intros x Hx.
      split; now apply other_key with (name := name) (exterior := exterior).
Qed.

Lemma updateSkinThresholds_spec_witness :
  DataManager.getSkin (js "Karambit") ft store_one = None
  /\ DataManager.updateSkinThresholds (js "t1") (js "Karambit") ft
       sample_thresholds store_one
     = (store_one,
        Throw (MkError (DataManager.not_found_message (js "Karambit") ft)))
  /\ DataManager.getSkin ak_name ft store_one = Some ak_fresh
  /\ exists d',
      DataManager.updateSkinThresholds (js "t1") ak_name ft
        (mkThresholds (Some 50) None) store_one = (d', Ok tt)
      /\ DataManager.getSkin ak_name ft d'
         = Some (mkSkin ak_name ft ak_url [] (Some (mkThresholds (Some 50) None))).
Proof.
  split; [reflexivity|]. split.
  - exact (proj1 (updateSkinThresholds_spec (js "t1") (js "Karambit") ft
                    sample_thresholds store_one) eq_refl).
  - split; [reflexivity|].
    destruct (proj2 (updateSkinThresholds_spec (js "t1") ak_name ft
                       (mkThresholds (Some 50) None) store_one)
                    ak_fresh eq_refl) as (d' & H1 & H2 & _).
    exists d'. split; [exact H1|exact H2].
Defined.

(** ** The current views *)

Lemma find_map_active (name exterior : jsstring) (l : list Skin) :
  find (same_key name exterior) (map DataManager.active l)
  = option_map DataManager.active (find (same_key name exterior) l).
Proof.
  induction l as [|x l IH]; [reflexivity|].
  cbn [map find].
  change (same_key name exterior (DataManager.active x))
    with (same_key name exterior x).
  destruct (same_key name exterior x); [reflexivity|exact IH].
Qed.

Lemma filter_idem {A} (p : A -> bool) (l : list A) :
  filter p (filter p l) = filter p l.
Proof.
  apply filter_keep_all. intros x Hx. now apply filter_In in Hx.
Qed.

(** X6. The current view of one item is the lookup of its pair in the
    current view of all items.  A current view keeps the pairs, the URLs
    and the thresholds, holds only observations that are not superseded,
    and taking it twice changes nothing more. *)
Theorem current_views_agree (name exterior : jsstring) (d : TrackermanData) :
  DataManager.getActiveSkin name exterior d
  = find (same_key name exterior) (DataManager.getActiveSkins d)
  /\ map keyOf (DataManager.getActiveSkins d) = map keyOf (skins d)
  /\ map skin_url (DataManager.getActiveSkins d) = map skin_url (skins d)
  /\ map skin_thresholds (DataManager.getActiveSkins d)
     = map skin_thresholds (skins d)
  /\ Forall (fun s => forallb (fun x => negb (is_expired x)) (skin_skindata s)
                      = true)
            (DataManager.getActiveSkins d)
  /\ map DataManager.active (DataManager.getActiveSkins d)
     = DataManager.getActiveSkins d.
Proof.
  unfold DataManager.getActiveSkin, DataManager.getActiveSkins,
    DataManager.getSkin.
  split; [|split; [|split; [|split; [|split]]]].
  - rewrite find_map_active.
    destruct (find (same_key name exterior) (skins d)); reflexivity.
  - rewrite map_map. reflexivity.
  - rewrite map_map. reflexivity.
  - rewrite map_map. reflexivity.
  - apply Forall_forall. intros s Hs.
    apply in_map_iff in Hs as (s0 & <- & _). simpl.
    apply forallb_forall. intros x Hx. now apply filter_In in Hx.
  - rewrite map_map. apply map_ext. intros s.
    unfold DataManager.active. simpl. now rewrite filter_idem.
Qed.

(** ** The history is an append-only log *)

Lemma extends_refl (s : Skin) : extends s s.
Proof.
  split; [reflexivity|]. split; [reflexivity|].
  exists []. now rewrite app_nil_r.
Qed.

Lemma extends_trans (a b c : Skin) : extends a b -> extends b c -> extends a c.
Proof.
  intros (K1 & T1 & e1 & H1) (K2 & T2 & e2 & H2).
  split; [congruence|]. split; [congruence|].
  exists (e1 ++ e2). now rewrite H2, H1, app_assoc.
Qed.

Lemma extends_push (sd : SkinData) (url : jsstring) (s : Skin) :
  extends s (DataManager.push_data sd url s).
Proof.
  split; [reflexivity|]. split; [reflexivity|].
  exists [set_expired true sd]. simpl.
  now rewrite map_app, map_set_expired_twice.
Qed.

Lemma Forall2_extends_refl (l : list Skin) : Forall2 extends l l.
Proof. induction l; constructor; [apply extends_refl|assumption]. Qed.

Lemma Forall2_extends_trans (a : list Skin) :
  forall b c, Forall2 extends a b -> Forall2 extends b c -> Forall2 extends a c.
Proof.
  induction a as [|x a IH]; intros b c Hab Hbc.
  - inversion Hab; subst. inversion Hbc; subst. constructor.
  - inversion Hab as [|? y ? b' Hxy Hab']; subst.
    inversion Hbc as [|? z ? c' Hyz Hbc']; subst.
    constructor; [now apply extends_trans with y|now apply IH with b'].
Qed.

Lemma update_first_extends (p : Skin -> bool) (sd : SkinData) (url : jsstring)
      (l : list Skin) :
  Forall2 extends l (update_first p (DataManager.push_data sd url) l).
Proof.
  induction l as [|x l IH]; [constructor|].
  cbn [update_first]. destruct (p x).
  - constructor; [apply extends_push|apply Forall2_extends_refl].
  - constructor; [apply extends_refl|exact IH].
Qed.

(** X7. An append never deletes or reorders anything: every tracked item
    stays at its place with its pair and thresholds, and its stored
    observations stay in place, up to their superseded flag; the call
    adds at most one item, after the others. *)
Theorem addSkinData_append_only (now name exterior : jsstring) (sd : SkinData)
        (url : jsstring) (d : TrackermanData) :
  exists kept added,
    skins (DataManager.addSkinData now name exterior sd url d) = kept ++ added
    /\ Forall2 extends (skins d) kept
    /\ (DataManager.getSkin name exterior d <> None -> added = [])
    /\ (DataManager.getSkin name exterior d = None ->
        added = [mkSkin name exterior url [set_expired false sd] None]).
Proof.
  unfold DataManager.addSkinData.
  destruct (DataManager.getSkin name exterior d) as [s|]; simpl.
  - exists (update_first (same_key name exterior)
                         (DataManager.push_data sd url) (skins d)), [].
    rewrite app_nil_r. split; [reflexivity|].
    split; [apply update_first_extends|]. split; [reflexivity|discriminate].
  - exists (skins d), [mkSkin name exterior url [set_expired false sd] None].
    split; [reflexivity|]. split; [apply Forall2_extends_refl|].
    split; [intros H; now contradiction H|reflexivity].
Qed.

Lemma addSkinData_append_only_witness :
  DataManager.getSkin ak_name ft store_three <> None
  /\ exists kept,
      skins (DataManager.addSkinData (js "t1") ak_name ft (observation "t1" 10)
                                     ak_url store_three) = kept
      /\ Forall2 extends (skins store_three) kept.
Proof.
  assert (H : DataManager.getSkin ak_name ft store_three <> None)
    by discriminate.
  split; [exact H|].
  destruct (addSkinData_append_only (js "t1") ak_name ft (observation "t1" 10)
              ak_url store_three) as (kept & added & H1 & H2 & H3 & _).
  exists kept. rewrite H1, (H3 H), app_nil_r. split; [reflexivity|exact H2].
Defined.

(** ** A cycle on any store *)

Lemma fetchOne_extends (env : Env) (i : nat) (w : World) :
  exists w',
    AutoScheduler.fetchOne env i w = (w', Ok tt)
    /\ w_settings w' = w_settings w
    /\ Forall2 extends (skins (w_data w)) (skins (w_data w')).
Proof.
  destruct (fetchOne_spec env i w) as (w' & Hrun & Hset & Hstep & _).
  exists w'. split; [exact Hrun|]. split; [exact Hset|].
  unfold step_data in Hstep.
  destruct (nth_error (skins (w_data w)) i) as [s|] eqn:Hi;
    [|rewrite Hstep; apply Forall2_extends_refl].
  destruct (scrape env i (skin_url s) AutoScheduler.scrapingOptions)
    as [[|item items]|e]; try (rewrite Hstep; apply Forall2_extends_refl).
  destruct Hstep as (t0 & t1 & ->). unfold DataManager.addSkinData.
  destruct (DataManager.getSkin (skin_name s) (skin_exterior s) (w_data w))
    eqn:E; [|now apply getSkin_of_element in Hi].
  simpl. apply update_first_extends.
Qed.

Lemma fetchLoop_extends (env : Env) (indices : list nat) :
  forall w,
    exists w',
      AutoScheduler.fetchLoop env indices w = (w', Ok tt)
      /\ w_settings w' = w_settings w
      /\ Forall2 extends (skins (w_data w)) (skins (w_data w')).
Proof.
  induction indices as [|i rest IH]; intros w.
  - exists w. repeat split. apply Forall2_extends_refl.
  - cbn [AutoScheduler.fetchLoop]. rewrite bind_run.
    destruct (fetchOne_extends env i w) as (w1 & Hrun & Hset & Hext).
    rewrite Hrun. destruct (IH w1) as (w2 & Hrun2 & Hset2 & Hext2).
    exists w2. split; [exact Hrun2|]. split; [congruence|].
    now apply Forall2_extends_trans with (skins (w_data w1)).
Qed.

(** X8. A cycle never throws, on any store (duplicate pairs included) and
    whatever the fetches and the notifier do.  It only appends: every
    item stays at its place with its pair, its thresholds and its stored
    observations.  Of the settings it changes the scheduler part only,
    which, when an item is tracked, becomes the scheduler's own copy of
    them with the completion time: the stored [enabled] and
    [intervalMinutes] are overwritten by the scheduler's. *)
Theorem cycle_total_and_append_only (env : Env)
        (this_settings : AutoSchedulerSettings) (w : World) :
  exists w',
    AutoScheduler.executeScheduledFetch env this_settings w = (w', Ok tt)
    /\ Forall2 extends (skins (w_data w)) (skins (w_data w'))
    /\ discord (w_settings w') = discord (w_settings w)
    /\ scraping (w_settings w') = scraping (w_settings w)
    /\ logging (w_settings w') = logging (w_settings w)
    /\ (skins (w_data w) <> [] ->
        exists t,
          autoScheduler (w_settings w')
          = mkAuto (as_enabled this_settings)
                   (as_intervalMinutes this_settings) (Some t)).
Proof.
  unfold AutoScheduler.executeScheduledFetch.
  rewrite bind_run. unfold get_data at 1. cbv beta iota.
  unfold DataManager.getSkins.
  destruct (skins (w_data w)) as [|s0 l0] eqn:Hl.
  - exists w. simpl. rewrite Hl. repeat split; try constructor.
    intros H. now contradiction H.
  - change (length (s0 :: l0) =? 0)%nat with false. cbv iota.
    destruct (fetchLoop_extends env (seq 0 (length (s0 :: l0))) w)
      as (w1 & Hrun & Hset & Hext).
    rewrite bind_run, Hrun, bind_run. simpl.
    eexists. split; [reflexivity|]. simpl. rewrite Hset.
    rewrite Hl in Hext.
    split; [exact Hext|]. repeat split.
    intros _. eexists. reflexivity.
Qed.

Lemma cycle_total_and_append_only_witness :
  skins (w_data (world_of store_three)) <> []
  /\ exists w' t,
      AutoScheduler.executeScheduledFetch env_second_fails
        (mkAuto false 45 None) (world_of store_three) = (w', Ok tt)
      /\ autoScheduler (w_settings w') = mkAuto false 45 (Some t).
Proof.
  assert (H : skins (w_data (world_of store_three)) <> []) by discriminate.
  split; [exact H|].
  destruct (cycle_total_and_append_only env_second_fails (mkAuto false 45 None)
              (world_of store_three)) as (w' & H1 & _ & _ & _ & _ & H6).
  destruct (H6 H) as (t & Ht).
  exists w', t. split; [exact H1|exact Ht].
Defined.

(** ** The timer of the scheduler *)

Lemma floor_of_at_least_one (x : Q) : 1 <= x -> (1 <= Qfloor x)%Z.
Proof.
  intros H. pose proof (Qlt_floor x) as H1.
  assert (H2 : inject_Z 1 < inject_Z (Qfloor x + 1))
    by (eapply Qle_lt_trans; [exact H|exact H1]).
  rewrite <- Zlt_Qlt in H2. lia.
Qed.

Lemma js_rem_60 (m : Q) :
  60 <= m -> js_rem m 60 == m - 60 * inject_Z (Qfloor (m / 60)).
Proof.
  intros H. unfold js_rem, Qtruncate.
  assert (Hpos : 0 <= m / 60).
  { apply Qle_shift_div_l; [reflexivity|]. lra. }
  apply Qle_bool_iff in Hpos. rewrite Hpos. reflexivity.
Qed.

Lemma floor_of_whole_hours (h : Z) : Qfloor (inject_Z (60 * h) / 60) = h.
Proof.
  unfold Qdiv, Qmult, Qinv, inject_Z, Qfloor. cbn [Qnum Qden].
  change (Z.pos (1 * 60)) with 60%Z.
  rewrite Z.mul_1_r, Z.mul_comm. apply Z.div_mul. discriminate.
Qed.

Lemma whole_hours_expression (h : Z) :
  (1 <= h)%Z ->
  Timer.createCronExpression (inject_Z (60 * h))
  = Ok [Lit (js "0 */"); Num (inject_Z h); Lit (js " * * * *")].
Proof.
  intros H. unfold Timer.createCronExpression.
  assert (H1 : Qle_bool 1 (inject_Z (60 * h)) = true).
  { apply Qle_bool_iff. change 1 with (inject_Z 1). rewrite <- Zle_Qle. lia. }
  assert (H60 : 60 <= inject_Z (60 * h)).
  { change 60 with (inject_Z 60). rewrite <- Zle_Qle. lia. }
  rewrite H1. cbn [negb]. apply Qle_bool_iff in H60 as Hb. rewrite Hb.
  assert (R : Qeq_bool (js_rem (inject_Z (60 * h)) 60) 0 = true).
  { apply Qeq_bool_iff. rewrite (js_rem_60 _ H60), floor_of_whole_hours.
    rewrite inject_Z_mult. change (inject_Z 60) with 60. ring. }
  rewrite R, floor_of_whole_hours. reflexivity.
Qed.

(** X9. [createCronExpression] throws exactly for an interval under one
    minute.  Every expression it returns has six fields, of which the
    first is 0.  Under an hour the second field, the minutes, is stepped
    by the interval and the other fields are free.  From an hour on the
    interval is split into whole hours (at least one) and a remainder
    under 60.  With a remainder the minutes are stepped by the remainder
    and the third field, the hours, by the hours.  Without a remainder
    the hours are written into the field of the minutes and the field of
    the hours is left free: the expression of [h] whole hours is the
    expression of [h] minutes. *)
Theorem createCronExpression_spec (minutes : Q) :
  (minutes < 1 <->
   Timer.createCronExpression minutes = Throw Timer.interval_error)
  /\ (1 <= minutes -> minutes < 60 ->
      exists expression,
        Timer.createCronExpression minutes = Ok expression
        /\ cronFields expression = everyMinutes minutes)
  /\ (60 <= minutes ->
      exists (hours : Z) (remainder : Q) (expression : list Piece),
        (1 <= hours)%Z
        /\ 0 <= remainder /\ remainder < 60
        /\ minutes == 60 * inject_Z hours + remainder
        /\ Timer.createCronExpression minutes = Ok expression
        /\ cronFields expression
           = if Qeq_bool remainder 0
             then everyMinutes (inject_Z hours)
             else everyMinutesOfHours remainder (inject_Z hours))
  /\ (forall h : Z,
         (1 <= h < 60)%Z ->
         Timer.createCronExpression (inject_Z (60 * h))
         = Timer.createCronExpression (inject_Z h)).
Proof.
  split; [|split; [|split]].
  - unfold Timer.createCronExpression.
    destruct (Qle_bool 1 minutes) eqn:E; cbn [negb].
    + apply Qle_bool_iff in E. split; [lra|].
      destruct (Qle_bool 60 minutes);
        [destruct (Qeq_bool (js_rem minutes 60) 0)|]; discriminate.
    + split; [reflexivity|]. intros _.
      apply Qnot_le_lt. intros H. apply Qle_bool_iff in H. congruence.
  - intros H1 H2. unfold Timer.createCronExpression.
    apply Qle_bool_iff in H1. rewrite H1. cbn [negb].
    destruct (Qle_bool 60 minutes) eqn:E.
    + apply Qle_bool_iff in E. lra.
    + eexists. split; reflexivity.
  - intros H. unfold Timer.createCronExpression.
    assert (H1 : Qle_bool 1 minutes = true) by (apply Qle_bool_iff; lra).
    rewrite H1. cbn [negb]. apply Qle_bool_iff in H as Hb. rewrite Hb.
    exists (Qfloor (minutes / 60)), (js_rem minutes 60).
    pose proof (js_rem_60 minutes H) as Hrem.
    pose proof (Qfloor_le (minutes / 60)) as Hlo.
    pose proof (Qlt_floor (minutes / 60)) as Hhi.
    rewrite inject_Z_plus in Hhi.
    assert (Hm : minutes == 60 * (minutes / 60)) by field.
    assert (Hh : (1 <= Qfloor (minutes / 60))%Z).
    { apply floor_of_at_least_one. apply Qle_shift_div_l; [reflexivity|]. lra. }
    change (inject_Z 1) with 1 in Hhi.
    assert (Hr : 0 <= js_rem minutes 60 /\ js_rem minutes 60 < 60
                 /\ minutes == 60 * inject_Z (Qfloor (minutes / 60))
                               + js_rem minutes 60).
    { revert Hrem Hlo Hhi Hm.
      generalize (inject_Z (Qfloor (minutes / 60))) as whole.
      generalize (minutes / 60) as q. generalize (js_rem minutes 60) as r.
      intros r q whole Hrem Hlo Hhi Hm. repeat split; lra. }
    destruct Hr as (R1 & R2 & R3).
    destruct (Qeq_bool (js_rem minutes 60) 0) eqn:Z0.
    + eexists. split; [exact Hh|]. split; [exact R1|]. split; [exact R2|].
      split; [exact R3|]. split; reflexivity.
    + eexists. split; [exact Hh|]. split; [exact R1|]. split; [exact R2|].
      split; [exact R3|]. split; reflexivity.
  - intros h [Hlo Hhi]. rewrite (whole_hours_expression h Hlo).
    unfold Timer.createCronExpression.
    assert (H1 : Qle_bool 1 (inject_Z h) = true).
    { apply Qle_bool_iff. change 1 with (inject_Z 1). now rewrite <- Zle_Qle. }
    assert (H60 : Qle_bool 60 (inject_Z h) = false).
    { apply not_true_iff_false. intros X. apply Qle_bool_iff in X.
      change 60 with (inject_Z 60) in X. rewrite <- Zle_Qle in X. lia. }
    now rewrite H1, H60.
Qed.

Lemma createCronExpression_spec_witness :
  (1 <= 1 < 60)%Z
  /\ Timer.createCronExpression (inject_Z (60 * 1))
     = Timer.createCronExpression (inject_Z 1)
  /\ 60 <= 90
  /\ (exists (hours : Z) (remainder : Q) (expression : list Piece),
         (1 <= hours)%Z
         /\ 0 <= remainder /\ remainder < 60
         /\ 90 == 60 * inject_Z hours + remainder
         /\ Timer.createCronExpression 90 = Ok expression
         /\ cronFields expression
            = if Qeq_bool remainder 0
              then everyMinutes (inject_Z hours)
              else everyMinutesOfHours remainder (inject_Z hours))
  /\ (1 # 2) < 1
  /\ Timer.createCronExpression (1 # 2) = Throw Timer.interval_error.
Proof.
  assert (W : (1 <= 1 < 60)%Z) by lia.
  assert (H : 60 <= 90) by discriminate.
  assert (L : (1 # 2) < 1) by reflexivity.
  split; [exact W|]. split; [|split; [exact H|split; [|split; [exact L|]]]].
  - exact (proj2 (proj2 (proj2 (createCronExpression_spec 1))) 1%Z W).
  - exact (proj1 (proj2 (proj2 (createCronExpression_spec 90))) H).
  - exact (proj1 (proj1 (createCronExpression_spec (1 # 2))) L).
Defined.

Section Cron.

Variable schedule_error : list Piece -> option JsError.

Lemma start_enabled (s : Scheduler) :
  as_enabled (sch_settings s) = true ->
  Timer.start schedule_error s
  = match Timer.createCronExpression (as_intervalMinutes (sch_settings s)) with
    | Throw e => (mkScheduler (sch_settings s) None, Throw e)
    | Ok expression =>
        match schedule_error expression with
        | Some e => (mkScheduler (sch_settings s) None, Throw e)
        | None =>
            (mkScheduler (sch_settings s) (Some (mkJob expression true)),
             Ok tt)
        end
    end.
Proof.
  intros En. unfold Timer.start, Timer.stop. rewrite En. cbn [negb].
  destruct s as [st [j|]]; cbn [sch_cronJob sch_settings]; reflexivity.
Qed.

Lemma start_disabled (s : Scheduler) :
  as_enabled (sch_settings s) = false ->
  Timer.start schedule_error s = (s, Ok tt).
Proof. intros En. unfold Timer.start. rewrite En. reflexivity. Qed.

Lemma cron_ok (minutes : Q) :
  1 <= minutes -> exists e, Timer.createCronExpression minutes = Ok e.
Proof.
  intros H. unfold Timer.createCronExpression.
  apply Qle_bool_iff in H. rewrite H. cbn [negb].
  destruct (Qle_bool 60 minutes);
    [destruct (Qeq_bool (js_rem minutes 60) 0)|]; eexists; reflexivity.
Qed.

Lemma cron_throws (minutes : Q) :
  minutes < 1 -> Timer.createCronExpression minutes = Throw Timer.interval_error.
Proof.
  intros H. unfold Timer.createCronExpression.
  destruct (Qle_bool 1 minutes) eqn:E; [|reflexivity].
  apply Qle_bool_iff in E. lra.
Qed.

(** X10. Starting and stopping the timer, whatever node-cron accepts.
    [start] never changes the settings, and starting twice is the same
    as starting once: the second call has the same outcome and leaves
    the same scheduler.  [stop] is idempotent and leaves no job,
    whatever came before.  A disabled scheduler is not touched by
    [start].  With the scheduler enabled [start] throws and leaves no
    job, also when one was running before, in two cases: the interval
    is under one minute, or node-cron rejects the expression of the
    interval.  Otherwise it leaves exactly one started job, with the
    expression of the current interval. *)
Theorem start_stop_settle (s : Scheduler) :
  sch_settings (fst (Timer.start schedule_error s)) = sch_settings s
  /\ Timer.start schedule_error (fst (Timer.start schedule_error s))
     = (fst (Timer.start schedule_error s),
        snd (Timer.start schedule_error s))
  /\ Timer.stop s = mkScheduler (sch_settings s) None
  /\ Timer.stop (Timer.stop s) = Timer.stop s
  /\ (as_enabled (sch_settings s) = false ->
      Timer.start schedule_error s = (s, Ok tt))
  /\ (as_enabled (sch_settings s) = true ->
      as_intervalMinutes (sch_settings s) < 1 ->
      Timer.start schedule_error s
      = (mkScheduler (sch_settings s) None, Throw Timer.interval_error))
  /\ (as_enabled (sch_settings s) = true ->
      1 <= as_intervalMinutes (sch_settings s) ->
      exists expression,
        Timer.createCronExpression (as_intervalMinutes (sch_settings s))
        = Ok expression
        /\ (forall e,
               schedule_error expression = Some e ->
               Timer.start schedule_error s
               = (mkScheduler (sch_settings s) None, Throw e))
        /\ (schedule_error expression = None ->
            Timer.start schedule_error s
            = (mkScheduler (sch_settings s) (Some (mkJob expression true)),
               Ok tt)))
  /\ (forall e,
         snd (Timer.start schedule_error s) = Throw e ->
         sch_cronJob (fst (Timer.start schedule_error s)) = None
         /\ as_enabled (sch_settings s) = true
         /\ (as_intervalMinutes (sch_settings s) < 1
             \/ exists expression,
                 Timer.createCronExpression
                   (as_intervalMinutes (sch_settings s)) = Ok expression
                 /\ schedule_error expression = Some e)).
Proof.
  assert (Hstop : Timer.stop s = mkScheduler (sch_settings s) None).
  { unfold Timer.stop. destruct s as [st [j|]]; reflexivity. }
  split; [|split; [|split; [exact Hstop|split; [|split; [|split; [|split]]]]]].
  - destruct (as_enabled (sch_settings s)) eqn:En.
    + rewrite (start_enabled s En).
      destruct (Timer.createCronExpression _) as [x|x];
        [destruct (schedule_error x)|]; reflexivity.
    + rewrite (start_disabled s En). reflexivity.
  - destruct (as_enabled (sch_settings s)) eqn:En.
    + rewrite (start_enabled s En).
      destruct (Timer.createCronExpression (as_intervalMinutes (sch_settings s)))
        as [x|x] eqn:C; [destruct (schedule_error x) eqn:R|]; cbn [fst snd];
        rewrite start_enabled by exact En; cbn [sch_settings];
        rewrite C; try rewrite R; reflexivity.
    + rewrite (start_disabled s En). cbn [fst snd]. apply start_disabled, En.
  - rewrite Hstop. reflexivity.
  - apply start_disabled.
  - intros En Hi. rewrite (start_enabled s En), (cron_throws _ Hi). reflexivity.
  - intros En Hi. destruct (cron_ok _ Hi) as [x C]. exists x.
    split; [exact C|]. rewrite (start_enabled s En), C.
    split; [intros e ->; reflexivity|intros ->; reflexivity].
  - intros e. destruct (as_enabled (sch_settings s)) eqn:En.
    + rewrite (start_enabled s En).
      destruct (Qlt_le_dec (as_intervalMinutes (sch_settings s)) 1) as [Lt|Ge].
      * rewrite (cron_throws _ Lt). intros _. repeat split. now left.
      * destruct (cron_ok _ Ge) as [x C]. rewrite C.
        destruct (schedule_error x) as [e0|] eqn:R; [|discriminate].
        cbn [fst snd]. intros [= <-]. repeat split. right. now exists x.
    + rewrite (start_disabled s En). discriminate.
Qed.

End Cron.

Lemma start_stop_settle_witness :
  let fractional := MkError (js "*/1.5 is not a valid expression") in
  let library := fun e : list Piece =>
                   match e with
                   | [_; Num q; _] =>
                       if Qeq_bool (inject_Z (Qfloor q)) q then None
                       else Some fractional
                   | _ => None
                   end in
  let hourly := mkScheduler (mkAuto true 60 None) None in
  let odd := mkScheduler (mkAuto true (3 # 2) None)
                         (Some (mkJob [Lit (js "0 */5 * * * *")] true)) in
  let broken := mkScheduler (mkAuto true 0 None)
                            (Some (mkJob [Lit (js "0 */5 * * * *")] true)) in
  (exists expression,
     Timer.createCronExpression 60 = Ok expression
     /\ Timer.start library hourly
        = (mkScheduler (mkAuto true 60 None) (Some (mkJob expression true)),
           Ok tt))
  /\ Timer.start library odd
     = (mkScheduler (mkAuto true (3 # 2) None) None, Throw fractional)
  /\ Timer.start library broken
     = (mkScheduler (mkAuto true 0 None) None, Throw Timer.interval_error).
Proof.
  intros fractional library hourly odd broken. split; [|split].
  - destruct (proj1 (proj2 (proj2 (proj2 (proj2 (proj2 (proj2
               (start_stop_settle library hourly)))))))
               eq_refl ltac:(discriminate)) as (x & C & _ & A).
    exists x. split; [exact C|]. apply A.
    cbv in C. injection C as <-. reflexivity.
  - destruct (proj1 (proj2 (proj2 (proj2 (proj2 (proj2 (proj2
               (start_stop_settle library odd)))))))
               eq_refl ltac:(discriminate)) as (x & C & R & _).
    apply R. cbv in C. injection C as <-. reflexivity.
  - apply (proj1 (proj2 (proj2 (proj2 (proj2 (proj2
             (start_stop_settle library broken))))))); reflexivity.
Defined.

(** X11. [AutoScheduler.updateSettings], whatever node-cron accepts and
    shows.  It always adopts the new settings.  It never gives a job to
    a scheduler that had none.  When the job is not shown running it is
    kept as it is, with the expression of the old interval, also when
    the new settings are disabled.  When it is shown running, the job is
    stopped and the outcome is that of starting a scheduler without job
    under the new settings, when these are enabled.  So the method
    throws only when the job was shown running and the new settings are
    enabled and either their interval is under one minute or node-cron
    rejects its expression; no job is left then. *)
Theorem scheduler_updateSettings_spec
  (schedule_error : list Piece -> option JsError)
  (shows_running : bool) (newSettings : AutoSchedulerSettings) (s : Scheduler) :
  let outcome := Timer.updateSettings schedule_error shows_running
                   newSettings s in
  sch_settings (fst outcome) = newSettings
  /\ (sch_cronJob s = None -> outcome = (mkScheduler newSettings None, Ok tt))
  /\ (Timer.running shows_running s = false ->
      outcome = (mkScheduler newSettings (sch_cronJob s), Ok tt))
  /\ (Timer.running shows_running s = true ->
      outcome
      = if as_enabled newSettings
        then Timer.start schedule_error (mkScheduler newSettings None)
        else (mkScheduler newSettings None, Ok tt))
  /\ (forall e,
      snd outcome = Throw e ->
      Timer.running shows_running s = true
      /\ as_enabled newSettings = true
      /\ (as_intervalMinutes newSettings < 1
          \/ exists expression,
              Timer.createCronExpression (as_intervalMinutes newSettings)
              = Ok expression
              /\ schedule_error expression = Some e)
      /\ sch_cronJob (fst outcome) = None).
Proof.
  intros outcome. unfold outcome.
  assert (Hidle : Timer.running shows_running s = false ->
                  Timer.updateSettings schedule_error shows_running
                    newSettings s
                  = (mkScheduler newSettings (sch_cronJob s), Ok tt)).
  { intros R. unfold Timer.updateSettings. rewrite R.
    rewrite andb_false_r. reflexivity. }
  assert (Hrun : Timer.running shows_running s = true ->
                 Timer.updateSettings schedule_error shows_running
                   newSettings s
                 = if as_enabled newSettings
                   then Timer.start schedule_error (mkScheduler newSettings None)
                   else (mkScheduler newSettings None, Ok tt)).
  { intros R. unfold Timer.updateSettings. rewrite R, andb_true_r.
    unfold Timer.stop. destruct s as [st [j|]]; [reflexivity|discriminate R]. }
  split; [|split; [|split; [exact Hidle|split; [exact Hrun|]]]].
  - destruct (Timer.running shows_running s) eqn:R.
    + rewrite (Hrun eq_refl). destruct (as_enabled newSettings) eqn:En;
        [|reflexivity].
      rewrite start_enabled by exact En. cbn [sch_settings].
      destruct (Timer.createCronExpression _) as [x|x];
        [destruct (schedule_error x)|]; reflexivity.
    + rewrite (Hidle eq_refl). reflexivity.
  - intros N. rewrite Hidle; [rewrite N; reflexivity|].
    unfold Timer.running. rewrite N. reflexivity.
  - intros e. destruct (Timer.running shows_running s) eqn:R.
    + rewrite (Hrun eq_refl). destruct (as_enabled newSettings) eqn:En;
        [|discriminate].
      rewrite start_enabled by exact En. cbn [sch_settings].
      destruct (Qlt_le_dec (as_intervalMinutes newSettings) 1) as [Lt|Ge].
      * rewrite (cron_throws _ Lt). intros _. repeat split. now left.
      * destruct (cron_ok _ Ge) as [x C]. rewrite C.
        destruct (schedule_error x) as [e0|] eqn:Rj; [|discriminate].
        cbn [fst snd]. intros [= <-]. repeat split. right. now exists x.
    + rewrite (Hidle eq_refl). discriminate.
Qed.

Lemma scheduler_updateSettings_spec_witness :
  let fractional := MkError (js "*/1.5 is not a valid expression") in
  let library := fun e : list Piece =>
                   match e with
                   | [_; Num q; _] =>
                       if Qeq_bool (inject_Z (Qfloor q)) q then None
                       else Some fractional
                   | _ => None
                   end in
  let job := mkJob [Lit (js "0 */5 * * * *")] true in
  let s := mkScheduler (mkAuto true 5 None) (Some job) in
  Timer.updateSettings library false (mkAuto false 30 None) s
  = (mkScheduler (mkAuto false 30 None) (Some job), Ok tt)
  /\ Timer.updateSettings library true (mkAuto false 30 None) s
     = (mkScheduler (mkAuto false 30 None) None, Ok tt)
  /\ Timer.updateSettings library true (mkAuto true (3 # 2) None) s
     = (mkScheduler (mkAuto true (3 # 2) None) None, Throw fractional).
Proof.
  intros fractional library job s. split; [|split].
  - apply (proj1 (proj2 (proj2
             (scheduler_updateSettings_spec library false
                (mkAuto false 30 None) s)))).
    reflexivity.
  - apply (proj1 (proj2 (proj2 (proj2
             (scheduler_updateSettings_spec library true
                (mkAuto false 30 None) s))))).
    reflexivity.
  - rewrite (proj1 (proj2 (proj2 (proj2
               (scheduler_updateSettings_spec library true
                  (mkAuto true (3 # 2) None) s)))) eq_refl).
    reflexivity.
Defined.

(** X12. The scheduler part of [TrackermanService.updateSettings] ends in
    a state that the new settings and node-cron's verdict on their
    expression decide, whatever the scheduler was doing and whatever the
    library shows as [running]: no job when they are disabled; an error
    and no job when they are enabled with an interval under one minute,
    or with an interval whose expression node-cron rejects; one started
    job with the expression of the new interval otherwise. *)
Theorem service_update_decided_by_settings
  (schedule_error : list Piece -> option JsError)
  (shows_running : bool) (newSettings : AutoSchedulerSettings) (s : Scheduler) :
  Timer.serviceUpdate schedule_error shows_running newSettings s
  = if as_enabled newSettings
    then match Timer.createCronExpression (as_intervalMinutes newSettings) with
         | Ok expression =>
             match schedule_error expression with
             | None =>
                 (mkScheduler newSettings (Some (mkJob expression true)), Ok tt)
             | Some e => (mkScheduler newSettings None, Throw e)
             end
         | Throw e => (mkScheduler newSettings None, Throw e)
         end
    else (mkScheduler newSettings None, Ok tt).
Proof.
  unfold Timer.serviceUpdate.
  destruct (Timer.running shows_running s) eqn:R.
  - assert (U : Timer.updateSettings schedule_error shows_running newSettings s
                = if as_enabled newSettings
                  then Timer.start schedule_error (mkScheduler newSettings None)
                  else (mkScheduler newSettings None, Ok tt)).
    { unfold Timer.updateSettings. rewrite R, andb_true_r.
      unfold Timer.stop. destruct s as [st [j|]]; [reflexivity|discriminate R]. }
    rewrite U. destruct (as_enabled newSettings) eqn:En.
    + rewrite start_enabled by exact En. cbn [sch_settings].
      destruct (Timer.createCronExpression (as_intervalMinutes newSettings))
        as [x|x] eqn:C; [|reflexivity].
      destruct (schedule_error x) eqn:Rj; [reflexivity|].
      rewrite start_enabled by exact En. cbn [sch_settings]. rewrite C, Rj.
      reflexivity.
    + reflexivity.
  - assert (U : Timer.updateSettings schedule_error shows_running newSettings s
                = (mkScheduler newSettings (sch_cronJob s), Ok tt)).
    { unfold Timer.updateSettings. rewrite R, andb_false_r. reflexivity. }
    rewrite U. destruct (as_enabled newSettings) eqn:En.
    + rewrite start_enabled by exact En. cbn [sch_settings].
      destruct (Timer.createCronExpression (as_intervalMinutes newSettings))
        as [x|x]; [destruct (schedule_error x)|]; reflexivity.
    + unfold Timer.stop. cbn [sch_cronJob sch_settings].
      destruct (sch_cronJob s); reflexivity.
Qed.

(** ** The filter, the sort and the truncation *)

Lemma inOrder_refl (pt : PriceType) (a : SteamMarketItem) : inOrder pt a a.
Proof. destruct pt; apply Qle_refl. Qed.

Lemma inOrder_trans (pt : PriceType) (a b c : SteamMarketItem) :
  inOrder pt a b -> inOrder pt b c -> inOrder pt a c.
Proof. destruct pt; simpl; intros H1 H2; eapply Qle_trans; eauto. Qed.

Lemma before_inOrder (pt : PriceType) (a b : SteamMarketItem) :
  before pt a b = true -> inOrder pt a b.
Proof.
  destruct pt; simpl; intros H; apply negb_true_iff in H;
    apply Qlt_le_weak, Qnot_le_lt; intros L; apply Qle_bool_iff in L;
    congruence.
Qed.

Lemma not_before_inOrder (pt : PriceType) (a b : SteamMarketItem) :
  before pt a b = false -> inOrder pt b a.
Proof.
  destruct pt; simpl; intros H; apply negb_false_iff in H;
    now apply Qle_bool_iff in H.
Qed.

Lemma before_other_price (pt : PriceType) (a b : SteamMarketItem) (p : Q) :
  before pt a b = true -> hasPrice p b = true -> hasPrice p a = false.
Proof.
  unfold hasPrice. intros H Hb. apply Qeq_bool_iff in Hb.
  destruct (Qeq_bool (item_price a) p) eqn:E; [|reflexivity].
  apply Qeq_bool_iff in E. exfalso.
  destruct pt; simpl in H; apply negb_true_iff in H;
    apply not_true_iff_false in H; apply H, Qle_bool_iff;
    rewrite E, Hb; apply Qle_refl.
Qed.

Lemma insertItem_ordered (pt : PriceType) (x : SteamMarketItem)
      (l : list SteamMarketItem) :
  priceOrdered pt l -> priceOrdered pt (insertItem pt x l).
Proof.
  induction l as [|y l IH]; intros H.
  - simpl. split; [constructor|exact I].
  - destruct H as [Hy Hl]. cbn [insertItem].
    destruct (before pt y x) eqn:E.
    + split; [|now apply IH].
      apply Forall_forall. intros z Hz.
      apply (Permutation_in _ (insertItem_perm pt x l)) in Hz.
      destruct Hz as [<-|Hz]; [now apply before_inOrder|].
      rewrite Forall_forall in Hy. now apply Hy.
    + pose proof (not_before_inOrder _ _ _ E) as Hxy.
      split; [|split; assumption].
      constructor; [exact Hxy|].
      eapply Forall_impl; [|exact Hy].
      intros z Hz. eapply inOrder_trans; eauto.
Qed.

Lemma sortItems_ordered (pt : PriceType) (l : list SteamMarketItem) :
  priceOrdered pt (sortItems pt l).
Proof.
  induction l as [|x l IH]; [exact I|]. now apply insertItem_ordered.
Qed.

Lemma firstn_ordered (pt : PriceType) (l : list SteamMarketItem) :
  forall n, priceOrdered pt l -> priceOrdered pt (firstn n l).
Proof.
  induction l as [|x l IH]; intros [|n] H; try exact I.
  destruct H as [Hx Hl]. cbn [firstn]. split; [|now apply IH].
  apply Forall_forall. intros z Hz. rewrite Forall_forall in Hx. apply Hx.
  rewrite <- (firstn_skipn n l). apply in_or_app. now left.
Qed.

Lemma slice0_firstn {A} (count : Z) (l : list A) :
  exists n, slice0 count l = firstn n l
            /\ ((0 <= count)%Z -> n = Z.to_nat count)
            /\ ((count < 0)%Z -> n = (length l - Z.to_nat (- count))%nat).
Proof.
  unfold slice0. destruct (count <? 0)%Z eqn:E.
  - apply Z.ltb_lt in E. eexists. split; [reflexivity|]. split; [lia|reflexivity].
  - apply Z.ltb_ge in E. eexists. split; [reflexivity|]. split; [reflexivity|lia].
Qed.

Lemma filterExterior_wanted (options : ScrapingOptions) (wanted : jsstring)
      (items : list SteamMarketItem) (x : SteamMarketItem) :
  wantedExterior options wanted ->
  In x (filterExterior (opt_exteriorFilter options) items) ->
  toLowerCase (item_exterior x) = toLowerCase wanted.
Proof.
  intros [E Hne] H. rewrite E in H. destruct wanted as [|c w]; [congruence|].
  cbn [filterExterior] in H. apply filter_In in H. destruct H as [_ H].
  now apply str_eqb_eq in H.
Qed.

(** X13. What every extractor returns, for any candidate list: the items
    are in price order for the price type asked; with a count of at
    least 0 there are at most [count] of them; each is a candidate, and
    when an exterior filter is in force its exterior equals the one
    asked up to letter case; with a count of at least 1 the first item
    returned is an extreme of all the candidates that pass the filter
    (the cheapest under [lowest], the dearest under [highest]), and
    nothing is returned only when no candidate passes the filter. *)
Theorem postProcess_ordered_and_bounded
        (options : ScrapingOptions) (items : list SteamMarketItem) :
  priceOrdered (opt_priceType options) (postProcess options items)
  /\ ((0 <= opt_count options)%Z ->
      (length (postProcess options items) <= Z.to_nat (opt_count options))%nat)
  /\ (forall x, In x (postProcess options items) -> In x items)
  /\ (forall wanted x,
         wantedExterior options wanted ->
         In x (postProcess options items) ->
         toLowerCase (item_exterior x) = toLowerCase wanted)
  /\ ((1 <= opt_count options)%Z ->
      forall x rest,
        postProcess options items = x :: rest ->
        forall y,
          In y (filterExterior (opt_exteriorFilter options) items) ->
          inOrder (opt_priceType options) x y)
  /\ ((1 <= opt_count options)%Z ->
      postProcess options items = [] ->
      filterExterior (opt_exteriorFilter options) items = []).
Proof.
  set (kept := filterExterior (opt_exteriorFilter options) items).
  set (sorted := sortItems (opt_priceType options) kept).
  assert (P : Permutation sorted kept) by apply sortItems_perm.
  destruct (slice0_firstn (opt_count options) sorted) as (n & En & Hn & _).
  assert (E : postProcess options items = firstn n sorted) by exact En.
  split; [|split; [|split; [|split; [|split]]]].
  - rewrite E. apply firstn_ordered, sortItems_ordered.
  - intros H. rewrite E, (Hn H). apply firstn_le_length.
  - intros x. apply postProcess_incl.
  - intros wanted x W Hx. apply (filterExterior_wanted options wanted items x W).
    apply (Permutation_in _ P). rewrite E in Hx.
    rewrite <- (firstn_skipn n sorted). apply in_or_app. now left.
  - intros H x rest Ex y Hy. rewrite E in Ex.
    apply (Permutation_in _ (Permutation_sym P)) in Hy.
    pose proof (sortItems_ordered (opt_priceType options) kept) as S.
    fold sorted in S. destruct sorted as [|z more]; [contradiction|].
    destruct n as [|n]; [discriminate|]. cbn [firstn] in Ex.
    injection Ex as <- _. destruct S as [S _].
    destruct Hy as [<-|Hy]; [apply inOrder_refl|].
    rewrite Forall_forall in S. now apply S.
  - intros H Ex. rewrite E, (Hn ltac:(lia)) in Ex.
    destruct sorted as [|z more]; [now apply Permutation_nil|].
    destruct (Z.to_nat (opt_count options)) eqn:C; [lia|discriminate].
Qed.

Lemma postProcess_ordered_and_bounded_witness :
  let options := mkOptions lowest 1 (Some (js "field-tested")) in
  let items := [sample_item 30; sample_item 12; sample_item 20] in
  (length (postProcess options items) <= 1)%nat
  /\ (forall x rest,
         postProcess options items = x :: rest ->
         forall y,
           In y (filterExterior (opt_exteriorFilter options) items) ->
           inOrder lowest x y)
  /\ (forall x,
         In x (postProcess options items) ->
         toLowerCase (item_exterior x) = toLowerCase (js "field-tested")).
Proof.
  intros options items.
  pose proof (postProcess_ordered_and_bounded options items)
    as (_ & B & _ & W & H & _).
  split; [|split].
  - apply B. vm_compute. discriminate.
  - apply H. vm_compute. discriminate.
  - intros x. apply W. split; [reflexivity|discriminate].
Defined.

Lemma insertItem_ties (pt : PriceType) (p : Q) (x : SteamMarketItem)
      (l : list SteamMarketItem) :
  filter (hasPrice p) (insertItem pt x l) = filter (hasPrice p) (x :: l).
Proof.
  induction l as [|y l IH]; [reflexivity|]. cbn [insertItem].
  destruct (before pt y x) eqn:E; [|reflexivity].
  cbn [filter] in *. rewrite IH.
  destruct (hasPrice p x) eqn:Hx; [|reflexivity].
  now rewrite (before_other_price pt y x p E Hx).
Qed.

Lemma sortItems_ties (pt : PriceType) (p : Q) (l : list SteamMarketItem) :
  filter (hasPrice p) (sortItems pt l) = filter (hasPrice p) l.
Proof.
  induction l as [|x l IH]; [reflexivity|].
  cbn [sortItems fold_right]. rewrite insertItem_ties. cbn [filter].
  unfold sortItems in IH. now rewrite IH.
Qed.

Lemma filter_firstn_prefix (keep : SteamMarketItem -> bool)
      (l : list SteamMarketItem) :
  forall n, exists m, filter keep (firstn n l) = firstn m (filter keep l).
Proof.
  induction l as [|x l IH]; intros [|n]; try (exists 0%nat; reflexivity).
  destruct (IH n) as [m Hm]. cbn [firstn filter].
  destruct (keep x); [exists (S m); cbn [firstn]; now rewrite Hm|now exists m].
Qed.

(** X14. Ties keep the order of the candidates: among the returned items
    of any one price, the order is the order in which the candidates
    were found, and they are the first of the candidates of that price
    that pass the filter. *)
Theorem postProcess_ties_in_candidate_order
        (options : ScrapingOptions) (items : list SteamMarketItem) (p : Q) :
  exists m,
    filter (hasPrice p) (postProcess options items)
    = firstn m (filter (hasPrice p)
                       (filterExterior (opt_exteriorFilter options) items)).
Proof.
  unfold postProcess.
  destruct (slice0_firstn (opt_count options)
              (sortItems (opt_priceType options)
                 (filterExterior (opt_exteriorFilter options) items)))
    as (n & En & _).
  rewrite En.
  destruct (filter_firstn_prefix (hasPrice p)
              (sortItems (opt_priceType options)
                 (filterExterior (opt_exteriorFilter options) items)) n)
    as [m Hm].
  exists m. now rewrite Hm, sortItems_ties.
Qed.


(** ** Counts below one *)

Lemma filterExterior_length (f : option jsstring) (l : list SteamMarketItem) :
  (length (filterExterior f l) <= length l)%nat.
Proof.
  unfold filterExterior. destruct f as [[|c w]|]; try apply Nat.le_refl.
  apply filter_length_le.
Qed.

Lemma postProcess_short (options : ScrapingOptions) (items : list SteamMarketItem) :
  (opt_count options <= 0)%Z ->
  (length items <= 1)%nat ->
  postProcess options items = [].
Proof.
  intros Hc Hl. unfold postProcess.
  set (sorted := sortItems (opt_priceType options)
                   (filterExterior (opt_exteriorFilter options) items)).
  assert (Hs : (length sorted <= 1)%nat).
  { unfold sorted. rewrite (Permutation_length (sortItems_perm _ _)).
    pose proof (filterExterior_length (opt_exteriorFilter options) items). lia. }
  destruct (slice0_firstn (opt_count options) sorted) as (n & En & Hpos & Hneg).
  rewrite En.
  assert (n = 0%nat) as -> by
    (destruct (Z.eq_dec (opt_count options) 0) as [Z0|NZ];
     [rewrite Hpos by lia; rewrite Z0; reflexivity|rewrite Hneg by lia; lia]).
  reflexivity.
Qed.

Lemma searchCount_one (options : ScrapingOptions) :
  (opt_count options < 0)%Z -> searchCount options = 1%Z.
Proof.
  intros H. unfold searchCount.
  destruct (opt_count options =? 0)%Z eqn:E; [apply Z.eqb_eq in E; lia|lia].
Qed.

Lemma searchCandidates_length (fresh : nat -> jsstring)
      (response : SearchResponse) (options : ScrapingOptions) :
  (length (SteamMarketScraper.searchCandidates fresh response options)
   <= Z.to_nat (searchCount options))%nat.
Proof.
  unfold SteamMarketScraper.searchCandidates. destruct response as [results|rows].
  - rewrite searchResults_map. cbn [app length]. rewrite length_mapi_from.
    rewrite Nat.sub_0_r. apply firstn_le_length.
  - rewrite htmlRows_map. cbn [app length]. rewrite length_mapi_from.
    rewrite Nat.sub_0_r. apply firstn_le_length.
Qed.

Lemma sort_pair (pt : PriceType) (a : SteamMarketItem) :
  sortItems pt [a; a] = [a; a].
Proof.
  cbn. assert (E : before pt a a = false).
  { destruct pt; simpl; apply negb_false_iff, Qle_bool_iff, Qle_refl. }
  now rewrite E.
Qed.

(** X15. A count below one.  The current scraper returns nothing for it,
    on both strategies and for every page or response.  The earlier
    version of the scraper does not: asked for a count of -1 without an
    exterior filter, it returns the first result of a non-empty payload,
    since it puts every result into the list twice before cutting one
    item off the end. *)
Theorem count_below_one (fresh : nat -> jsstring) (options : ScrapingOptions) :
  (opt_count options <= 0)%Z ->
  (forall page, SteamMarketScraper.scrapeItemListings fresh page options = [])
  /\ (forall response,
         SteamMarketScraper.scrapeSearchResults fresh response options = [])
  /\ (opt_count options = (-1)%Z -> opt_exteriorFilter options = None ->
      forall r rest,
        LegacyScraper.scrapeMarketPage (JsonResults (r :: rest)) options
        = [LegacyScraper.searchItem r]).
Proof.
  intros Hc. split; [|split].
  - intros page. unfold SteamMarketScraper.scrapeItemListings.
    apply postProcess_short; [exact Hc|].
    unfold SteamMarketScraper.listingCandidates.
    destruct (page_rows page) as [|row rows]; [simpl; lia|].
    cbn [SteamMarketScraper.listingRows].
    assert (F : full (@nil SteamMarketItem) (opt_count options) = true)
      by (apply full_iff; simpl; lia).
    rewrite F. simpl. lia.
  - intros response. unfold SteamMarketScraper.scrapeSearchResults.
    destruct (Z.eq_dec (opt_count options) 0) as [Z0|NZ].
    + unfold postProcess, slice0. rewrite Z0. reflexivity.
    + apply postProcess_short; [exact Hc|].
      pose proof (searchCandidates_length fresh response options) as L.
      rewrite searchCount_one in L by lia. exact L.
  - intros C F r rest.
    unfold LegacyScraper.scrapeMarketPage, LegacyScraper.searchCandidates.
    rewrite searchCount_one by lia.
    cbn [LegacyScraper.searchResults].
    assert (F0 : full (@nil SteamMarketItem) 1 = false) by reflexivity.
    rewrite F0. cbn [app].
    assert (F2 : forall l,
               LegacyScraper.searchResults 1 l
                 [LegacyScraper.searchItem r; LegacyScraper.searchItem r]
               = [LegacyScraper.searchItem r; LegacyScraper.searchItem r])
      by (intros [|x l]; reflexivity).
    rewrite F2. unfold postProcess. rewrite F, C. cbn [filterExterior].
    rewrite sort_pair. reflexivity.
Qed.

Lemma count_below_one_witness :
  SteamMarketScraper.scrapeSearchResults no_fresh (JsonResults two_results)
                                         (mkOptions lowest (-1) None) = []
  /\ length (LegacyScraper.scrapeMarketPage (JsonResults two_results)
                                            (mkOptions lowest (-1) None))
     = 1%nat.
Proof.
  assert (H : (opt_count (mkOptions lowest (-1) None) <= 0)%Z)
    by (simpl; lia).
  pose proof (count_below_one no_fresh (mkOptions lowest (-1) None) H)
    as (_ & S & L).
  split; [apply S|].
  unfold two_results. rewrite L; reflexivity.
Defined.


(** ** The direct-listing strategy as a whole *)

Lemma listingRows_same_item (fresh : nat -> jsstring) (count : Z)
      (itemInfo : NameAndExterior) (rows : list ListingRow) :
  forall k items,
    Forall (fun i => item_name i = ne_name itemInfo
                     /\ item_exterior i = ne_exterior itemInfo) items ->
    Forall (fun i => item_name i = ne_name itemInfo
                     /\ item_exterior i = ne_exterior itemInfo)
           (SteamMarketScraper.listingRows fresh count itemInfo k rows items).
Proof.
  induction rows as [|row rest IH]; intros k items H; [exact H|].
  cbn [SteamMarketScraper.listingRows].
  destruct (full items count); [exact H|]. cbv zeta.
  destruct (negb _); [|now apply IH].
  apply IH. apply Forall_app. split; [exact H|].
  constructor; [split; reflexivity|constructor].
Qed.

Lemma listingRows_length (fresh : nat -> jsstring) (count : Z)
      (itemInfo : NameAndExterior) (rows : list ListingRow) :
  forall k items,
    (length (SteamMarketScraper.listingRows fresh count itemInfo k rows items)
     <= Nat.max (length items) (Z.to_nat count))%nat.
Proof.
  induction rows as [|row rest IH]; intros k items;
    cbn [SteamMarketScraper.listingRows]; [lia|].
  destruct (full items count) eqn:F; [lia|].
  apply not_true_iff_false in F. rewrite full_iff in F. cbv zeta.
  destruct (negb _).
  - etransitivity; [apply IH|]. rewrite length_app. simpl. lia.
  - etransitivity; [apply IH|]. lia.
Qed.

Lemma filter_drop_all {A} (p : A -> bool) (l : list A) :
  (forall x, In x l -> p x = false) -> filter p l = [].
Proof.
  induction l as [|x l IH]; intros H; [reflexivity|].
  cbn [filter]. rewrite (H x (or_introl eq_refl)). apply IH.
  intros y Hy. apply H. now right.
Qed.

(** X16. The direct-listing strategy as a whole.  Every candidate carries
    the name and the exterior read from the page title (or from the
    breadcrumb when the title is empty), and with a count of at least 0
    there are never more candidates than the count.  So the truncation
    at the end never removes anything, and the exterior filter keeps all
    candidates or none: what is returned is the whole candidate list in
    price order, or nothing when a filter is in force that differs from
    the exterior of the title. *)
Theorem listing_all_or_nothing (fresh : nat -> jsstring) (page : ListingPage)
        (options : ScrapingOptions) :
  let info := extractNameAndExterior
                (or_str (Some (page_title page)) (page_breadcrumb page)) in
  let candidates := SteamMarketScraper.listingCandidates fresh page options in
  let returned := SteamMarketScraper.scrapeItemListings fresh page options in
  (forall x, In x candidates ->
             item_name x = ne_name info /\ item_exterior x = ne_exterior info)
  /\ (length candidates <= Z.to_nat (opt_count options))%nat
  /\ Permutation returned
       (filterExterior (opt_exteriorFilter options) candidates)
  /\ (opt_exteriorFilter options = None \/ opt_exteriorFilter options = Some [] ->
      Permutation returned candidates)
  /\ (forall wanted,
         wantedExterior options wanted ->
         if str_eqb (toLowerCase (ne_exterior info)) (toLowerCase wanted)
         then Permutation returned candidates
         else returned = []).
Proof.
  intros info candidates returned.
  assert (Same : forall x, In x candidates ->
                   item_name x = ne_name info
                   /\ item_exterior x = ne_exterior info).
  { apply Forall_forall. unfold candidates, SteamMarketScraper.listingCandidates.
    apply listingRows_same_item. constructor. }
  assert (Len : (length candidates <= Z.to_nat (opt_count options))%nat).
  { unfold candidates, SteamMarketScraper.listingCandidates.
    etransitivity; [apply listingRows_length|]. simpl. lia. }
  assert (P : Permutation returned
                (filterExterior (opt_exteriorFilter options) candidates)).
  { unfold returned, SteamMarketScraper.scrapeItemListings. fold candidates.
    destruct (Z_lt_le_dec (opt_count options) 0) as [Neg|Pos].
    - assert (E : candidates = [])
        by (destruct candidates; [reflexivity|simpl in Len; lia]).
      rewrite E. rewrite postProcess_short; [|lia|simpl; lia].
      unfold filterExterior.
      destruct (opt_exteriorFilter options) as [[|c w]|]; apply perm_nil.
    - apply postProcess_perm.
      pose proof (filterExterior_length (opt_exteriorFilter options) candidates).
      lia. }
  split; [exact Same|]. split; [exact Len|]. split; [exact P|]. split.
  - intros [E|E]; rewrite E in P; exact P.
  - intros wanted [E Hne]. rewrite E in P.
    destruct wanted as [|c w]; [congruence|]. cbn [filterExterior] in P.
    destruct (str_eqb (toLowerCase (ne_exterior info)) (toLowerCase (c :: w)))
      eqn:T.
    + rewrite filter_keep_all in P; [exact P|].
      intros x Hx. destruct (Same x Hx) as [_ ->]. exact T.
    + rewrite filter_drop_all in P; [now apply Permutation_nil|].
      intros x Hx. destruct (Same x Hx) as [_ ->]. exact T.
Qed.

Lemma listing_all_or_nothing_witness :
  SteamMarketScraper.scrapeItemListings no_fresh (page_of "$12.50")
    (mkOptions lowest 10 (Some (js "minimal wear"))) = []
  /\ Permutation
       (SteamMarketScraper.scrapeItemListings no_fresh (page_of "$12.50")
          (mkOptions lowest 10 (Some (js "FIELD-TESTED"))))
       (SteamMarketScraper.listingCandidates no_fresh (page_of "$12.50")
          (mkOptions lowest 10 (Some (js "FIELD-TESTED")))).
Proof.
  split.
  - apply (proj2 (proj2 (proj2 (proj2
      (listing_all_or_nothing no_fresh (page_of "$12.50")
         (mkOptions lowest 10 (Some (js "minimal wear")))))))
      (js "minimal wear")).
    split; [reflexivity|discriminate].
  - apply (proj2 (proj2 (proj2 (proj2
      (listing_all_or_nothing no_fresh (page_of "$12.50")
         (mkOptions lowest 10 (Some (js "FIELD-TESTED")))))))
      (js "FIELD-TESTED")).
    split; [reflexivity|discriminate].
Defined.


(** ** Notifier calls that throw *)

Lemma attempted_app (deliver : Notification -> bool) (l1 l2 : list Notification) :
  attempted deliver (l1 ++ l2)
  = if forallb deliver l1 then l1 ++ attempted deliver l2
    else attempted deliver l1.
Proof.
  induction l1 as [|n l1 IH]; [reflexivity|]. cbn [app attempted forallb].
  destruct (deliver n); cbn [andb]; [|reflexivity].
  rewrite IH. now destruct (forallb deliver l1).
Qed.

Lemma attempted_all (deliver : Notification -> bool) (l : list Notification) :
  forallb deliver l = true -> attempted deliver l = l.
Proof.
  induction l as [|n l IH]; [reflexivity|]. cbn [attempted forallb].
  destruct (deliver n); [|discriminate]. intros H. now rewrite IH.
Qed.

Lemma plans_nil (deliver : Notification -> bool) : plans deliver (ret tt) [].
Proof. intros w. cbn. now rewrite add_sent_nil. Qed.

Lemma plans_send (deliver : Notification -> bool) (n : Notification) :
  plans deliver (send deliver n) [n].
Proof.
  intros w. unfold send. cbn [attempted forallb].
  destruct (deliver n); reflexivity.
Qed.

Lemma plans_when (deliver : Notification -> bool) (b : bool)
      (n : Notification) :
  plans deliver (when b (send deliver n)) (if b then [n] else []).
Proof. destruct b; [apply plans_send|apply plans_nil]. Qed.

Lemma plans_then (deliver : Notification -> bool) (m1 m2 : M unit)
      (l1 l2 : list Notification) :
  plans deliver m1 l1 -> plans deliver m2 l2 ->
  plans deliver (m1 ;;; m2) (l1 ++ l2).
Proof.
  intros H1 H2 w. rewrite bind_run, H1, attempted_app, forallb_app.
  destruct (forallb deliver l1) eqn:E; cbn [andb]; [|reflexivity].
  rewrite H2, add_sent_app, (attempted_all deliver l1 E). reflexivity.
Qed.

Lemma plans_check_thresholds (deliver : Notification -> bool) (skin : Skin)
      (newData : SkinData) (p : Q) :
  plans deliver (check_thresholds deliver skin newData p)
        (threshold_calls skin newData p).
Proof.
  unfold check_thresholds, threshold_calls.
  destruct (skin_thresholds skin) as [th|]; [|apply plans_nil].
  apply plans_then; apply plans_when.
Qed.

Lemma plans_service (deliver : Notification -> bool) (skin : Skin)
      (newData : SkinData) :
  plans deliver
    (when (1 <? length (skin_skindata skin))
       (match before_last_opt (skin_skindata skin) with
        | Some previousData =>
            when (num_neqb (sd_price previousData) (sd_price newData))
                 (send deliver (PriceUpdate skin newData))
        | None => ret tt
        end) ;;;
     check_thresholds deliver skin newData (sd_price newData))
    (service_calls skin newData).
Proof.
  unfold service_calls. apply plans_then; [|apply plans_check_thresholds].
  destruct (1 <? length (skin_skindata skin)); [|apply plans_nil].
  cbn [when]. destruct (before_last_opt (skin_skindata skin));
    [apply plans_when|apply plans_nil].
Qed.

Lemma checkAndSendNotifications_any (deliver : Notification -> bool)
      (skin : Skin) (newData : SkinData) (w : World) :
  TrackermanService.checkAndSendNotifications deliver skin newData w
  = (add_sent (attempted deliver (service_calls skin newData)) w, Ok tt).
Proof.
  unfold TrackermanService.checkAndSendNotifications.
  rewrite try_catch_ignore, (plans_service deliver skin newData w).
  reflexivity.
Qed.

Lemma length_attempted (deliver : Notification -> bool) (l : list Notification) :
  (length (attempted deliver l) <= length l)%nat.
Proof.
  induction l as [|n l IH]; [apply Nat.le_refl|]. cbn [attempted].
  destruct (deliver n); simpl; lia.
Qed.

Lemma service_calls_length (skin : Skin) (newData : SkinData) :
  (length (service_calls skin newData) <= 3)%nat.
Proof.
  unfold service_calls, threshold_calls. rewrite length_app.
  destruct (1 <? length (skin_skindata skin));
    [destruct (before_last_opt (skin_skindata skin));
     [destruct (num_neqb _ _)|]|];
    (destruct (skin_thresholds skin) as [th|];
     [destruct (high_hit th _), (low_hit th _)|]); simpl; lia.
Qed.

(** X17. [checkAndSendNotifications] with a notifier that may throw.
    The method never throws and changes nothing but the record of
    notifier calls.  It makes the planned calls (price change, high
    threshold, low threshold) in this order up to the first one that
    throws: a call that throws suppresses the calls planned after it.
    At most three calls are made. *)
Theorem checkAndSendNotifications_total (deliver : Notification -> bool)
        (skin : Skin) (newData : SkinData) (w : World) :
  TrackermanService.checkAndSendNotifications deliver skin newData w
  = (add_sent (attempted deliver (service_calls skin newData)) w, Ok tt)
  /\ (length (attempted deliver (service_calls skin newData)) <= 3)%nat
  /\ (forall done n rest,
         service_calls skin newData = done ++ n :: rest ->
         forallb deliver done = true -> deliver n = false ->
         attempted deliver (service_calls skin newData) = done ++ [n]).
Proof.
  split; [|split].
  - apply checkAndSendNotifications_any.
  - etransitivity; [apply length_attempted|apply service_calls_length].
  - intros done n rest E Hd Hn. rewrite E, attempted_app, Hd.
    cbn [attempted]. now rewrite Hn.
Qed.

Lemma checkAndSendNotifications_total_witness :
  let skin := ak_after 120 sample_thresholds in
  let newData := set_expired false (observation "t2" 120) in
  let deliver := fun n => match n with
                          | PriceUpdate _ _ => false
                          | _ => true
                          end in
  service_calls skin newData
  = [PriceUpdate skin newData; ThresholdHit skin newData th_kind_high]
  /\ attempted deliver (service_calls skin newData) = [PriceUpdate skin newData].
Proof.
  intros skin newData deliver.
  assert (E : service_calls skin newData
              = [] ++ PriceUpdate skin newData
                   :: [ThresholdHit skin newData th_kind_high])
    by reflexivity.
  split; [exact E|].
  exact (proj2 (proj2 (checkAndSendNotifications_total deliver skin newData
                         (world_of store_one)))
           [] (PriceUpdate skin newData)
           [ThresholdHit skin newData th_kind_high] E eq_refl eq_refl).
Defined.


(** ** One item of a cycle when the notifier throws *)

(** X18. One item of a scheduled cycle, for any notifier.  When the
    fetch returns a candidate, the observation is stored before any
    notifier call is made, so it stays stored when a call throws; the
    calls planned for the item are made up to the first one that throws;
    the iteration itself never throws, and uses two clock readings: one
    for the observation and one for the save. *)
Theorem fetchOne_with_failing_notifier (env : Env) (i : nat) (w : World)
        (skin : Skin) (item : SteamMarketItem) (rest : list SteamMarketItem) :
  nth_error (skins (w_data w)) i = Some skin ->
  scrape env i (skin_url skin) AutoScheduler.scrapingOptions
  = Ok (item :: rest) ->
  let skinData := AutoScheduler.skinData_of (clock env (w_tick w)) item in
  let d' := DataManager.addSkinData (clock env (S (w_tick w)))
              (skin_name skin) (skin_exterior skin) skinData (skin_url skin)
              (w_data w) in
  let skin' := nth i (skins d') skin in
  AutoScheduler.fetchOne env i w
  = (mkWorld d' (w_settings w)
       (w_sent w ++ attempted (notify env i)
                      (scheduler_calls skin skin' (set_expired false skinData)
                                       item))
       (S (S (w_tick w)))
       (w_requests w ++ [skin_url skin]),
     Ok tt).
Proof.
  intros Hs Hscrape skinData d' skin'.
  unfold AutoScheduler.fetchOne. rewrite Hs.
  rewrite try_catch_ignore. unfold AutoScheduler.fetchBody.
  rewrite bind_run. unfold request. rewrite Hscrape. cbv beta iota.
  rewrite bind_run. simpl. rewrite bind_run. simpl.
  rewrite bind_run. unfold get_data at 1. cbv beta iota.
  cbn [w_data].
  match goal with
  | |- (fst (bind ?m ?k ?w0), _) = _ =>
      rewrite (plans_then (notify env i) m (k tt) _ _
                 (plans_when (notify env i) _ _)
                 (plans_check_thresholds (notify env i) _ _ _) w0)
  end.
  reflexivity.
Qed.

Lemma fetchOne_with_failing_notifier_witness :
  let env := mkEnv (fun _ _ _ => Ok [sample_item 120]) (fun _ _ => false)
                   (fun _ => js "t") in
  exists sent,
    AutoScheduler.fetchOne env 0 (world_of store_one)
    = (mkWorld (DataManager.addSkinData (js "t") ak_name ft
                  (AutoScheduler.skinData_of (js "t") (sample_item 120))
                  ak_url store_one)
               sample_settings sent 2 [ak_url],
       Ok tt)
    /\ length sent = 1%nat.
Proof.
  intros env. eexists. split.
  - apply (fetchOne_with_failing_notifier env 0 (world_of store_one) ak_fresh
             (sample_item 120) []); reflexivity.
  - reflexivity.
Defined.


(** ** The notifier behind the detector *)

Lemma threshold_call_truthy (skin : Skin) (newData : SkinData) (p : Q)
      (n : Notification) :
  In n (threshold_calls skin newData p) ->
  exists kind t,
    n = ThresholdHit skin newData kind
    /\ DiscordNotifier.thresholdOf skin kind = Some t
    /\ truthy t = true.
Proof.
  unfold threshold_calls, DiscordNotifier.thresholdOf, high_hit, low_hit.
  destruct (skin_thresholds skin) as [th|]; [|contradiction].
  intros H. apply in_app_or in H. destruct H as [H|H].
  - destruct (th_high th) as [h|]; [|contradiction].
    destruct (truthy h) eqn:T; [|contradiction].
    destruct (Qle_bool h p); [|contradiction].
    destruct H as [<-|[]]. now exists th_kind_high, h.
  - destruct (th_low th) as [l|]; [|contradiction].
    destruct (truthy l) eqn:T; [|contradiction].
    destruct (Qle_bool p l); [|contradiction].
    destruct H as [<-|[]]. now exists th_kind_low, l.
Qed.

(** X19. The gates of the notifier.  With notifications disabled or
    without a webhook address nothing is ever posted and no notifier
    call throws, so every call the detector plans is made.  A threshold
    call planned by the detector is never stopped by the notifier's own
    test of the threshold: it is posted exactly when notifications are
    enabled, an address is set and the flag of its kind is on.
    [testWebhook] answers [true] exactly when an address is set and
    either the post succeeds or notifications are disabled; in the
    second case it answers [true] although nothing was posted. *)
Theorem notifier_gates (s : DiscordNotificationSettings) :
  (dc_enabled s = false \/ DiscordNotifier.hasWebhook s = false ->
   forall post l,
     (forall n, DiscordNotifier.posts s n = false)
     /\ attempted (DiscordNotifier.call s post) l = l)
  /\ (forall skin newData p n,
         In n (threshold_calls skin newData p) ->
         exists kind,
           n = ThresholdHit skin newData kind
           /\ DiscordNotifier.posts s n
              = dc_enabled s && DiscordNotifier.hasWebhook s
                && DiscordNotifier.shouldNotify s kind)
  /\ (forall post_ok,
         DiscordNotifier.testWebhook s post_ok = true
         <-> DiscordNotifier.hasWebhook s = true
             /\ (post_ok = true \/ dc_enabled s = false))
  /\ (DiscordNotifier.hasWebhook s = true -> dc_enabled s = false ->
      forall post_ok,
        DiscordNotifier.testWebhook s post_ok = true
        /\ DiscordNotifier.generalPosts s = false).
Proof.
  split; [|split; [|split]].
  - intros H post l.
    assert (P : forall n, DiscordNotifier.posts s n = false).
    { intros [skin nd|skin nd kind]; cbn [DiscordNotifier.posts];
        destruct H as [-> | ->]; cbn [andb]; try reflexivity;
        destruct (dc_enabled s); cbn [andb]; try reflexivity;
        destruct (dc_priceUpdate s); reflexivity. }
    split; [exact P|]. apply attempted_all, forallb_forall.
    intros n _. unfold DiscordNotifier.call. now rewrite P.
  - intros skin newData p n Hn.
    destruct (threshold_call_truthy skin newData p n Hn)
      as (kind & t & -> & E & T).
    exists kind. split; [reflexivity|].
    cbn [DiscordNotifier.posts]. rewrite E, T. apply andb_true_r.
  - intros post_ok. unfold DiscordNotifier.testWebhook,
      DiscordNotifier.generalPosts.
    destruct (DiscordNotifier.hasWebhook s), (dc_enabled s), post_ok;
      cbn; intuition congruence.
  - intros W E post_ok. unfold DiscordNotifier.testWebhook,
      DiscordNotifier.generalPosts. rewrite W, E. split; reflexivity.
Qed.

Lemma notifier_gates_witness :
  let s := mkDiscord false (Some (js "https://discord.com/api/webhooks/1/x"))
                     true true true in
  DiscordNotifier.testWebhook s false = true
  /\ DiscordNotifier.generalPosts s = false
  /\ DiscordNotifier.posts s
       (PriceUpdate (ak_after 120 sample_thresholds)
                    (observation "t2" 120)) = false.
Proof.
  intros s. pose proof (notifier_gates s) as (G & _ & _ & T).
  destruct (T eq_refl eq_refl false) as [T1 T2].
  split; [exact T1|]. split; [exact T2|].
  apply (proj1 (G (or_introl eq_refl) (fun _ => false) [])).
Defined.


(** ** Fetching one item on demand *)

Lemma getSkin_after_append (now name exterior : jsstring) (sd : SkinData)
      (url : jsstring) (d : TrackermanData) :
  DataManager.getSkin name exterior
    (DataManager.addSkinData now name exterior sd url d) <> None.
Proof.
  destruct (addSkinData_history now name exterior sd url d) as (s & E & _).
  rewrite E. discriminate.
Qed.

Lemma storeItems_run (env : Env) (name exterior url : jsstring)
      (items : list SteamMarketItem) :
  forall k w,
  exists sent,
    Tracking.storeItems env name exterior url k items w
    = (mkWorld (appendAll name exterior
                  (observations env url (w_tick w) items) (w_data w))
               (w_settings w) (w_sent w ++ sent)
               (w_tick w + 2 * length items) (w_requests w),
       Ok tt).
Proof.
  induction items as [|item rest IH]; intros k w.
  - exists []. cbn. rewrite app_nil_r, Nat.add_0_r. now destruct w.
  - cbn [Tracking.storeItems]. rewrite bind_run.
    unfold Tracking.storeItem. rewrite bind_run. cbn [newDate].
    rewrite bind_run. unfold addSkinDataM at 1. rewrite bind_run.
    cbn [newDate modify_data w_data w_settings w_sent w_tick w_requests].
    rewrite bind_run. unfold get_data at 1. cbv beta iota. cbn [w_data].
    set (d1 := DataManager.addSkinData _ name exterior _ url (w_data w)).
    destruct (DataManager.getSkin name exterior d1) as [updated|] eqn:G;
      [|exfalso; revert G; apply getSkin_after_append].
    match goal with
    | |- context [TrackermanService.checkAndSendNotifications ?dl ?s ?nd ?w0] =>
        rewrite (checkAndSendNotifications_any dl s nd w0)
    end.
    match goal with
    | |- context [Tracking.storeItems _ _ _ _ _ _ ?w1] =>
        destruct (IH (S k) w1) as [sent E]; rewrite E
    end.
    cbn [add_sent w_data w_settings w_sent w_tick w_requests observations
         appendAll ap_now ap_data ap_url].
    eexists. f_equal. f_equal.
    + rewrite <- app_assoc. reflexivity.
    + cbn [length]. lia.
Qed.

(** X20. [fetchSkinData] of an initialised service.  For an item that is
    not tracked it throws "not found" before any request is sent and
    changes nothing.  When the fetch throws, the error is passed on and
    the store is unchanged.  When the fetch returns [items], the method
    returns them whatever the notifier does, and has appended one
    observation for each of them, in the order returned, at the item's
    own address: the observation of the item returned last is the
    current one afterwards, all others are superseded. *)
Theorem fetchSkinData_spec (env : Env) (name exterior : jsstring)
        (options : ScrapingOptions) (w : World) :
  (DataManager.getSkin name exterior (w_data w) = None ->
   Tracking.fetchSkinData env name exterior options w
   = (w, Throw (MkError (DataManager.not_found_message name exterior))))
  /\ (forall skin e,
         DataManager.getSkin name exterior (w_data w) = Some skin ->
         scrape env 0 (skin_url skin) options = Throw e ->
         exists w',
           Tracking.fetchSkinData env name exterior options w = (w', Throw e)
           /\ w_data w' = w_data w
           /\ w_requests w' = w_requests w ++ [skin_url skin])
  /\ (forall skin items,
         DataManager.getSkin name exterior (w_data w) = Some skin ->
         scrape env 0 (skin_url skin) options = Ok items ->
         exists w',
           Tracking.fetchSkinData env name exterior options w = (w', Ok items)
           /\ w_data w'
              = appendAll name exterior
                  (observations env (skin_url skin) (w_tick w) items)
                  (w_data w)
           /\ w_settings w' = w_settings w
           /\ w_requests w' = w_requests w ++ [skin_url skin]
           /\ (items = [] -> w_data w' = w_data w)
           /\ (forall init last,
                  observations env (skin_url skin) (w_tick w) items
                  = init ++ [last] ->
                  history name exterior (w_data w')
                  = map (set_expired true)
                        (skin_skindata skin ++ map ap_data init)
                    ++ [set_expired false (ap_data last)])).
Proof.
  split; [|split].
  - intros G. unfold Tracking.fetchSkinData. rewrite bind_run.
    unfold get_data. cbv beta iota. now rewrite G.
  - intros skin e G S. unfold Tracking.fetchSkinData. rewrite bind_run.
    unfold get_data. cbv beta iota. rewrite G, bind_run.
    unfold request. rewrite S. eexists. split; [reflexivity|].
    split; reflexivity.
  - intros skin items G S. unfold Tracking.fetchSkinData. rewrite bind_run.
    unfold get_data. cbv beta iota. rewrite G, bind_run.
    unfold request. rewrite S. cbv beta iota. rewrite bind_run.
    match goal with
    | |- context [Tracking.storeItems _ _ _ _ _ _ ?w1] =>
        destruct (storeItems_run env name exterior (skin_url skin) items 0 w1)
          as [sent E]; rewrite E
    end.
    cbn [ret w_data w_settings w_sent w_tick w_requests].
    eexists. split; [reflexivity|]. cbn [w_data w_settings w_requests].
    split; [reflexivity|]. split; [reflexivity|]. split; [reflexivity|].
    split.
    + intros ->. reflexivity.
    + intros init last E'. rewrite E', history_appendAll.
      unfold history at 1. now rewrite G.
Qed.

Lemma fetchSkinData_spec_witness :
  let env := mkEnv (fun _ _ _ => Ok [sample_item 5; sample_item 7])
                   (fun _ _ => false) (fun _ => js "t") in
  exists w',
    Tracking.fetchSkinData env ak_name ft (mkOptions lowest 2 None)
                           (world_of store_one)
    = (w', Ok [sample_item 5; sample_item 7])
    /\ history ak_name ft (w_data w')
       = [set_expired true (AutoScheduler.skinData_of (js "t") (sample_item 5));
          set_expired false (AutoScheduler.skinData_of (js "t") (sample_item 7))].
Proof.
  intros env.
  destruct (proj2 (proj2 (fetchSkinData_spec env ak_name ft
                            (mkOptions lowest 2 None) (world_of store_one)))
              ak_fresh [sample_item 5; sample_item 7] eq_refl eq_refl)
    as (w' & E & _ & _ & _ & _ & H).
  exists w'. split; [exact E|].
  apply (H [mkAppend (AutoScheduler.skinData_of (js "t") (sample_item 5))
                     ak_url (js "t")]
           (mkAppend (AutoScheduler.skinData_of (js "t") (sample_item 7))
                     ak_url (js "t"))).
  reflexivity.
Defined.


(** ** Registration of an address *)

(** X21. [TrackermanService.addSkin] of an initialised service, for any
    behaviour of the address parser and of the decoder.  A call that
    throws leaves the store as it was.  An address that passes the
    validation has the host of the market and is parsed without the
    constructor error.  A listing address is read from the last part of
    its path, whatever its query string.  A search address with an
    empty [q] passes the validation and then fails with the
    missing-query error.  When the call succeeds, the item is stored
    under the parsed name with an empty history, the address and the
    thresholds given, and under the override as given, not trimmed, when
    the override has something other than white space. *)
Theorem service_addSkin_spec
        (parseUrl : jsstring -> option Url)
        (decodeURIComponent : jsstring -> result jsstring)
        (now url : jsstring) (thresholds : option Thresholds)
        (exteriorOverride : option jsstring) (d : TrackermanData) :
  let valid := Registration.isValidSteamUrl parseUrl url in
  let outcome := Registration.addSkin parseUrl decodeURIComponent now url
                   thresholds exteriorOverride d in
  (forall e, snd outcome = Throw e -> fst outcome = d)
  /\ (valid = false -> outcome = (d, Throw Registration.invalid_steam_url))
  /\ (valid = true ->
      exists u, parseUrl url = Some u
                /\ hostname u = js "steamcommunity.com"
                /\ (Registration.isListing u = true
                    \/ pathname u = js "/market/search"
                       /\ hasParam (js "q") u = true))
  /\ (forall u itemName,
         parseUrl url = Some u -> Registration.isListing u = true ->
         decodeURIComponent (lastPart [] (pathname u)) = Ok itemName ->
         Registration.parseSteamUrl parseUrl decodeURIComponent url
         = Ok (extractNameAndExterior itemName))
  /\ (forall u, valid = true -> parseUrl url = Some u ->
      Registration.isListing u = false ->
      getParam (js "q") u = Some [] ->
      outcome = (d, Throw Registration.missing_query))
  /\ (outcome = (fst outcome, Ok tt) ->
      exists parsed,
        Registration.parseSteamUrl parseUrl decodeURIComponent url = Ok parsed
        /\ let exterior :=
             if Registration.overrides exteriorOverride
             then match exteriorOverride with
                  | Some o => o
                  | None => ne_exterior parsed
                  end
             else ne_exterior parsed in
           DataManager.getSkin (ne_name parsed) exterior d = None
           /\ skins (fst outcome)
              = skins d ++ [mkSkin (ne_name parsed) exterior url []
                                   thresholds]
           /\ DataManager.getSkin (ne_name parsed) exterior (fst outcome)
              = Some (mkSkin (ne_name parsed) exterior url [] thresholds)).
Proof.
  intros valid outcome. unfold outcome, Registration.addSkin. fold valid.
  split; [|split; [|split; [|split; [|split]]]].
  - intros e. destruct valid; cbn [negb]; [|reflexivity].
    destruct (Registration.parseSteamUrl _ _ _) as [parsed|e']; [|reflexivity].
    cbv zeta.
    destruct (DataManager.getSkin _ _ d) eqn:G; [reflexivity|].
    unfold DataManager.addSkin. cbn [skin_name skin_exterior]. rewrite G.
    discriminate.
  - intros ->. reflexivity.
  - unfold valid, Registration.isValidSteamUrl.
    destruct (parseUrl url) as [u|]; [|discriminate].
    intros H. apply andb_prop in H. destruct H as [H H3].
    apply andb_prop in H. destruct H as [H1 H2].
    exists u. split; [reflexivity|]. split; [now apply str_eqb_eq|].
    destruct (Registration.isListing u); [now left|right].
    rewrite orb_false_r in H2, H3. apply andb_prop in H3.
    split; [now apply str_eqb_eq|tauto].
  - intros u itemName P L D. unfold Registration.parseSteamUrl.
    now rewrite P, L, D.
  - intros u V P L Q0. rewrite V. cbn [negb].
    unfold Registration.parseSteamUrl. rewrite P, L, Q0. reflexivity.
  - destruct valid; cbn [negb]; [|discriminate].
    destruct (Registration.parseSteamUrl _ _ _) as [parsed|e']; [|discriminate].
    cbv zeta. intros H. exists parsed. split; [reflexivity|]. cbv zeta.
    destruct (DataManager.getSkin _ _ d) eqn:G; [discriminate|].
    split; [reflexivity|].
    unfold DataManager.addSkin. cbn [skin_name skin_exterior]. rewrite G.
    cbn [fst]. split; [reflexivity|].
    unfold DataManager.getSkin in *. cbn [DataManager.saveData skins].
    apply find_app_new; [exact G|apply same_key_refl].
Qed.

Lemma service_addSkin_spec_witness :
  let steam := js "steamcommunity.com" in
  let search := mkUrl steam (js "/market/search")
                      [(js "appid", js "730"); (js "q", [])] in
  let listing :=
    mkUrl steam (js "/market/listings/730/AK-47 | Redline (Field-Tested)") [] in
  Registration.addSkin (fun _ => Some search) (fun s => Ok s) (js "t1")
    (js "search") None None store_one
  = (store_one, Throw Registration.missing_query)
  /\ Registration.parseSteamUrl (fun _ => Some listing) (fun s => Ok s)
       (js "listing")
     = Ok (extractNameAndExterior (js "AK-47 | Redline (Field-Tested)")).
Proof.
  intros steam search listing. split.
  - apply (proj1 (proj2 (proj2 (proj2 (proj2
      (service_addSkin_spec (fun _ => Some search) (fun s => Ok s) (js "t1")
         (js "search") None None store_one))))) search);
      reflexivity.
  - apply (proj1 (proj2 (proj2 (proj2
      (service_addSkin_spec (fun _ => Some listing) (fun s => Ok s) (js "t1")
         (js "listing") None None store_one)))) listing
      (js "AK-47 | Redline (Field-Tested)")); reflexivity.
Defined.


(** ** Number formats of the price normaliser *)

Lemma ends_in_three (x : jsstring) (c d1 d2 : N) :
  endsCommaTwoDigits (x ++ [c; d1; d2])
  = N.eqb c comma && isDigit d1 && isDigit d2.
Proof.
  unfold endsCommaTwoDigits. rewrite rev_app_distr. reflexivity.
Qed.

Lemma digit_not_separator (c : N) :
  isDigit c = true -> N.eqb c comma = false /\ N.eqb c dot = false.
Proof.
  unfold isDigit, comma, dot. rewrite in_range_iff, !N.eqb_neq. lia.
Qed.

Lemma removeAll_digits (x : N) (s : jsstring) :
  isDigit x = false -> forallb isDigit s = true -> removeAll x s = s.
Proof.
  intros Hx Hs. unfold removeAll. apply filter_keep_all.
  intros c Hc. rewrite forallb_forall in Hs. specialize (Hs c Hc).
  apply negb_true_iff, N.eqb_neq. intros ->. congruence.
Qed.

Lemma removeAll_app (x : N) (s t : jsstring) :
  removeAll x (s ++ t) = removeAll x s ++ removeAll x t.
Proof. apply filter_app. Qed.

Lemma commaToDot_digits (s r : jsstring) :
  forallb isDigit s = true ->
  commaToDot (s ++ comma :: r) = s ++ dot :: r.
Proof.
  induction s as [|c s IH]; intros H; [reflexivity|].
  cbn [forallb] in H. apply andb_true_iff in H as [Hc Hs].
  cbn [app commaToDot]. destruct (digit_not_separator c Hc) as [-> _].
  now rewrite IH.
Qed.

Lemma digits_app (s t : jsstring) :
  forallb isDigit s = true -> forallb isDigit t = true ->
  forallb isDigit (s ++ t) = true.
Proof. intros Hs Ht. now rewrite forallb_app, Hs, Ht. Qed.

Lemma parseFloat_dot (ip fp : jsstring) :
  ip <> [] ->
  forallb isDigit ip = true ->
  forallb isDigit fp = true ->
  parseFloat (ip ++ dot :: fp) = Some (decimalValue ip fp).
Proof.
  intros Hne Hip Hfp. unfold parseFloat.
  destruct (takeDigits_dot ip fp Hip) as [-> ->]. rewrite N.eqb_refl.
  destruct (takeDigits_all fp Hfp) as [-> _].
  destruct ip; [contradiction|reflexivity].
Qed.

Lemma parseFloat_whole (ip : jsstring) :
  ip <> [] -> forallb isDigit ip = true ->
  parseFloat ip = Some (decimalValue ip []).
Proof.
  intros Hne Hip. unfold parseFloat.
  destruct (takeDigits_all ip Hip) as [-> ->].
  destruct ip; [contradiction|reflexivity].
Qed.

Lemma price_of_kept (text : jsstring) :
  price (parsePrice text)
  = or_zero (parseFloat (numeral (filter keepPriceChar text))).
Proof. now rewrite parsePrice_numeral, normalize_filter. Qed.

(** X23. How [parsePrice] reads the number formats.  The amount depends
    only on the digits, commas and dots of the text: everything else,
    a minus sign included, is dropped before the number is read.  For
    digit strings [a] (not empty) and [b] and digits [c1], [c2]:
    "a,b.c1c2" and "a.b,c1c2" denote the same amount, ab.c1c2;
    "a,c1c2" is read with a decimal comma; a comma followed by three
    digits or more is a thousands separator; and without a comma a dot
    is always the decimal point, so that "1.234" is read as 1.234 and
    not as 1234. *)
Theorem price_formats (text a b : jsstring) (c1 c2 : N) :
  a <> [] ->
  forallb isDigit a = true ->
  forallb isDigit b = true ->
  isDigit c1 = true ->
  isDigit c2 = true ->
  let kept := filter keepPriceChar text in
  price (parsePrice text) = price (parsePrice kept)
  /\ (kept = a ++ comma :: b ++ [dot; c1; c2] ->
      price (parsePrice text) == decimalValue (a ++ b) [c1; c2])
  /\ (kept = a ++ dot :: b ++ [comma; c1; c2] ->
      price (parsePrice text) == decimalValue (a ++ b) [c1; c2])
  /\ (kept = a ++ [comma; c1; c2] ->
      price (parsePrice text) == decimalValue a [c1; c2])
  /\ (kept = a ++ comma :: b ++ [c1; c2] -> b <> [] ->
      price (parsePrice text) == decimalValue (a ++ b ++ [c1; c2]) [])
  /\ (kept = a ++ dot :: b ->
      price (parsePrice text) == decimalValue a b).
Proof.
  intros Hne Ha Hb H1 H2 kept.
  assert (Hc : forallb isDigit [c1; c2] = true)
    by (cbn [forallb]; now rewrite H1, H2).
  destruct (digit_not_separator c1 H1) as [C1 _].
  assert (Dd : isDigit dot = false) by reflexivity.
  assert (Dc : isDigit comma = false) by reflexivity.
  assert (Hab : a ++ b <> []) by (destruct a; [contradiction|discriminate]).
  split; [|split; [|split; [|split; [|split]]]].
  - rewrite !price_of_kept. unfold kept. now rewrite filter_idem.
  - intros E. rewrite price_of_kept. fold kept. rewrite E. unfold numeral.
    replace (a ++ comma :: b ++ [dot; c1; c2])
      with ((a ++ comma :: b) ++ [dot; c1; c2])
      by (now rewrite <- app_assoc).
    rewrite ends_in_three. cbn [N.eqb dot comma Pos.eqb andb].
    rewrite <- app_assoc. cbn [app].
    rewrite removeAll_app, (removeAll_digits comma a Dc Ha).
    cbn [removeAll filter N.eqb comma Pos.eqb negb].
    fold (removeAll comma (b ++ [dot; c1; c2])).
    rewrite removeAll_app, (removeAll_digits comma b Dc Hb).
    assert (R : removeAll comma [dot; c1; c2] = [dot; c1; c2]).
    { unfold removeAll. cbn [filter]. rewrite C1.
      destruct (digit_not_separator c2 H2) as [-> _]. reflexivity. }
    rewrite R, app_assoc.
    rewrite (parseFloat_dot (a ++ b) [c1; c2] Hab (digits_app a b Ha Hb) Hc).
    apply or_zero_value.
  - intros E. rewrite price_of_kept. fold kept. rewrite E. unfold numeral.
    replace (a ++ dot :: b ++ [comma; c1; c2])
      with ((a ++ dot :: b) ++ [comma; c1; c2])
      by (now rewrite <- app_assoc).
    rewrite ends_in_three, H1, H2. cbn [N.eqb comma Pos.eqb andb].
    assert (D : hasDot ((a ++ dot :: b) ++ [comma; c1; c2]) = true).
    { unfold hasDot. rewrite !existsb_app. cbn [existsb].
      rewrite N.eqb_refl. cbn [orb]. now rewrite orb_true_r. }
    rewrite D. rewrite <- app_assoc. cbn [app].
    rewrite removeAll_app, (removeAll_digits dot a Dd Ha).
    cbn [removeAll filter]. rewrite N.eqb_refl. cbn [negb].
    fold (removeAll dot (b ++ [comma; c1; c2])).
    rewrite removeAll_app, (removeAll_digits dot b Dd Hb).
    assert (R : removeAll dot [comma; c1; c2] = [comma; c1; c2]).
    { unfold removeAll. cbn [filter].
      destruct (digit_not_separator c1 H1) as [_ ->].
      destruct (digit_not_separator c2 H2) as [_ ->]. reflexivity. }
    rewrite R, app_assoc.
    rewrite (commaToDot_digits (a ++ b) [c1; c2] (digits_app a b Ha Hb)).
    rewrite (parseFloat_dot (a ++ b) [c1; c2] Hab (digits_app a b Ha Hb) Hc).
    apply or_zero_value.
  - intros E. rewrite price_of_kept. fold kept. rewrite E. unfold numeral.
    rewrite ends_in_three, H1, H2. cbn [N.eqb comma Pos.eqb andb].
    assert (D : hasDot (a ++ [comma; c1; c2]) = false).
    { unfold hasDot. rewrite existsb_app. cbn [existsb].
      destruct (digit_not_separator c1 H1) as [_ X1].
      destruct (digit_not_separator c2 H2) as [_ X2].
      rewrite (N.eqb_sym dot c1), (N.eqb_sym dot c2), X1, X2.
      cbn [N.eqb dot comma Pos.eqb orb]. rewrite orb_false_r.
      apply not_true_iff_false. intros X. apply existsb_exists in X.
      destruct X as (x & Hx & Ex). apply N.eqb_eq in Ex. subst x.
      rewrite forallb_forall in Ha. specialize (Ha dot Hx). congruence. }
    rewrite D. rewrite (commaToDot_digits a [c1; c2] Ha).
    rewrite (parseFloat_dot a [c1; c2] Hne Ha Hc). apply or_zero_value.
  - intros E Hbne. rewrite price_of_kept. fold kept. rewrite E.
    unfold numeral.
    destruct (exists_last Hbne) as (b' & x & Eb).
    assert (Hx : isDigit x = true).
    { rewrite forallb_forall in Hb. apply Hb. rewrite Eb.
      apply in_or_app. right. now left. }
    replace (a ++ comma :: b ++ [c1; c2])
      with ((a ++ comma :: b') ++ [x; c1; c2])
      by (rewrite Eb, <- !app_assoc; reflexivity).
    rewrite ends_in_three. destruct (digit_not_separator x Hx) as [-> _].
    cbn [andb].
    replace ((a ++ comma :: b') ++ [x; c1; c2])
      with (a ++ comma :: b ++ [c1; c2])
      by (rewrite Eb, <- !app_assoc; reflexivity).
    rewrite removeAll_app, (removeAll_digits comma a Dc Ha).
    cbn [removeAll filter N.eqb comma Pos.eqb negb].
    fold (removeAll comma (b ++ [c1; c2])).
    rewrite (removeAll_digits comma (b ++ [c1; c2]) Dc
               (digits_app b [c1; c2] Hb Hc)).
    rewrite parseFloat_whole.
    + apply or_zero_value.
    + destruct a; [contradiction|discriminate].
    + apply digits_app; [exact Ha|now apply digits_app].
  - intros E. rewrite price_of_kept. fold kept. rewrite E. unfold numeral.
    assert (NC : ~ In comma (a ++ dot :: b)).
    { intros X. apply in_app_or in X. destruct X as [X|[X|X]];
        [rewrite forallb_forall in Ha; specialize (Ha comma X); congruence
        |discriminate
        |rewrite forallb_forall in Hb; specialize (Hb comma X); congruence]. }
    destruct (endsCommaTwoDigits (a ++ dot :: b)) eqn:T;
      [apply endsCommaTwoDigits_comma in T; contradiction|].
    cbn [andb]. rewrite removeAll_app, (removeAll_digits comma a Dc Ha).
    cbn [removeAll filter N.eqb comma dot Pos.eqb negb].
    fold (removeAll comma b). rewrite (removeAll_digits comma b Dc Hb).
    rewrite (parseFloat_dot a b Hne Ha Hb). apply or_zero_value.
Qed.

Lemma price_formats_witness :
  price (parsePrice (js "-$1,234.56")) == decimalValue (js "1234") (js "56")
  /\ price (parsePrice (js "1.234,56 EUR")) == decimalValue (js "1234") (js "56")
  /\ price (parsePrice (js "1.234")) == decimalValue (js "1") (js "234").
Proof.
  split; [|split].
  - apply (proj1 (proj2 (price_formats (js "-$1,234.56") (js "1") (js "234")
                           53 54 ltac:(discriminate) eq_refl eq_refl eq_refl
                           eq_refl))).
    reflexivity.
  - apply (proj1 (proj2 (proj2 (price_formats (js "1.234,56 EUR") (js "1")
                                  (js "234") 53 54 ltac:(discriminate) eq_refl
                                  eq_refl eq_refl eq_refl)))).
    reflexivity.
  - apply (proj2 (proj2 (proj2 (proj2 (proj2
             (price_formats (js "1.234") (js "1") (js "234") 53 54
                ltac:(discriminate) eq_refl eq_refl eq_refl eq_refl)))))).
    reflexivity.
Defined.


(** ** The classifier on any label *)

Lemma classify_cases (exts : list jsstring) (label : jsstring) :
  ((forall e, In e exts -> contains label e = false)
   /\ classify exts label = (unknown, label))
  \/ (exists before k after,
         exts = before ++ k :: after
         /\ (forall e, In e before -> contains label e = false)
         /\ contains label k = true
         /\ classify exts label = (k, trim (removeWord k label))).
Proof.
  induction exts as [|e exts IH].
  - left. split; [intros e []|reflexivity].
  - destruct (contains label e) eqn:C.
    + right. exists [], e, exts. split; [reflexivity|].
      split; [intros x []|]. split; [exact C|].
      cbn [classify]. fold (contains label e). now rewrite C.
    + destruct IH as [[Hn Hc]|(before & k & after & E & Hb & Hk & Hc)].
      * left. split.
        -- intros x [<-|Hx]; [exact C|now apply Hn].
        -- cbn [classify]. fold (contains label e). now rewrite C.
      * right. exists (e :: before), k, after. rewrite E.
        split; [reflexivity|]. split.
        -- intros x [<-|Hx]; [exact C|now apply Hb].
        -- split; [exact Hk|]. cbn [classify]. fold (contains label e).
           rewrite C, <- E. exact Hc.
Qed.

Lemma unknown_not_keyword : ~ In unknown exteriors.
Proof. cbn. intuition discriminate. Qed.

(** X22. The classifier on any label, also one that contains several
    keywords.  The exterior is one of the five keywords or Unknown; it
    is Unknown exactly when the label contains no keyword; otherwise it
    is the first keyword, in the order Factory New, Minimal Wear,
    Field-Tested, Well-Worn, Battle-Scarred, that the label contains,
    whatever other keywords follow, and only that keyword is taken out
    of the name.  The name has its white space collapsed and trimmed in
    every case. *)
Theorem classifier_priority (label : jsstring) :
  (In (ne_exterior (extractNameAndExterior label)) exteriors
   \/ ne_exterior (extractNameAndExterior label) = unknown)
  /\ (ne_exterior (extractNameAndExterior label) = unknown
      <-> forall k, In k exteriors -> contains label k = false)
  /\ (forall before k after,
         exteriors = before ++ k :: after ->
         (forall e, In e before -> contains label e = false) ->
         contains label k = true ->
         extractNameAndExterior label
         = mkNE (trim (collapseSpaces (trim (removeWord k label)))) k)
  /\ (In (ne_exterior (extractNameAndExterior label)) exteriors ->
      contains label (ne_exterior (extractNameAndExterior label)) = true)
  /\ tidy (ne_name (extractNameAndExterior label)) = true.
Proof.
  assert (T : tidy (ne_name (extractNameAndExterior label)) = true).
  { unfold extractNameAndExterior.
    destruct (classify exteriors label) as [e n]. apply tidy_name. }
  assert (P : forall before k after,
             exteriors = before ++ k :: after ->
             (forall e, In e before -> contains label e = false) ->
             contains label k = true ->
             extractNameAndExterior label
             = mkNE (trim (collapseSpaces (trim (removeWord k label)))) k).
  { intros before k after E Hb Hk. unfold extractNameAndExterior.
    rewrite E, (classify_hit before k after label Hb Hk). reflexivity. }
  destruct (classify_cases exteriors label)
    as [[Hn Hc]|(before & k & after & E & Hb & Hk & Hc)].
  - assert (X : ne_exterior (extractNameAndExterior label) = unknown)
      by (unfold extractNameAndExterior; now rewrite Hc).
    split; [now right|]. split; [split; [intros _; exact Hn|intros _; exact X]|].
    split; [exact P|]. split; [|exact T].
    rewrite X. intros H. now apply unknown_not_keyword in H.
  - assert (X : ne_exterior (extractNameAndExterior label) = k)
      by (unfold extractNameAndExterior; now rewrite Hc).
    assert (Hin : In k exteriors)
      by (rewrite E; apply in_or_app; right; now left).
    rewrite X. split; [now left|]. split.
    + split.
      * intros ->. now apply unknown_not_keyword in Hin.
      * intros H. rewrite (H k Hin) in Hk. discriminate.
    + split; [exact P|]. split; [intros _; exact Hk|exact T].
Qed.

Lemma classifier_priority_witness :
  let label := js "StatTrak AWP (Battle-Scarred, was minimal wear)" in
  extractNameAndExterior label
  = mkNE (trim (collapseSpaces (trim (removeWord (js "Minimal Wear") label))))
         (js "Minimal Wear").
Proof.
  intros label.
  apply (proj1 (proj2 (proj2 (classifier_priority label)))
           [js "Factory New"] (js "Minimal Wear")
           [js "Field-Tested"; js "Well-Worn"; js "Battle-Scarred"]).
  - reflexivity.
  - intros e [<-|[]]. reflexivity.
  - reflexivity.
Defined.


(** ** The public entry points of the scraper *)

Lemma postProcess_ordered (options : ScrapingOptions)
      (items : list SteamMarketItem) :
  priceOrdered (opt_priceType options) (postProcess options items).
Proof.
  unfold postProcess.
  destruct (slice0_firstn (opt_count options)
              (sortItems (opt_priceType options)
                 (filterExterior (opt_exteriorFilter options) items)))
    as (n & -> & _).
  apply firstn_ordered, sortItems_ordered.
Qed.

Lemma postProcess_length (options : ScrapingOptions)
      (items : list SteamMarketItem) :
  (0 <= opt_count options)%Z ->
  (length (postProcess options items) <= Z.to_nat (opt_count options))%nat.
Proof.
  intros H. unfold postProcess.
  destruct (slice0_firstn (opt_count options)
              (sortItems (opt_priceType options)
                 (filterExterior (opt_exteriorFilter options) items)))
    as (n & -> & Hn & _).
  rewrite (Hn H). apply firstn_le_length.
Qed.

Section Entry.

Variable parseUrl : jsstring -> option Url.
Variable getPage : jsstring -> result ListingPage.
Variable getSearch : SearchRequest -> result SearchResponse.

Lemma scrapeMarketPage_result (fresh : nat -> jsstring) (url : jsstring)
      (options : ScrapingOptions) (items : list SteamMarketItem) :
  Scraping.scrapeMarketPage parseUrl getPage getSearch fresh url options
  = Ok items ->
  exists candidates, items = postProcess options candidates.
Proof.
  unfold Scraping.scrapeMarketPage.
  destruct (parseUrl url) as [u|]; [|discriminate].
  destruct (includes (pathname u) (js "/market/listings/")).
  - destruct (getPage url) as [page|e]; [|discriminate].
    intros [= <-]. eexists. reflexivity.
  - destruct (getSearch _) as [response|e]; [|discriminate].
    intros [= <-]. eexists. reflexivity.
Qed.

Lemma scrapeFrom_length (fresh : nat -> nat -> jsstring)
      (urls : list jsstring) (options : ScrapingOptions) :
  (0 <= opt_count options)%Z ->
  forall i,
    (length (Scraping.scrapeFrom parseUrl getPage getSearch fresh i urls options)
     <= length urls * Z.to_nat (opt_count options))%nat.
Proof.
  intros H. induction urls as [|url rest IH]; intros i; [simpl; lia|].
  cbn [Scraping.scrapeFrom length].
  destruct (Scraping.scrapeMarketPage _ _ _ _ _ _) as [items|e] eqn:E.
  - destruct (scrapeMarketPage_result _ _ _ _ E) as [c ->].
    rewrite length_app. pose proof (postProcess_length options c H).
    specialize (IH (S i)). lia.
  - specialize (IH (S i)). lia.
Qed.

Lemma scrapeFrom_source (fresh : nat -> nat -> jsstring)
      (urls : list jsstring) (options : ScrapingOptions) (x : SteamMarketItem) :
  forall i,
    In x (Scraping.scrapeFrom parseUrl getPage getSearch fresh i urls options) ->
    exists k url items,
      nth_error urls k = Some url
      /\ Scraping.scrapeMarketPage parseUrl getPage getSearch (fresh (i + k)%nat)
           url options = Ok items
      /\ In x items.
Proof.
  induction urls as [|url rest IH]; intros i H; [contradiction|].
  cbn [Scraping.scrapeFrom] in H.
  destruct (Scraping.scrapeMarketPage _ _ _ (fresh i) url options)
    as [items|e] eqn:E.
  - apply in_app_or in H. destruct H as [H|H].
    + exists 0%nat, url, items. rewrite Nat.add_0_r. now repeat split.
    + destruct (IH (S i) H) as (k & u & its & Hk & Hs & Hx).
      exists (S k), u, its. replace (i + S k)%nat with (S i + k)%nat by lia.
      now repeat split.
  - destruct (IH (S i) H) as (k & u & its & Hk & Hs & Hx).
    exists (S k), u, its. replace (i + S k)%nat with (S i + k)%nat by lia.
    now repeat split.
Qed.

(** X24. The public entry points of the scraper, for any behaviour of
    the network.  Every error [scrapeMarketPage] throws carries a
    message that starts with "Scraping failed: ".  The search request
    always asks for at least one result.  What it returns is in price
    order and, for a count of at least 0, no longer than the count.
    [scrapeMultipleUrls] never throws: it returns what the addresses
    that could be fetched gave, in the order of the addresses, so at
    most [count] items per address; every item it returns was returned
    for one of the addresses; when every address fails it returns
    nothing. *)
Theorem scraper_entry_points (single : nat -> jsstring)
        (fresh : nat -> nat -> jsstring) (options : ScrapingOptions) :
  (forall url e,
      Scraping.scrapeMarketPage parseUrl getPage getSearch single url options
      = Throw e ->
      exists cause, messageOf e = js "Scraping failed: " ++ cause)
  /\ (forall u, (1 <= rq_count (Scraping.searchRequest u options))%Z)
  /\ (forall url items,
         Scraping.scrapeMarketPage parseUrl getPage getSearch single url options
         = Ok items ->
         priceOrdered (opt_priceType options) items
         /\ ((0 <= opt_count options)%Z ->
             (length items <= Z.to_nat (opt_count options))%nat))
  /\ (forall urls,
         (0 <= opt_count options)%Z ->
         (length (Scraping.scrapeMultipleUrls parseUrl getPage getSearch fresh
                    urls options)
          <= length urls * Z.to_nat (opt_count options))%nat)
  /\ (forall urls x,
         In x (Scraping.scrapeMultipleUrls parseUrl getPage getSearch fresh
                 urls options) ->
         exists k url items,
           nth_error urls k = Some url
           /\ Scraping.scrapeMarketPage parseUrl getPage getSearch (fresh k)
                url options = Ok items
           /\ In x items)
  /\ (forall urls,
         (forall k url, nth_error urls k = Some url ->
                        exists e,
                          Scraping.scrapeMarketPage parseUrl getPage getSearch
                            (fresh k) url options = Throw e) ->
         Scraping.scrapeMultipleUrls parseUrl getPage getSearch fresh urls
                                     options = []).
Proof.
  split; [|split; [|split; [|split; [|split]]]].
  - intros url e. unfold Scraping.scrapeMarketPage.
    destruct (parseUrl url) as [u|].
    + destruct (includes (pathname u) (js "/market/listings/")).
      * destruct (getPage url) as [page|e0]; [discriminate|].
        intros [= <-]. now exists (messageOf e0).
      * destruct (getSearch _) as [response|e0]; [discriminate|].
        intros [= <-]. now exists (messageOf e0).
    + intros [= <-]. now exists (js "Invalid URL").
  - intros u. apply searchCount_pos.
  - intros url items E. destruct (scrapeMarketPage_result _ _ _ _ E) as [c ->].
    split; [apply postProcess_ordered|apply postProcess_length].
  - intros urls H. now apply scrapeFrom_length.
  - intros urls x H. apply (scrapeFrom_source fresh urls options x 0 H).
  - intros urls H. destruct
      (Scraping.scrapeMultipleUrls parseUrl getPage getSearch fresh urls options)
      as [|x l] eqn:E; [reflexivity|].
    assert (Hx : In x (Scraping.scrapeMultipleUrls parseUrl getPage getSearch
                         fresh urls options)) by (rewrite E; now left).
    destruct (scrapeFrom_source fresh urls options x 0 Hx)
      as (k & url & items & Hk & Hs & _).
    destruct (H k url Hk) as [e He]. cbn [Nat.add] in Hs. congruence.
Qed.

End Entry.

Lemma scraper_entry_points_witness :
  let parse := fun _ : jsstring =>
                 Some (mkUrl (js "steamcommunity.com")
                             (js "/market/listings/730/AK-47") []) in
  let getPage := fun url : jsstring =>
                   if str_eqb url (js "down")
                   then Throw (MkError (js "timeout"))
                   else Ok (page_of "$12.50") in
  let getSearch := fun _ : SearchRequest => Ok (JsonResults []) in
  (exists cause,
      messageOf (Scraping.wrap (MkError (js "timeout")))
      = js "Scraping failed: " ++ cause)
  /\ (length (Scraping.scrapeMultipleUrls parse getPage getSearch
                (fun _ => no_fresh) [js "down"; js "up"]
                (mkOptions lowest 1 None)) <= 2 * 1)%nat.
Proof.
  intros parse getPage getSearch. split.
  - apply (proj1 (scraper_entry_points parse getPage getSearch no_fresh
                    (fun _ => no_fresh) (mkOptions lowest 1 None))
             (js "down") (Scraping.wrap (MkError (js "timeout")))).
    reflexivity.
  - apply (proj1 (proj2 (proj2 (proj2
             (scraper_entry_points parse getPage getSearch no_fresh
                (fun _ => no_fresh) (mkOptions lowest 1 None)))))
             [js "down"; js "up"]).
    vm_compute. discriminate.
Defined.


Lemma append_restores_single_current_witness :
  (js "AWP | Asiimov", ft) <> (ak_name, ft)
  /\ DataManager.getSkin (js "AWP | Asiimov") ft
       (DataManager.addSkinData (js "t1") ak_name ft (observation "t1" 12)
                                ak_url store_three)
     = DataManager.getSkin (js "AWP | Asiimov") ft store_three.
Proof.
  assert (H : (js "AWP | Asiimov", ft) <> (ak_name, ft)) by discriminate.
  split; [exact H|].
  exact (proj1 (proj2 (append_restores_single_current (js "t1") ak_name ft
                         (observation "t1" 12) ak_url store_three))
           (js "AWP | Asiimov") ft H).
Defined.

(** ** The settings across the components *)

Lemma merge_asPartial (s t : TrackermanSettings) :
  DataManager.merge t (asPartial s)
  = mkSettings (autoScheduler s) (discord s) (scraping s)
               (match logging s with Some l => Some l | None => logging t end).
Proof. reflexivity. Qed.

(** X25. The settings written by [TrackermanService.updateSettings].
    The stored scheduler, notifier and scraper settings afterwards are
    the service's own copy overridden by the sections given: they do
    not depend on what was stored before.  So the completion time a
    cycle has stored is lost with the next update that does not give it,
    even an update of another section only, unless the service's own
    copy already had it.  All components hold the same settings
    afterwards; an update without sections, repeated, changes nothing
    more. *)
Theorem service_settings_overwrite (newSettings : PartialSettings)
        (st : SettingsState) :
  let st' := serviceSettings newSettings st in
  autoScheduler (stored st')
  = match p_autoScheduler newSettings with
    | Some a => a
    | None => autoScheduler (own st)
    end
  /\ discord (stored st')
     = match p_discord newSettings with
       | Some x => x
       | None => discord (own st)
       end
  /\ scraping (stored st')
     = match p_scraping newSettings with
       | Some x => x
       | None => scraping (own st)
       end
  /\ of_scheduler st' = autoScheduler (stored st')
  /\ of_notifier st' = discord (stored st')
  /\ of_scraper st' = scraping (stored st')
  /\ autoScheduler (own st') = autoScheduler (stored st')
  /\ (forall t,
         p_autoScheduler newSettings = None ->
         as_lastRun (autoScheduler (stored st)) = Some t ->
         as_lastRun (autoScheduler (own st)) = None ->
         as_lastRun (autoScheduler (stored st')) = None)
  /\ serviceSettings newSettings st' = st'.
Proof.
  intros st'. unfold st', serviceSettings, DataManager.updateSettings.
  rewrite !merge_asPartial.
  cbn [stored own of_scheduler of_notifier of_scraper autoScheduler discord
       scraping logging DataManager.merge].
  split; [reflexivity|]. split; [reflexivity|]. split; [reflexivity|].
  split; [reflexivity|]. split; [reflexivity|]. split; [reflexivity|].
  split; [reflexivity|]. split.
  - intros t -> _ E. exact E.
  - destruct newSettings as [[a|] [x|] [y|] [z|]];
      unfold DataManager.merge;
      cbn [p_autoScheduler p_discord p_scraping p_logging autoScheduler
           discord scraping logging];
      try reflexivity;
      destruct (logging (own st)); reflexivity.
Qed.

Lemma service_settings_overwrite_witness :
  let after_cycle :=
    DataManager.updateSettings
      (mkPartial (Some (AutoScheduler.with_lastRun
                          (autoScheduler sample_settings) (js "t9")))
                 None None None)
      sample_settings in
  let st := mkState sample_settings after_cycle (discord sample_settings)
                    (scraping sample_settings) (autoScheduler sample_settings) in
  as_lastRun (autoScheduler (stored st)) = Some (js "t9")
  /\ as_lastRun (autoScheduler
                   (stored (serviceSettings
                              (mkPartial None (Some (discord sample_settings))
                                         None None) st))) = None.
Proof.
  intros after_cycle st.
  assert (H : as_lastRun (autoScheduler (stored st)) = Some (js "t9"))
    by reflexivity.
  split; [exact H|].
  exact (proj1 (proj2 (proj2 (proj2 (proj2 (proj2 (proj2 (proj2
           (service_settings_overwrite
              (mkPartial None (Some (discord sample_settings)) None None)
              st))))))))
           (js "t9") eq_refl H eq_refl).
Defined.


(** ** Fetching all items on demand *)









Lemma visit_total (env : Env) (options : ScrapingOptions) (i : nat)
      (results : Results) (w : World) :
  exists w' r, Sweep.visit env options i results w = (w', Ok r).
Proof.
  unfold Sweep.visit.
  destruct (nth_error (skins (w_data w)) i) as [skin|]; [|now eexists _, _].
  destruct (request env i (skin_url skin) options w) as [w1 [items|e]];
    [|now eexists _, _].
  cbv zeta.
  destruct ((Sweep.appendItems env (skin_name skin) (skin_exterior skin)
               (skin_url skin) items ;;;
             Sweep.notifyLatest env i (skin_name skin) (skin_exterior skin)) w1)
    as [w2 [u|e]]; now eexists _, _.
Qed.

Lemma visitAll_total (env : Env) (options : ScrapingOptions)
      (indices : list nat) :
  forall results w,
    exists w' r, Sweep.visitAll env options indices results w = (w', Ok r).
Proof.
  induction indices as [|i rest IH]; intros results w; [now eexists _, _|].
  cbn [Sweep.visitAll]. rewrite bind_run.
  destruct (visit_total env options i results w) as (w1 & r1 & ->).
  apply IH.
Qed.





Lemma last_opt_nonempty {A} (l : list A) (x : A) :
  last_opt l = Some x -> (0 <? length l) = true.
Proof.
  unfold last_opt. destruct l as [|y l]; [discriminate|reflexivity].
Qed.

(** X27. A fetch that returns no item.  The scheduled cycle then makes
    no notifier call and stores nothing for the item.  [fetchAllSkinsData]
    stores nothing either, but still runs the detector on the last
    stored observation of the item: the calls planned for that
    observation are made again (for instance the alert of a threshold
    that still holds), up to the first one that throws. *)
Theorem empty_fetch_alerts_again (env : Env) (options : ScrapingOptions)
        (results : Results) (w : World) (done rest : list Skin) (s : Skin)
        (latest : SkinData) :
  skins (w_data w) = done ++ s :: rest ->
  ~ In (keyOf s) (map keyOf done) ->
  last_opt (skin_skindata s) = Some latest ->
  (scrape env (length done) (skin_url s) options = Ok [] ->
   Sweep.visit env options (length done) results w
   = (mkWorld (w_data w) (w_settings w)
        (w_sent w ++ attempted (notify env (length done))
                       (service_calls s latest))
        (w_tick w) (w_requests w ++ [skin_url s]),
      Ok (assign (resultKey s) [] results)))
  /\ (scrape env (length done) (skin_url s) AutoScheduler.scrapingOptions
      = Ok [] ->
      AutoScheduler.fetchOne env (length done) w
      = (mkWorld (w_data w) (w_settings w) (w_sent w) (w_tick w)
           (w_requests w ++ [skin_url s]),
         Ok tt)).
Proof.
  intros Hw Hnot Hlast. split; intros Hs.
  - unfold Sweep.visit. rewrite Hw, nth_error_zipper. unfold request.
    rewrite Hs. cbv zeta. rewrite bind_run.
    cbn [Sweep.appendItems ret]. unfold Sweep.notifyLatest.
    rewrite bind_run. unfold get_data. cbv beta iota.
    cbn [w_data]. unfold DataManager.getSkin. rewrite Hw.
    destruct (zipper_first s (fun x => x) done rest Hnot) as [-> _].
    rewrite (last_opt_nonempty _ _ Hlast), Hlast.
    rewrite checkAndSendNotifications_any. reflexivity.
  - unfold AutoScheduler.fetchOne. rewrite Hw, nth_error_zipper.
    rewrite try_catch_ignore. unfold AutoScheduler.fetchBody.
    rewrite bind_run. unfold request. rewrite Hs. reflexivity.
Qed.

Lemma empty_fetch_alerts_again_witness :
  let env := mkEnv (fun _ _ _ => Ok []) (fun _ _ => true) (fun _ => js "t") in
  let s := ak_after 120 sample_thresholds in
  let latest := set_expired false (observation "t2" 120) in
  let w := world_of (mkData [s] (js "t0")) in
  w_sent (fst (Sweep.visit env AutoScheduler.scrapingOptions 0 [] w))
  = [PriceUpdate s latest; ThresholdHit s latest th_kind_high]
  /\ w_sent (fst (AutoScheduler.fetchOne env 0 w)) = [].
Proof.
  intros env s latest w.
  pose proof (empty_fetch_alerts_again env AutoScheduler.scrapingOptions [] w
                [] [] s latest eq_refl (fun H => H) eq_refl) as [V F].
  split.
  - change 0%nat with (@length Skin []) at 1.
    rewrite (V eq_refl). reflexivity.
  - change 0%nat with (@length Skin []) at 1.
    rewrite (F eq_refl). reflexivity.
Defined.


(** ** The API routes *)

(** X28. The routes of the tracked items, for an initialised service.
    [DELETE] answers 200 exactly when a name and an exterior are given
    and not empty, whether or not the pair is tracked; the pair is not
    tracked afterwards and the other items are kept; otherwise it
    answers 400 and changes nothing.  [POST] answers 400 without a URL,
    and otherwise 200 or 400 as [addSkin] returns or throws; the store
    changes only with a 200.  An address whose item name is nothing but
    a keyword is registered under the empty name, a name that [DELETE]
    refuses. *)
Theorem skin_routes (parseUrl : jsstring -> option Url)
        (decodeURIComponent : jsstring -> result jsstring)
        (now : jsstring) (d : TrackermanData) :
  (forall name exterior,
      let answer := Routes.deleteSkin now name exterior d in
      (success (snd answer) = true
       <-> present name = true /\ present exterior = true)
      /\ (success (snd answer) = false ->
          fst answer = d /\ status (snd answer) = 400%nat)
      /\ (success (snd answer) = true ->
          status (snd answer) = 200%nat
          /\ DataManager.getSkin (text_of name) (text_of exterior) (fst answer)
             = None
          /\ skins (fst answer)
             = filter (fun s => negb (same_key (text_of name)
                                               (text_of exterior) s))
                      (skins d)))
  /\ (forall url thresholds exteriorOverride,
         let answer := Routes.postSkin parseUrl decodeURIComponent now url
                         thresholds exteriorOverride d in
         (present url = false -> answer
            = (d, mkResponse 400 false (js "URL is required")))
         /\ (success (snd answer) = false ->
             fst answer = d /\ status (snd answer) = 400%nat)
         /\ (success (snd answer) = true -> status (snd answer) = 200%nat))
  /\ (forall k, In k exteriors ->
         ne_name (extractNameAndExterior k) = []
         /\ forall exterior,
             Routes.deleteSkin now (Some (ne_name (extractNameAndExterior k)))
                               exterior d
             = (d, mkResponse 400 false (js "Name and exterior are required"))).
Proof.
  split; [|split].
  - intros name exterior answer. unfold answer, Routes.deleteSkin.
    destruct (present name) eqn:Pn, (present exterior) eqn:Pe; cbn [negb orb fst snd success status].
    + split; [tauto|]. split; [discriminate|]. intros _.
      split; [reflexivity|]. split; [apply getSkin_removeSkin|reflexivity].
    + split; [split; [discriminate|intros [_ H]; discriminate]|].
      split; [now split|discriminate].
    + split; [split; [discriminate|intros [H _]; discriminate]|].
      split; [now split|discriminate].
    + split; [split; [discriminate|intros [H _]; discriminate]|].
      split; [now split|discriminate].
  - intros url thresholds exteriorOverride answer.
    unfold answer, Routes.postSkin.
    destruct (present url); cbn [negb].
    + split; [discriminate|].
      destruct (Registration.addSkin parseUrl decodeURIComponent now
                  (text_of url) thresholds exteriorOverride d)
        as [d' [u|e]] eqn:E; cbn [fst snd success status].
      * split; [discriminate|reflexivity].
      * split; [|discriminate]. intros _. split; [|reflexivity].
        unfold Registration.addSkin in E.
        destruct (negb _); [now injection E as <- _|].
        destruct (Registration.parseSteamUrl _ _ _) as [parsed|e'];
          [|now injection E as <- _].
        cbv zeta in E.
        destruct (DataManager.getSkin _ _ d) eqn:G; [now injection E as <- _|].
        unfold DataManager.addSkin in E. cbn [skin_name skin_exterior] in E.
        rewrite G in E. discriminate.
    + split; [reflexivity|]. cbn [fst snd success status].
      split; [now split|discriminate].
  - intros k Hk.
    assert (E : ne_name (extractNameAndExterior k) = []).
    { cbn in Hk. destruct Hk as [<-|[<-|[<-|[<-|[<-|[]]]]]]; reflexivity. }
    split; [exact E|]. intros exterior. rewrite E. reflexivity.
Qed.

Lemma skin_routes_witness :
  let parse := fun _ : jsstring =>
                 Some (mkUrl (js "steamcommunity.com")
                             (js "/market/listings/730/Field-Tested") []) in
  exists d',
    Routes.postSkin parse (fun s => Ok s) (js "t1") (Some (js "u")) None None
                    store_one
    = (d', mkResponse 200 true (js "Skin added successfully"))
    /\ DataManager.getSkin [] ft d' = Some (mkSkin [] ft (js "u") [] None)
    /\ Routes.deleteSkin (js "t2") (Some []) (Some ft) d'
       = (d', mkResponse 400 false (js "Name and exterior are required")).
Proof.
  intros parse. eexists. split; [reflexivity|]. split; [reflexivity|].
  apply (proj2 (proj2 (proj2 (skin_routes parse (fun s => Ok s) (js "t2") _))
                  ft ltac:(cbn; tauto)) (Some ft)).
Defined.

Lemma executeScheduledFetch_total (env : Env)
      (this_settings : AutoSchedulerSettings) (w : World) :
  exists w', AutoScheduler.executeScheduledFetch env this_settings w = (w', Ok tt).
Proof.
  unfold AutoScheduler.executeScheduledFetch.
  rewrite bind_run. unfold get_data at 1. cbv beta iota.
  destruct (length (DataManager.getSkins (w_data w)) =? 0)%nat;
    [now eexists|].
  rewrite bind_run.
  destruct (fetchLoop_extends env
              (seq 0 (length (DataManager.getSkins (w_data w)))) w)
    as (w1 & -> & _).
  rewrite bind_run. cbn. now eexists.
Qed.

(** X29. The fetch routes, for an initialised service.  A request that
    is not for a single item, or that lacks the name or the exterior of
    the item, is served as a fetch of all items, and that always answers
    200 with an entry list, whatever fails underneath.  A request for a
    single item that is not tracked answers 400 with the "not found"
    message and changes nothing.  The trigger route always answers 200:
    no failure of a fetch or of the notifier reaches the caller. *)
Theorem fetch_routes (env : Env) (options : ScrapingOptions) (w : World) :
  (forall fetchType skinName skinExterior,
      str_eqb fetchType (js "single") = false
      \/ present skinName = false \/ present skinExterior = false ->
      exists w' results,
        Routes.postFetch env fetchType skinName skinExterior options w
        = (w', (mkResponse 200 true (js "Data fetched successfully"),
                Some (AllItems results)))
        /\ Sweep.fetchAllSkinsData env options w = (w', Ok results))
  /\ (forall skinName skinExterior,
         present skinName = true -> present skinExterior = true ->
         DataManager.getSkin (text_of skinName) (text_of skinExterior)
                             (w_data w) = None ->
         Routes.postFetch env (js "single") skinName skinExterior options w
         = (w, (mkResponse 400 false
                  (DataManager.not_found_message (text_of skinName)
                                                 (text_of skinExterior)),
                None)))
  /\ (forall this_settings,
         exists w',
           Routes.putTrigger env this_settings w
           = (w', mkResponse 200 true (js "Scheduler triggered successfully"))).
Proof.
  split; [|split].
  - intros fetchType skinName skinExterior H. unfold Routes.postFetch.
    assert (C : str_eqb fetchType (js "single") && present skinName
                && present skinExterior = false).
    { destruct H as [-> |[-> | ->]]; [reflexivity| |];
        destruct (str_eqb fetchType (js "single")); cbn [andb];
        try reflexivity; destruct (present skinName); reflexivity. }
    rewrite C.
    assert (T : exists w' results,
               Sweep.fetchAllSkinsData env options w = (w', Ok results)).
    { unfold Sweep.fetchAllSkinsData. rewrite bind_run.
      unfold get_data. cbv beta iota. apply visitAll_total. }
    destruct T as (w' & results & E). exists w', results. now rewrite E.
  - intros skinName skinExterior Pn Pe G. unfold Routes.postFetch.
    rewrite Pn, Pe. cbn [str_eqb js]. 
    replace (str_eqb (js "single") (js "single")) with true
      by (symmetry; apply str_eqb_refl).
    cbn [andb]. unfold Tracking.fetchSkinData. rewrite bind_run.
    unfold get_data. cbv beta iota. rewrite G. reflexivity.
  - intros this_settings. unfold Routes.putTrigger, AutoScheduler.manualTrigger.
    destruct (executeScheduledFetch_total env this_settings w) as [w' ->].
    now exists w'.
Qed.

Lemma fetch_routes_witness :
  Routes.postFetch env_second_fails (js "single") (Some (js "Glock-18"))
                   (Some ft) (mkOptions lowest 1 None) (world_of store_three)
  = (world_of store_three,
     (mkResponse 400 false (DataManager.not_found_message (js "Glock-18") ft),
      None))
  /\ exists w' results,
      Routes.postFetch env_second_fails (js "single") (Some (js "Glock-18"))
                       None (mkOptions lowest 1 None) (world_of store_three)
      = (w', (mkResponse 200 true (js "Data fetched successfully"),
              Some (AllItems results))).
Proof.
  pose proof (fetch_routes env_second_fails (mkOptions lowest 1 None)
                (world_of store_three)) as (A & S & _).
  split.
  - apply (S (Some (js "Glock-18")) (Some ft)); reflexivity.
  - destruct (A (js "single") (Some (js "Glock-18")) None
                (or_intror (or_intror eq_refl))) as (w' & results & E & _).
    now exists w', results.
Defined.
